(** * medaCy: cross-validation, span reconstruction and embedding lookup

    A shallow embedding of [medacy/model/model.py] ([Model.cross_validate]
    and its helpers) and of
    [medacy/pipeline_components/embeddings/embedding_component.py]
    ([EmbeddingComponent._lookup_embedding]), with the properties the
    specification states about them. *)

From Stdlib Require Import ZArith QArith Lqa String Ascii List Lia.
From Equations Require Import Equations.
From stdpp Require Import base option list gmap strings sorting.

Set Warnings "-clear-no-such-hyp".

Local Open Scope string_scope.
Local Open Scope list_scope.
Local Open Scope stdpp_scope.
Local Open Scope Z_scope.

(** ** Python runtime: exceptions and the values that carry them *)

Module Py.

(** The exceptions the modelled code can raise. [External] stands for
    whatever an external collaborator (learner, splitter, pipeline)
    raises on its own. *)
Inductive exn : Type :=
| ValueError (msg : string)
| AssertionError (msg : string)
| TypeError
| IndexError
| KeyError
| StatisticsError
| ZeroDivisionError
| AttributeError
| UnboundLocalError
| IOError
| FileNotFoundError
| FileExistsError
| External (msg : string).

Inductive result (A : Type) : Type :=
| Ok (a : A)
| Raise (e : exn).
Arguments Ok {A} a.
Arguments Raise {A} e.

Definition bind {A B} (m : result A) (k : A → result B) : result B :=
  match m with
  | Ok a => k a
  | Raise e => Raise e
  end.

#[export] Instance result_ret : MRet result := λ _ a, Ok a.
#[export] Instance result_bind : MBind result := λ _ _ k m, bind m k.

(** [l[i]] for an index that is never negative. *)
Definition getitem {A} (l : list A) (i : nat) : result A :=
  match l !! i with
  | Some a => Ok a
  | None => Raise IndexError
  end.

(** [l[i]] for an arbitrary Python integer: negative indices count from
    the end of the list. *)
Definition getitem_Z {A} (l : list A) (i : Z) : result A :=
  if bool_decide (0 ≤ i) then getitem l (Z.to_nat i)
  else if bool_decide (- Z.of_nat (length l) ≤ i)
       then getitem l (Z.to_nat (Z.of_nat (length l) + i))
       else Raise IndexError.

(** [[f(x) for x in l]] where [f] may raise. *)
Fixpoint mapM {A B} (f : A → result B) (l : list A) : result (list B) :=
  match l with
  | [] => Ok []
  | x :: l' => y ← f x; ys ← mapM f l'; Ok (y :: ys)
  end.

(** [d[k].append(v)] on a dictionary of lists. *)
Definition dict_append {V} (d : gmap string (list V)) (k : string) (v : V)
  : result (gmap string (list V)) :=
  match d !! k with
  | Some l => Ok (<[k := l ++ [v]]> d)
  | None => Raise KeyError
  end.

End Py.
Import Py.

(** ** Data model of [cross_validate] *)

(** Labels are Python strings. *)
Abbreviation label := string (only parsing).
(** A token span [(start, end)] of character offsets. *)
Abbreviation span := (Z * Z)%type (only parsing).
(** The tuples appended to [groundtruth_by_document] / [preds_by_document]:
    [(entity, first_start, last_end)]. *)
Abbreviation tagged_span := (string * Z * Z)%type (only parsing).

(** ** Span reconstruction (model.py, lines 234-247 and 260-273) *)

Module Spans.

(** The inner loop:
    [while i < len(labels) - 1 and labels[i + 1] == entity: i += 1].
    When [i < len(labels) - 1] holds, [labels[i + 1]] is in range, so the
    lookup cannot raise; for an empty list both [len - 1 = -1] in Python
    and the truncated [0 - 1 = 0] on [nat] make the first test false. *)
Equations? extend_run (labels : list label) (entity : label) (i : nat) : nat
  by wf (length labels - i)%nat lt :=
  extend_run labels entity i
    with decide ((i < length labels - 1)%nat ∧ labels !! (i + 1)%nat = Some entity) := {
    | left _ => extend_run labels entity (i + 1)
    | right _ => i }.
Proof. lia. Qed.

(** One iteration of the outer loop body at an index [i] in range; returns
    the next value of [i] and the updated dictionary. *)
Definition span_step (labels : list label) (spans : list span)
    (docs : list string) (i : nat) (by_document : gmap string (list tagged_span))
  : result (nat * gmap string (list tagged_span)) :=
  entity ← getitem labels i;
  if decide (entity = "O") then Ok (i + 1, by_document)%nat
  else
    document ← getitem docs i;
    '(first_start, first_end) ← getitem spans i;
    let j := extend_run labels entity i in
    '(last_start, last_end) ← getitem spans j;
    by_document' ← dict_append by_document document (entity, first_start, last_end);
    Ok (j + 1, by_document')%nat.

Lemma extend_run_eq labels entity i :
  extend_run labels entity i =
  if decide ((i < length labels - 1)%nat ∧ labels !! (i + 1)%nat = Some entity)
  then extend_run labels entity (i + 1) else i.
Proof.
  rewrite extend_run_equation_1.
  destruct (decide _); reflexivity.
Qed.

Lemma extend_run_ge labels entity i : (i ≤ extend_run labels entity i)%nat.
Proof.
  remember (length labels - i)%nat as n eqn:Hn.
  revert i Hn. induction (lt_wf n) as [n _ IH]. intros i ->.
  rewrite extend_run_eq. destruct (decide _) as [[Hlt _]|]; [|lia].
  specialize (IH (length labels - (i + 1))%nat ltac:(lia) (i + 1)%nat eq_refl). lia.
Qed.

Lemma span_step_progress labels spans docs i d j d' :
  span_step labels spans docs i d = Ok (j, d') → (i < j)%nat.
Proof.
  unfold span_step. destruct (getitem labels i) as [e|?]; simpl; [|done].
  case_decide; [intros ?; simplify_eq; lia|].
  destruct (getitem docs i); simpl; [|done].
  destruct (getitem spans i) as [[??]|?]; simpl; [|done].
  destruct (getitem spans _) as [[??]|?]; simpl; [|done].
  destruct (dict_append _ _ _); simpl; [|done].
  intros ?; simplify_eq. pose proof (extend_run_ge labels e i). lia.
Qed.

(** A value together with the equation that names it, so that the loop
    below can use the outcome of [span_step] in its termination proof. *)
Definition inspect {A} (a : A) : {b : A | a = b} := exist _ a eq_refl.

(** The outer loop [while i < len(labels): ...]. *)
Equations? span_loop (labels : list label) (spans : list span)
    (docs : list string) (i : nat) (by_document : gmap string (list tagged_span))
  : result (gmap string (list tagged_span))
  by wf (length labels - i)%nat lt :=
  span_loop labels spans docs i by_document with decide (i < length labels)%nat := {
    | right _ => Ok by_document
    | left _ with inspect (span_step labels spans docs i by_document) := {
      | exist _ (Raise e) _ => Raise e
      | exist _ (Ok (pair j by_document')) Hstep =>
          span_loop labels spans docs j by_document' } }.
Proof. apply span_step_progress in Hstep. lia. Qed.

(** The whole reconstruction, starting at [i = 0]. *)
Definition reconstruct_spans (labels : list label) (spans : list span)
    (docs : list string) (by_document : gmap string (list tagged_span))
  : result (gmap string (list tagged_span)) :=
  span_loop labels spans docs 0 by_document.

(** *** Maximal runs, stated on the token stream

    The three parallel lists describe one stream of tokens; a run is a
    non-empty block of consecutive tokens with one label, and a
    decomposition into maximal runs cuts the stream into runs such that
    no two neighbouring runs share their label. *)

Record token := Token { tok_label : label; tok_span : span; tok_doc : string }.

Definition tokens (labels : list label) (spans : list span) (docs : list string)
  : list token :=
  zip_with (λ l sd, Token l sd.1 sd.2) labels (zip spans docs).

Definition run_label (g : list token) : option label := tok_label <$> head g.

Definition is_run (g : list token) : Prop :=
  ∃ t g', g = t :: g' ∧ Forall (λ u, tok_label u = tok_label t) g'.

Definition neighbours_differ (groups : list (list token)) : Prop :=
  ∀ k g1 g2, groups !! k = Some g1 → groups !! S k = Some g2 →
             run_label g1 ≠ run_label g2.

Definition maximal_runs (toks : list token) (groups : list (list token)) : Prop :=
  concat groups = toks ∧ Forall is_run groups ∧ neighbours_differ groups.

(** What one run contributes: nothing for a run of ["O"], otherwise the
    document of its first token with the tuple (label, start of the first
    token, end of the last token). *)
Definition emit (g : list token) : option (string * tagged_span) :=
  match head g, last g with
  | Some a, Some b =>
      if decide (tok_label a = "O") then None
      else Some (tok_doc a, (tok_label a, (tok_span a).1, (tok_span b).2))
  | _, _ => None
  end.

Definition emitted (groups : list (list token)) : list (string * tagged_span) :=
  omap emit groups.

(** The tuples of an emission list that belong to document [d], in order. *)
Definition spans_of (d : string) (ems : list (string * tagged_span)) : list tagged_span :=
  (filter (λ e, e.1 = d) ems).*2.

(** The decomposition computed from left to right. *)
Fixpoint group_runs (toks : list token) : list (list token) :=
  match toks with
  | [] => []
  | t :: toks' =>
      match group_runs toks' with
      | (u :: g) :: groups =>
          if decide (tok_label t = tok_label u) then (t :: u :: g) :: groups
          else [t] :: (u :: g) :: groups
      | _ => [[t]]
      end
  end.

End Spans.
Import Spans.

(** ** The tag set (model.py, lines 190-196) *)

Module Tagset.

(** Python compares strings by code point, position by position. *)
Definition str_le (s1 s2 : string) : Prop := String.leb s1 s2 = true.
Definition str_lt (s1 s2 : string) : Prop := String.ltb s1 s2 = true.

#[export] Instance str_le_dec s1 s2 : Decision (str_le s1 s2).
Proof. unfold str_le. apply _. Defined.

(** The loop that fills the set: [if tag != 'O' and tag != '': tagset.add(tag)]. *)
Definition collect_tags (Y_data : list (list label)) : gset string :=
  foldl (λ acc tags,
           foldl (λ acc tag,
                    if bool_decide (tag ≠ "O" ∧ tag ≠ "") then acc ∪ {[ tag ]} else acc)
                 acc tags)
        ∅ Y_data.

(** [tagset = list(tagset); tagset.sort()]: the elements of the set, in
    whatever order the set yields them, then sorted. *)
Definition compute_tagset (Y_data : list (list label)) : list label :=
  merge_sort str_le (elements (collect_tags Y_data)).

End Tagset.
Import Tagset.

(** ** Aggregation over folds (model.py, lines 303-315) *)

Module Stats.

(** The three numbers of one row of [fold_statistics]. *)
Record scores := Scores { recall : Q; precision : Q; f1 : Q }.

(** One row of [statistics_all_folds]; the source computes no
    [recall_min]. *)
Record aggregate := Aggregate {
  precision_average : Q; precision_max : Q; precision_min : Q;
  recall_average : Q; recall_max : Q;
  f1_average : Q; f1_max : Q; f1_min : Q }.

Definition Qltb (x y : Q) : bool := negb (Qle_bool y x).

Definition Qsum (xs : list Q) : Q := foldr Qplus 0%Q xs.

Section Mean.
(** [statistics.mean] adds the data as exact fractions, divides, and
    converts the quotient to the type of the data; [rnd] is that
    conversion (rounding to a float). *)
Variable rnd : Q → Q.

Definition mean (xs : list Q) : result Q :=
  match xs with
  | [] => Raise StatisticsError
  | _ => Ok (rnd (Qsum xs / inject_Z (Z.of_nat (length xs))))
  end.

(** [max] and [min] keep the first of equal candidates. *)
Definition py_max (xs : list Q) : result Q :=
  match xs with
  | [] => Raise (ValueError "max() arg is an empty sequence")
  | x :: xs' => Ok (foldl (λ best y, if Qltb best y then y else best) x xs')
  end.

Definition py_min (xs : list Q) : result Q :=
  match xs with
  | [] => Raise (ValueError "min() arg is an empty sequence")
  | x :: xs' => Ok (foldl (λ best y, if Qltb y best then y else best) x xs')
  end.

(** [evaluation_statistics[fold][label][key] for fold in evaluation_statistics] *)
Definition column (key : scores → Q) (evaluation_statistics : list (gmap string scores))
    (label : string) : result (list Q) :=
  mapM (λ fold_statistics,
          match fold_statistics !! label with
          | Some s => Ok (key s)
          | None => Raise KeyError
          end) evaluation_statistics.

Definition aggregate_label (evaluation_statistics : list (gmap string scores))
    (label : string) : result aggregate :=
  let values key := column key evaluation_statistics label in
  p_avg ← values precision ≫= mean;
  p_max ← values precision ≫= py_max;
  p_min ← values precision ≫= py_min;
  r_avg ← values recall ≫= mean;
  r_max ← values recall ≫= py_max;
  f_avg ← values f1 ≫= mean;
  f_max ← values f1 ≫= py_max;
  f_min ← values f1 ≫= py_min;
  Ok (Aggregate p_avg p_max p_min r_avg r_max f_avg f_max f_min).

(** [for label in tagset + ['system']: statistics_all_folds[label] = ...] *)
Fixpoint aggregate_labels (evaluation_statistics : list (gmap string scores))
    (labels : list label) (statistics_all_folds : gmap string aggregate)
  : result (gmap string aggregate) :=
  match labels with
  | [] => Ok statistics_all_folds
  | label :: labels' =>
      a ← aggregate_label evaluation_statistics label;
      aggregate_labels evaluation_statistics labels' (<[label := a]> statistics_all_folds)
  end.

Definition aggregate_statistics (tagset : list label)
    (evaluation_statistics : list (gmap string scores)) : result (gmap string aggregate) :=
  aggregate_labels evaluation_statistics (tagset ++ ["system"]) ∅.
End Mean.

End Stats.
Import Stats.

(** ** [Model.cross_validate] and its helpers *)

Module CV.

(** [os.path.join] for two components (posixpath). *)
Definition starts_with_sep (b : string) : bool :=
  match b with
  | String c _ => Ascii.eqb c "/"
  | EmptyString => false
  end.

Fixpoint ends_with_sep (a : string) : bool :=
  match a with
  | EmptyString => false
  | String c EmptyString => Ascii.eqb c "/"
  | String _ a' => ends_with_sep a'
  end.

Definition os_path_join (a b : string) : string :=
  if starts_with_sep b then b
  else if String.eqb a "" || ends_with_sep a then (a ++ b)%string
  else (a ++ "/" ++ b)%string.

(** *** Directories on disk ([os.path.isdir] and [os.makedirs])

    The disk holds the directories under the names a walk from the root or
    from the current directory gives them. A walk follows the components of
    a path: an empty component and ["."] stay where they are, [".."] goes
    to the parent, a name goes to that child. The root, the current
    directory and the directories above it are always there. Symbolic
    links, files that are in the way and missing permissions are left out,
    and the current directory is known by no other name. *)

(** [path.split("/")] *)
Fixpoint split_path (path : string) : list string :=
  match path with
  | EmptyString => [""]
  | String c path' =>
      if Ascii.eqb c "/" then "" :: split_path path'
      else match split_path path' with
           | comp :: comps => String c comp :: comps
           | [] => [String c ""]
           end
  end.

(** Where a walk is: the names gone down, the last one first; above the
    current directory these are [".."]. *)
Definition walk_step (absolute : bool) (stack : list string) (comp : string)
  : list string :=
  if String.eqb comp "" || String.eqb comp "." then stack
  else if String.eqb comp ".." then
    match stack with
    | [] => if absolute then [] else [".."]
    | top :: rest => if String.eqb top ".." then ".." :: stack else rest
    end
  else comp :: stack.

(** The places a walk passes, one after each component. *)
Fixpoint walk (absolute : bool) (stack : list string) (comps : list string)
  : list (list string) :=
  match comps with
  | [] => []
  | comp :: comps' =>
      let stack' := walk_step absolute stack comp in
      stack' :: walk absolute stack' comps'
  end.

Definition always_there (stack : list string) : bool :=
  forallb (String.eqb "..") stack.

(** ["/".join(comps)] *)
Fixpoint join_sep (comps : list string) : string :=
  match comps with
  | [] => ""
  | [comp] => comp
  | comp :: comps' => (comp ++ "/" ++ join_sep comps')%string
  end.

Definition location_name (absolute : bool) (stack : list string) : string :=
  let s := join_sep (rev stack) in
  if absolute then ("/" ++ s)%string
  else if String.eqb s "" then "." else s.

Definition named (absolute : bool) (stacks : list (list string)) : list string :=
  map (location_name absolute) (filter (λ stack, always_there stack = false) stacks).

(** The directories a path goes through, itself included. *)
Definition directories_of (path : string) : list string :=
  named (starts_with_sep path) (walk (starts_with_sep path) [] (split_path path)).

(** [os.path.isdir(path)] on a disk with the directories [on_disk]. *)
Definition isdir (on_disk : gset string) (path : string) : bool :=
  negb (String.eqb path "")
  && forallb (λ d, bool_decide (d ∈ on_disk)) (directories_of path).

(** The components without the empty ones at the end. *)
Fixpoint drop_trailing_empty (comps : list string) : list string :=
  match comps with
  | [] => []
  | comp :: comps' =>
      match drop_trailing_empty comps' with
      | [] => if String.eqb comp "" then [] else [comp]
      | rest => comp :: rest
      end
  end.

(** Whether the last [mkdir] of [os.makedirs(path)] finds its directory in
    place, once the directories before it have been made. A path that ends
    in ["."] is not made at all (the [tail == cdir] case of [makedirs]). *)
Definition mkdir_fails (on_disk : gset string) (path : string) : bool :=
  let absolute := starts_with_sep path in
  let comps := drop_trailing_empty (split_path path) in
  match last comps, last (walk absolute [] comps) with
  | Some comp, Some final =>
      if String.eqb comp "." then false
      else always_there final
           || bool_decide (location_name absolute final
                             ∈ on_disk ∪ list_to_set (named absolute
                                                      (walk absolute [] (removelast comps))))
  | _, _ => true
  end.

(** The values the directory arguments can take: [None], a string, or a
    boolean (the docstring allows [True]). *)
Inductive pyval : Type := PNone | PStr (s : string) | PBool (b : bool).

Definition is_none (v : pyval) : bool :=
  match v with PNone => true | _ => false end.

(** Truth value in an [if]. *)
Definition truthy (v : pyval) : bool :=
  match v with
  | PNone => false
  | PStr s => negb (String.eqb s "")
  | PBool b => b
  end.

Definition isinstance_str (v : pyval) : option string :=
  match v with PStr s => Some s | _ => None end.

Record data_file := DataFile { file_name : string; raw_path : string }.

Record dataset := Dataset {
  data_directory : string;
  data_files : list data_file;
  is_metamapped : bool }.

(** What [construct_annotations_from_tuples(doc, preds)] is built from and
    [to_ann] writes: the text of the document and its tuples. *)
Record annotations := Annotations { ann_text : string; ann_entities : list tagged_span }.

Inductive metric : Type := Recall | Precision | F1.

Section CrossValidation.
(** The features of one token and a fitted learner are opaque here. *)
Context {feature learner : Type}.

(** An element of [X_data]: [(features, spans, file_name)]. *)
Definition sequence : Type := list feature * list span * string.

(** Calls to the collaborators, warnings and writes, in program order. *)
Inductive event : Type :=
| EvExtract (f : data_file) (metamapped : bool)
| EvSplit (folds : Z) (X : list sequence) (Y : list (list label))
| EvGetLearner
| EvFit (train_data : list (list feature)) (y_train : list (list label))
| EvPredict (test_data : list (list feature))
| EvMetric (m : metric) (y_test y_pred : list (list label)) (labels : list label)
| EvWarning (msg : string)
| EvMakedirs (directory : string)
| EvToAnn (write_location : string).

(** The state the method can see or change: the attributes of the
    model ([None] is Python's [None]), the entities of its pipeline, the
    directories and files on disk, and the calls made so far. The raw
    texts are only read, the annotation files only written. *)
Record world := World {
  X_data : option (list sequence);
  y_data : option (list (list label));
  entities : option (list label);
  dirs : gset string;
  texts : gmap string string;
  ann_files : gmap string annotations;
  trace : list event }.

(** Computations that change the world and may raise; the world at the
    point of the exception is kept. *)
Definition M (A : Type) : Type := world → result A * world.

#[export] Instance M_ret : MRet M := λ _ a w, (Ok a, w).
#[export] Instance M_bind : MBind M := λ _ _ k m w,
  match m w with
  | (Ok a, w') => k a w'
  | (Raise e, w') => (Raise e, w')
  end.

Definition raise {A} (e : exn) : M A := λ w, (Raise e, w).
Definition lift {A} (r : result A) : M A := λ w, (r, w).
Definition gets {A} (f : world → A) : M A := λ w, (Ok (f w), w).
Definition modify (f : world → world) : M () := λ w, (Ok (), f w).

Definition log (ev : event) : M () :=
  modify (λ w, World (X_data w) (y_data w) (entities w) (dirs w) (texts w)
                     (ann_files w) (trace w ++ [ev])).
Definition set_X_data (X : list sequence) : M () :=
  modify (λ w, World (Some X) (y_data w) (entities w) (dirs w) (texts w)
                     (ann_files w) (trace w)).
Definition set_y_data (y : list (list label)) : M () :=
  modify (λ w, World (X_data w) (Some y) (entities w) (dirs w) (texts w)
                     (ann_files w) (trace w)).
Definition set_entities (tagset : list label) : M () :=
  modify (λ w, World (X_data w) (y_data w) (Some tagset) (dirs w) (texts w)
                     (ann_files w) (trace w)).
(** [os.makedirs(directory)]: the empty path is refused, a directory that
    is there is not made again; otherwise every directory on the way is
    made, and the last [mkdir] may still find its directory in place. *)
Definition makedirs (directory : string) : M () :=
  if String.eqb directory "" then raise FileNotFoundError
  else
    on_disk ← gets dirs;
    if isdir on_disk directory then raise FileExistsError
    else
      log (EvMakedirs directory);;
      modify (λ w, World (X_data w) (y_data w) (entities w)
                         (dirs w ∪ list_to_set (directories_of directory))
                         (texts w) (ann_files w) (trace w));;
      if mkdir_fails on_disk directory then raise FileExistsError else mret ().
Definition to_ann (a : annotations) (write_location : string) : M () :=
  log (EvToAnn write_location);;
  modify (λ w, World (X_data w) (y_data w) (entities w) (dirs w) (texts w)
                     (<[write_location := a]> (ann_files w)) (trace w)).
Definition os_path_isdir (directory : string) : M bool :=
  gets (λ w, isdir (dirs w) directory).
(** [open(path, 'r').read()] *)
Definition read_text (path : string) : M string :=
  t ← gets (λ w, texts w !! path);
  match t with Some s => mret s | None => raise IOError end.

(** [for x in l: s = body(s, x)] *)
Fixpoint foldM {A S} (body : S → A → M S) (s : S) (l : list A) : M S :=
  match l with
  | [] => mret s
  | x :: l' => s' ← body s x; foldM body s' l'
  end.

(** *** External collaborators *)
(** [_extract_features]: the pipeline and its feature extractor. *)
Variable extract_features :
  data_file → bool → result (list sequence * list (list label)).
(** [SequenceStratifiedKFold(folds)(X, y)]: the folds as index lists. *)
Variable cv : Z → list sequence → list (list label) → result (list (list Z * list Z)).
(** [learner.fit], giving the fitted learner, and [learner.predict]. *)
Variable learner_fit : list (list feature) → list (list label) → result learner.
Variable learner_predict : learner → list (list feature) → result (list (list label)).
(** [metrics.flat_*_score(y_test, y_pred, average='weighted', labels=...)] *)
Variable flat_score :
  metric → list (list label) → list (list label) → list label → result Q.
(** The conversion to a float in [statistics.mean]. *)
Variable rnd : Q → Q.

(** *** [preprocess] (lines 42-73) *)
Definition append_extracted (_ : ()) (data_file : data_file) (metamapped : bool) : M () :=
  '(features, labels) ← lift (extract_features data_file metamapped);
  X ← gets X_data; y ← gets y_data;
  match X, y with
  | Some X, Some y => set_X_data (X ++ features);; set_y_data (y ++ labels)
  | _, _ => raise TypeError
  end.

Definition preprocess (dataset : option dataset) (asynchronous : bool) : M () :=
  set_X_data [];; set_y_data [];;
  match dataset with
  | None => raise TypeError (* iterating over None *)
  | Some ds =>
      if asynchronous then
        (* every file is handed to the pool, then the results are
           collected in the order of the files *)
        foldM (λ _ f, log (EvExtract f (is_metamapped ds))) () (data_files ds);;
        foldM (λ u f, append_extracted u f (is_metamapped ds)) () (data_files ds)
      else
        foldM (λ u f, log (EvExtract f (is_metamapped ds));;
                      append_extracted u f (is_metamapped ds)) () (data_files ds)
  end.

(** *** The body of the loop over the folds (lines 207-301) *)

(** [document_indices], [span_indices] and the flattened labels. *)
Definition document_indices (X_test : list sequence) : list string :=
  concat (map (λ sequence : sequence, replicate (length sequence.1.1) sequence.2) X_test).
Definition span_indices (X_test : list sequence) : list span :=
  concat (map (λ sequence : sequence, sequence.1.2) X_test).
Definition flat_labels (y : list (list label)) : list label := concat y.

Definition score (m : metric) (y_test y_pred : list (list label))
    (labels : list label) : M Q :=
  log (EvMetric m y_test y_pred labels);;
  lift (flat_score m y_test y_pred labels).

(** The dictionary literal with its three metric calls, in source order. *)
Definition fold_scores (y_test y_pred : list (list label)) (labels : list label)
  : M scores :=
  r ← score Recall y_test y_pred labels;
  p ← score Precision y_test y_pred labels;
  f ← score F1 y_test y_pred labels;
  mret (Scores r p f).

(** What the loop carries from fold to fold; [evaluation_statistics]
    holds the folds in order (fold 1 first). *)
Record cv_state := CvState {
  evaluation_statistics : list (gmap string scores);
  groundtruth_by_document : gmap string (list tagged_span);
  preds_by_document : gmap string (list tagged_span) }.

Definition evaluate_fold (X_data : list sequence) (Y_data : list (list label))
    (tagset : list label) (prediction_directory groundtruth_directory : pyval)
    (st : cv_state) (fold : list Z * list Z) : M cv_state :=
  let '(train_indices, test_indices) := fold in
  log EvGetLearner;;
  X_train ← lift (mapM (getitem_Z X_data) train_indices);
  y_train ← lift (mapM (getitem_Z Y_data) train_indices);
  X_test ← lift (mapM (getitem_Z X_data) test_indices);
  y_test ← lift (mapM (getitem_Z Y_data) test_indices);
  let train_data := map (λ x : sequence, x.1.1) X_train in
  let test_data := map (λ x : sequence, x.1.1) X_test in
  log (EvFit train_data y_train);;
  fitted ← lift (learner_fit train_data y_train);
  log (EvPredict test_data);;
  y_pred ← lift (learner_predict fitted test_data);
  groundtruth_by_document' ←
    (if negb (is_none groundtruth_directory) then
       lift (Spans.reconstruct_spans (flat_labels y_test) (span_indices X_test)
               (document_indices X_test) (groundtruth_by_document st))
     else mret (groundtruth_by_document st));
  preds_by_document' ←
    (if negb (is_none prediction_directory) then
       lift (Spans.reconstruct_spans (flat_labels y_pred) (span_indices X_test)
               (document_indices X_test) (preds_by_document st))
     else mret (preds_by_document st));
  fold_statistics ←
    foldM (λ fold_statistics label,
             s ← fold_scores y_test y_pred [label];
             mret (<[label := s]> fold_statistics)) ∅ tagset;
  system ← fold_scores y_test y_pred tagset;
  let fold_statistics := <["system" := system]> fold_statistics in
  mret (CvState (evaluation_statistics st ++ [fold_statistics])
                groundtruth_by_document' preds_by_document').

(** *** [create_annotation_directory] (lines 350-359) *)
Definition create_annotation_directory (directory : pyval)
    (training_dataset : dataset) (option : string) : M string :=
  let directory :=
    match isinstance_str directory with
    | Some d => d
    | None => (data_directory training_dataset ++ "/" ++ option ++ "/")%string
    end in
  isdir ← os_path_isdir directory;
  (if isdir : bool then log (EvWarning ("Overwriting existing " ++ option)%string)
   else makedirs directory);;
  mret directory.

(** *** [predict_annotation_evaluation] (lines 361-374) *)
Definition predict_annotation_evaluation (directory : string)
    (training_dataset : dataset)
    (preds_by_document groundtruth_by_document : gmap string (list tagged_span))
    (option : string) : M annotations :=
  last_written ←
    foldM (λ _ data_file,
             doc ← read_text (raw_path data_file);
             preds ← lift (match (if String.eqb option "groundtruth"
                                  then groundtruth_by_document
                                  else preds_by_document) !! file_name data_file with
                           | Some preds => Ok preds
                           | None => Raise KeyError
                           end);
             let annotations := Annotations doc preds in
             to_ann annotations
               (os_path_join directory (file_name data_file ++ ".ann")%string);;
             mret (Some annotations))
          None (data_files training_dataset);
  match last_written with
  | Some annotations => mret annotations
  | None => raise UnboundLocalError
  end.

(** *** [cross_validate] (lines 153-348) *)

(** The block under [if prediction_directory:] (lines 328-348): both
    variables are bound anew, and everything is written under the new
    values. *)
Definition write_annotations (training_dataset : dataset) (st : cv_state)
  : M (option string) :=
  let prediction_directory := os_path_join (data_directory training_dataset) "predictions" in
  let groundtruth_directory := os_path_join (data_directory training_dataset) "groundtruth" in
  create_annotation_directory (PStr prediction_directory) training_dataset "predictions";;
  create_annotation_directory (PStr groundtruth_directory) training_dataset "groundtruth";;
  predict_annotation_evaluation groundtruth_directory training_dataset
    (preds_by_document st) (groundtruth_by_document st) "groundtruth";;
  predict_annotation_evaluation prediction_directory training_dataset
    (preds_by_document st) (groundtruth_by_document st) "predictions";;
  mret (Some prediction_directory).

(** The method returns the [data_directory] of the [Dataset] it returns, or
    [None]. *)
Definition cross_validate (num_folds : Z) (training_dataset : option dataset)
    (prediction_directory groundtruth_directory : pyval) (asynchronous : bool)
  : M (option string) :=
  if bool_decide (num_folds ≤ 1) then
    raise (ValueError "Number of folds for cross validation must be greater than 1")
  else if negb (is_none prediction_directory) && bool_decide (training_dataset = None) then
    raise (ValueError "Cannot generate predictions during cross validation if training dataset is not given. Please pass the training dataset in the 'training_dataset' parameter.")
  else if negb (is_none groundtruth_directory) && bool_decide (training_dataset = None) then
    raise (ValueError "Cannot generate groundtruth during cross validation if training dataset is not given. Please pass the training dataset in the 'training_dataset' parameter.")
  else
    preprocess training_dataset asynchronous;;
    X ← gets X_data; Y ← gets y_data;
    match X, Y with
    | Some X_data, Some Y_data =>
        let tagset := compute_tagset Y_data in
        set_entities tagset;;
        let filenames : gset string := list_to_set (map (λ x : sequence, x.2) X_data) in
        let groundtruth_by_document0 := gset_to_gmap [] filenames in
        let preds_by_document0 := gset_to_gmap [] filenames in
        log (EvSplit num_folds X_data Y_data);;
        folds ← lift (cv num_folds X_data Y_data);
        st ← foldM (evaluate_fold X_data Y_data tagset
                      prediction_directory groundtruth_directory)
                   (CvState [] groundtruth_by_document0 preds_by_document0) folds;
        statistics_all_folds ←
          lift (aggregate_statistics rnd tagset (evaluation_statistics st));
        if truthy prediction_directory then
          match training_dataset with
          | None => raise AttributeError
          | Some ds => write_annotations ds st
          end
        else mret None
    | _, _ =>
        raise (AssertionError "Must have features and labels extracted for cross validation")
    end.

(** *** Reading the record of calls *)

(** The paths written by [to_ann] and the directories made by
    [os.makedirs] among some events. *)
Definition written (evs : list event) : list string :=
  omap (λ ev, match ev with EvToAnn p => Some p | _ => None end) evs.
Definition made (evs : list event) : list string :=
  evs ≫= λ ev, match ev with EvMakedirs d => directories_of d | _ => [] end.

(** [w'] comes after [w]: the record of calls has grown by events that
    satisfy [P], the raw texts are the same, the directories are those of
    [w] and those made, the annotation files not written are the same, and
    those written exist. With [keep_labels] the attributes [X_data] and
    [y_data] are the
    same too. *)
Definition extends (P : event → Prop) (keep_labels : bool) (w w' : world) : Prop :=
  ∃ evs, trace w' = trace w ++ evs ∧ Forall P evs
    ∧ (keep_labels = true → X_data w' = X_data w ∧ y_data w' = y_data w)
    ∧ texts w' = texts w
    ∧ dirs w' = dirs w ∪ list_to_set (made evs)
    ∧ (∀ p, p ∉ written evs → ann_files w' !! p = ann_files w !! p)
    ∧ (∀ p, p ∈ written evs → is_Some (ann_files w' !! p)).

(** Every run of [m] ends in a world related to the one it started in. *)
Definition steps {A} (R : relation world) (m : M A) : Prop :=
  ∀ w r w', m w = (r, w') → R w w'.

(** Every run of [m] that returns ends in a world with [Q], and returns a
    value with [Q]. *)
Definition ensures {A} (Q : world → Prop) (m : M A) : Prop :=
  ∀ w a w', m w = (Ok a, w') → Q w'.
Definition returns {A} (Q : A → Prop) (m : M A) : Prop :=
  ∀ w a w', m w = (Ok a, w') → Q a.

(** A property of the world that later steps cannot undo. *)
Definition stable (Q : world → Prop) : Prop :=
  ∀ w w', Q w → extends (λ _, True) false w w' → Q w'.

(** The labels that were extracted: the attribute [y_data], or no labels
    when it was never set. *)
Definition extracted_labels (w : world) : list (list label) := default [] (y_data w).

(** The events of one fold: the learner calls, and metric calls whose
    labels are one label of the tag set or the whole tag set. *)
Definition fold_event (tagset : list label) (ev : event) : Prop :=
  match ev with
  | EvGetLearner | EvFit _ _ | EvPredict _ => True
  | EvMetric _ _ _ labels => labels = tagset ∨ ∃ l, l ∈ tagset ∧ labels = [l]
  | _ => False
  end.

(** The paths of the annotation files of a data set under the two fixed
    directories. *)
Definition annotation_paths (ds : dataset) (option : string) : list string :=
  map (λ f, os_path_join (os_path_join (data_directory ds) option)
              (file_name f ++ ".ann")%string) (data_files ds).

(** The events of the block that writes the annotations. *)
Definition write_event (ds : dataset) (ev : event) : Prop :=
  match ev with
  | EvWarning _ => True
  | EvMakedirs d =>
      d = os_path_join (data_directory ds) "predictions"
      ∨ d = os_path_join (data_directory ds) "groundtruth"
  | EvToAnn p => p ∈ annotation_paths ds "predictions" ++ annotation_paths ds "groundtruth"
  | _ => False
  end.

(** The events of a whole call of [cross_validate]. *)
Definition cv_event (training_dataset : option dataset) (tagset : list label)
    (ev : event) : Prop :=
  match ev with
  | EvExtract _ _ | EvSplit _ _ _ => True
  | _ => fold_event tagset ev
         ∨ match training_dataset with Some ds => write_event ds ev | None => False end
  end.

End CrossValidation.
End CV.
Import CV.

(** ** A small data set to run the model on *)

Module Demo.

Definition doc_a : data_file := DataFile "a" "a.txt".
Definition doc_b : data_file := DataFile "b" "b.txt".
Definition corpus : dataset := Dataset "data" [doc_a; doc_b] false.

(** One sequence of two tokens from [a], two sequences from [b]. *)
Definition extract_features (f : data_file) (_ : bool)
  : result (list (@sequence nat) * list (list label)) :=
  if String.eqb (file_name f) "a"
  then Ok ([([1; 2]%nat, [(0, 4); (5, 9)], "a")], [["O"; "Drug"]])
  else Ok ([([3; 4]%nat, [(100, 104); (105, 109)], "b"); ([5]%nat, [(110, 112)], "b")],
           [["Drug"; "O"]; ["Dose"]]).

(** Two folds: the first tests on sequences 0 and 1, the second on 2. *)
Definition cv (_ : Z) (_ : list (@sequence nat)) (_ : list (list label))
  : result (list (list Z * list Z)) :=
  Ok [([2], [0; 1]); ([0; 1], [2])].

Definition learner_fit (_ : list (list nat)) (_ : list (list label)) : result () := Ok ().
(** A learner that tags every token as ["Drug"]. *)
Definition learner_predict (_ : ()) (test_data : list (list nat))
  : result (list (list label)) :=
  Ok (map (map (λ _, "Drug")) test_data).

Definition flat_score (m : metric) (_ _ : list (list label)) (labels : list label)
  : result Q :=
  Ok (match m with Recall => 1 # 2 | Precision => 1 # 4 | F1 => 1 # 3 end)%Q.

Definition rnd (q : Q) : Q := q.

(** The statistics of two folds, for one label and the system row. *)
Definition two_folds : list (gmap string scores) :=
  [ {[ "Drug" := Scores (1 # 2) (1 # 4) (1 # 3); "system" := Scores (1 # 2) (1 # 4) (1 # 3) ]};
    {[ "Drug" := Scores 1 (3 # 4) (2 # 3); "system" := Scores 1 (1 # 2) (2 # 3) ]} ].

(** A data set without any file. *)
Definition empty_corpus : dataset := Dataset "data" [] false.

(** The disk at the start: the data directory, and the two raw texts. *)
Definition world0 : @world nat :=
  World None None None {[ "data" ]}
    {[ "a.txt" := "text of a"; "b.txt" := "text of b" ]} ∅ [].

Definition run (num_folds : Z) (training_dataset : option dataset)
    (prediction_directory groundtruth_directory : pyval) (asynchronous : bool) :=
  cross_validate extract_features cv learner_fit learner_predict flat_score rnd
    num_folds training_dataset prediction_directory groundtruth_directory asynchronous
    world0.

End Demo.

(** ** [EmbeddingComponent._lookup_embedding] *)

Module Embedding.

Record token := Token { text : string }.

Section Lookup.
(** [np.linalg.norm] and [bytes(n)] are numpy's and Python's. *)
Variable norm : list Q → Q.
Variable to_bytes : Q → list Byte.byte.

(** [word_vector / norm], element by element. A division by zero is made
    visible as an exception of its own, which no [except] clause of the
    method catches. *)
Definition divide (word_vector : list Q) (n : Q) : result (list Q) :=
  if Qeq_bool n 0 then Raise ZeroDivisionError
  else Ok (map (λ x, x / n)%Q word_vector).

(** The body of the [try]. [self.model[token.text]] raises [KeyError] for a
    word that the embedding model does not have. *)
Definition lookup_body (model : gmap string (list Q)) (token : token)
  : result (list (list Byte.byte)) :=
  word_vector ← match model !! text token with
                | Some v => Ok v
                | None => Raise KeyError
                end;
  let n := norm word_vector in
  if Qeq_bool n 0 then Ok (map to_bytes word_vector)
  else v ← divide word_vector n; Ok (map to_bytes v).

(** [try: ... except KeyError: return []] *)
Definition _lookup_embedding (model : gmap string (list Q)) (token : token)
  : result (list (list Byte.byte)) :=
  match lookup_body model token with
  | Raise KeyError => Ok []
  | r => r
  end.
End Lookup.

End Embedding.

(** ** [Model.fit] and [Model.predict] (model.py, lines 75-151) *)

Module Lifecycle.

(** What is passed as [dataset]: a [Dataset], a string, or anything else
    ([None] included). *)
Inductive pyarg : Type := ADataset (ds : dataset) | AStr (s : string) | AOther.

Section Methods.
Context {feature learner : Type}.

(** An instance of [Model]: the attribute [self.model], and the attributes
    and surroundings that [world] holds. *)
Record instance := Instance { model : option learner; state : @world feature }.

Variable extract_features :
  data_file → bool → result (list (@sequence feature) * list (list label)).
Variable learner_fit : list (list feature) → list (list label) → result learner.
(** [predict_document(model, doc, medacy_pipeline)] on the document made
    from a text: of a data file, or of the string passed to [predict]
    (whose [file_name] is ["STRING_INPUT"]). *)
Variable predict_document : learner → option data_file → string → result annotations.

(** [fit] between its type checks and the assignment to [self.model]
    (lines 89-100). The learner is asked for before the data is checked;
    [assert self.X_data] fails for the empty list as for [None]. After
    [preprocess] the labels are a list. *)
Definition fit_body (ds : dataset) (asynchronous : bool) : @M feature learner :=
  preprocess extract_features (Some ds) asynchronous;;
  log EvGetLearner;;
  X ← gets X_data;
  match X with
  | Some (x :: X') =>
      let train_data := map (λ x : sequence, x.1.1) (x :: X') in
      y ← gets y_data;
      match y with
      | Some y_data =>
          log (EvFit train_data y_data);;
          lift (learner_fit train_data y_data)
      | None => raise TypeError
      end
  | _ => raise (AssertionError "Training data is empty.")
  end.

(** [fit]: [self.pipeline] is a [BasePipeline] since [__init__], so the
    second type check passes. [self.model] is assigned only when the
    learner has been fitted. *)
Definition fit (dataset : pyarg) (asynchronous : bool) (self : instance)
  : result learner * instance :=
  match dataset with
  | ADataset ds =>
      match fit_body ds asynchronous (state self) with
      | (Ok fitted, w) => (Ok fitted, Instance (Some fitted) w)
      | (Raise e, w) => (Raise e, Instance (model self) w)
      end
  | _ => (Raise TypeError, self)
  end.

(** The branch of [predict] for a [Dataset] (lines 123-143). *)
Definition predict_dataset (fitted : learner) (ds : dataset)
    (prediction_directory groundtruth_directory : pyval) : @M feature annotations :=
  prediction_directory ←
    create_annotation_directory prediction_directory ds "predictions";
  groundtruth_directory ←
    create_annotation_directory groundtruth_directory ds "groundtruth";
  last_written ←
    foldM (λ _ data_file,
             text ← read_text (raw_path data_file);
             annotations ← lift (predict_document fitted (Some data_file) text);
             to_ann annotations
               (os_path_join prediction_directory (file_name data_file ++ ".ann")%string);;
             mret (Some annotations))
          None (data_files ds);
  match last_written with
  | Some annotations => mret annotations
  | None => raise UnboundLocalError
  end.

(** [predict]: the type check, the check of [self.model], then the branch
    for a [Dataset] or for a string. *)
Definition predict (dataset : pyarg) (prediction_directory groundtruth_directory : pyval)
    (self : instance) : result annotations * instance :=
  match dataset with
  | AOther => (Raise TypeError, self)
  | _ =>
      match model self with
      | None => (Raise (ValueError "Must fit or load a pickled model before predicting"), self)
      | Some fitted =>
          match dataset with
          | ADataset ds =>
              let '(r, w) := predict_dataset fitted ds prediction_directory
                               groundtruth_directory (state self) in
              (r, Instance (model self) w)
          | AStr text => (predict_document fitted None text, self)
          | AOther => (Raise TypeError, self)
          end
      end
  end.

End Methods.
End Lifecycle.

(** ** More small data, for [fit], [predict] and the failures *)

Module Sample.

(** An extractor that cannot read the file [b]. *)
Definition failing_extract (f : data_file) (b : bool)
  : result (list (@sequence nat) * list (list label)) :=
  if String.eqb (file_name f) "b" then Raise IOError else Demo.extract_features f b.

(** An extractor that finds no sequence in any file. *)
Definition empty_extract (_ : data_file) (_ : bool)
  : result (list (@sequence nat) * list (list label)) :=
  Ok ([], []).

(** A splitter that returns no fold. *)
Definition no_folds (_ : Z) (_ : list (@sequence nat)) (_ : list (list label))
  : result (list (list Z * list Z)) :=
  Ok [].

(** [predict_document] that finds one entity at the start of every text. *)
Definition predict_document (_ : ()) (_ : option data_file) (text : string)
  : result annotations :=
  Ok (Annotations text [("Drug", 0, 4)]).

(** A model that has been fitted, and one that has not. *)
Definition fitted_model : @Lifecycle.instance nat () :=
  Lifecycle.Instance (Some ()) Demo.world0.
Definition new_model : @Lifecycle.instance nat () :=
  Lifecycle.Instance None Demo.world0.

(** What [preprocess] extracts from the small data set. *)
Definition sequences : list (@sequence nat) :=
  [([1; 2]%nat, [(0, 4); (5, 9)], "a");
   ([3; 4]%nat, [(100, 104); (105, 109)], "b"); ([5]%nat, [(110, 112)], "b")].
Definition labels : list (list label) := [["O"; "Drug"]; ["Drug"; "O"]; ["Dose"]].

(** The dictionaries after the folds of the small data set. *)
Definition after_folds : cv_state :=
  CvState [] {[ "a" := [("Drug", 5, 104)]; "b" := [] ]}
             {[ "a" := [("Drug", 0, 9)]; "b" := [("Drug", 100, 109)] ]}.

End Sample.

(** * Properties *)

(** ** Python runtime *)

Lemma list_snoc_inv {A} (l : list A) : l = [] ∨ ∃ l' x, l = l' ++ [x].
Proof. destruct l as [|x l' _] using rev_ind; eauto. Qed.

Lemma getitem_Some {A} (l : list A) i a : l !! i = Some a → getitem l i = Ok a.
Proof. unfold getitem. by intros ->. Qed.

Lemma getitem_Ok {A} (l : list A) i a : getitem l i = Ok a → l !! i = Some a.
Proof. unfold getitem. destruct (l !! i); naive_solver. Qed.


(** ** Span reconstruction *)

Lemma span_loop_eq labels spans docs i by_document :
  span_loop labels spans docs i by_document =
  if decide (i < length labels)%nat then
    match span_step labels spans docs i by_document with
    | Ok (j, by_document') => span_loop labels spans docs j by_document'
    | Raise e => Raise e
    end
  else Ok by_document.
Proof.
  rewrite span_loop_equation_1.
  destruct (decide _); [|reflexivity]. simpl.
  by destruct (span_step labels spans docs i by_document) as [[??]|?].
Qed.

Lemma tokens_lookup labels spans docs k t :
  tokens labels spans docs !! k = Some t ↔
  labels !! k = Some (tok_label t) ∧ spans !! k = Some (tok_span t)
  ∧ docs !! k = Some (tok_doc t).
Proof.
  unfold tokens. rewrite lookup_zip_with_Some. split.
  - intros (l & [sp d] & -> & Hl & Hsd). apply lookup_zip_with_Some in Hsd.
    destruct Hsd as (? & ? & [= <- <-] & ? & ?). done.
  - intros (Hl & Hs & Hd). exists (tok_label t), (tok_span t, tok_doc t).
    split; [by destruct t|]. split; [done|].
    apply lookup_zip_with_Some. eauto.
Qed.

Lemma tokens_length labels spans docs :
  length spans = length labels → length docs = length labels →
  length (tokens labels spans docs) = length labels.
Proof.
  intros Hs Hd. unfold tokens. rewrite length_zip_with, length_zip. lia.
Qed.

(** The inner loop stops exactly at the end of the run it starts in. *)
Lemma extend_run_run labels e k : ∀ i,
  (∀ m, (m ≤ k)%nat → labels !! (i + m)%nat = Some e) →
  labels !! (i + k + 1)%nat ≠ Some e →
  extend_run labels e i = (i + k)%nat.
Proof.
  induction k as [|k IH]; intros i Hrun Hstop; rewrite extend_run_eq.
  - rewrite Nat.add_0_r in Hstop. case_decide as Hc; [by destruct Hc|lia].
  - case_decide as Hc.
    + rewrite IH; [lia| |].
      * intros m Hm. replace (i + 1 + m)%nat with (i + S m)%nat by lia.
        apply Hrun. lia.
      * by replace (i + 1 + k + 1)%nat with (i + S k + 1)%nat by lia.
    + exfalso. apply Hc. pose proof (Hrun 1%nat ltac:(lia)) as H1.
      split; [|done]. apply lookup_lt_Some in H1. lia.
Qed.

(** Tokens labelled ["O"] are stepped over one at a time and leave the
    dictionary as it is. *)
Lemma span_loop_skip_O labels spans docs by_document k : ∀ i,
  (∀ m, (m < k)%nat → labels !! (i + m)%nat = Some "O") →
  span_loop labels spans docs i by_document
  = span_loop labels spans docs (i + k) by_document.
Proof.
  induction k as [|k IH]; intros i Hrun.
  - by rewrite Nat.add_0_r.
  - rewrite span_loop_eq. pose proof (Hrun 0%nat ltac:(lia)) as H0.
    rewrite Nat.add_0_r in H0. pose proof (lookup_lt_Some _ _ _ H0) as Hlt.
    case_decide as Hc; [|lia]. unfold span_step. rewrite (getitem_Some _ _ _ H0). simpl.
    rewrite IH.
    + f_equal. lia.
    + intros m Hm. replace (i + 1 + m)%nat with (i + S m)%nat by lia.
      apply Hrun. lia.
Qed.

Lemma spans_of_cons d e ems :
  spans_of d (e :: ems) = if decide (e.1 = d) then e.2 :: spans_of d ems else spans_of d ems.
Proof. unfold spans_of. rewrite filter_cons. by case_decide. Qed.

Lemma spans_of_app d ems1 ems2 :
  spans_of d (ems1 ++ ems2) = spans_of d ems1 ++ spans_of d ems2.
Proof. unfold spans_of. by rewrite filter_app, fmap_app. Qed.

Lemma emitted_cons g groups :
  emitted (g :: groups)
  = match emit g with Some y => y :: emitted groups | None => emitted groups end.
Proof. reflexivity. Qed.

Lemma emit_O t g' : tok_label t = "O" → emit (t :: g') = None.
Proof.
  intros HO. unfold emit. simpl. destruct (last (t :: g')); [|done].
  by rewrite decide_True.
Qed.

Lemma emit_entity t g' b :
  tok_label t ≠ "O" → last (t :: g') = Some b →
  emit (t :: g') = Some (tok_doc t, (tok_label t, (tok_span t).1, (tok_span b).2)).
Proof. intros HO Hb. unfold emit. rewrite Hb. simpl. by rewrite decide_False. Qed.

Lemma tokens_at labels spans docs pre g rest m u :
  tokens labels spans docs = pre ++ g ++ rest → g !! m = Some u →
  labels !! (length pre + m)%nat = Some (tok_label u)
  ∧ spans !! (length pre + m)%nat = Some (tok_span u)
  ∧ docs !! (length pre + m)%nat = Some (tok_doc u).
Proof.
  intros Htok Hm. apply tokens_lookup. rewrite Htok.
  rewrite lookup_app_r by lia. replace (length pre + m - length pre)%nat with m by lia.
  by apply lookup_app_l_Some.
Qed.

Lemma is_run_label t g' m u :
  Forall (λ u, tok_label u = tok_label t) g' → (t :: g') !! m = Some u →
  tok_label u = tok_label t.
Proof.
  intros Hall Hm. destruct m as [|m]; simpl in Hm; [by simplify_eq|].
  rewrite Forall_lookup in Hall. eauto.
Qed.

(** The loop, started at the beginning of a block of maximal runs, appends
    to each document the tuples these runs emit for it, in order. *)
Lemma span_loop_groups labels spans docs groups : ∀ pre by_document,
  tokens labels spans docs = pre ++ concat groups →
  length spans = length labels → length docs = length labels →
  Forall is_run groups → neighbours_differ groups →
  (∀ d, d ∈ docs → is_Some (by_document !! d)) →
  ∃ out, span_loop labels spans docs (length pre) by_document = Ok out ∧
    ∀ d, out !! d = (λ l, l ++ spans_of d (emitted groups)) <$> by_document !! d.
Proof.
  induction groups as [|g groups IH]; intros pre bd Htok Hs Hd Hruns Hnb Hdocs.
  - simpl in Htok. rewrite app_nil_r in Htok.
    pose proof (tokens_length labels spans docs Hs Hd) as Hlen. rewrite Htok in Hlen.
    rewrite span_loop_eq. case_decide as Hc; [lia|].
    exists bd. split; [done|]. intros d. unfold emitted, spans_of. simpl.
    destruct (bd !! d); simpl; [|done]. by rewrite app_nil_r.
  - apply Forall_cons in Hruns as [(t & g' & -> & Hall) Hruns].
    simpl in Htok.
    assert (Hnb' : neighbours_differ groups).
    { intros k g1 g2 H1 H2. by apply (Hnb (S k) g1 g2). }
    assert (Hat : ∀ m u, (t :: g') !! m = Some u →
              labels !! (length pre + m)%nat = Some (tok_label t)
              ∧ spans !! (length pre + m)%nat = Some (tok_span u)
              ∧ docs !! (length pre + m)%nat = Some (tok_doc u)).
    { intros m u Hm. rewrite <- (is_run_label t g' m u Hall Hm).
      exact (tokens_at labels spans docs pre (t :: g') (concat groups) m u Htok Hm). }
    destruct (IH (pre ++ t :: g') bd) as (out0 & Hout0 & Hd0); try done.
    { by rewrite <- app_assoc. }
    destruct (decide (tok_label t = "O")) as [HO|HO].
    + (* a run of "O": nothing is emitted *)
      exists out0. split.
      * rewrite (span_loop_skip_O _ _ _ _ (length (t :: g'))).
        { by rewrite <- length_app. }
        intros m Hm. destruct (lookup_lt_is_Some_2 (t :: g') m Hm) as [u Hu].
        destruct (Hat m u Hu) as [Hl _]. by rewrite Hl, HO.
      * intros d. by rewrite Hd0, emitted_cons, emit_O.
    + (* a run of an entity label: one tuple is emitted *)
      clear out0 Hout0 Hd0.
      destruct (Hat 0%nat t eq_refl) as (Hl0 & Hs0 & Hd0).
      rewrite Nat.add_0_r in Hl0, Hs0, Hd0.
      assert (is_Some (last (t :: g'))) as [b Hb].
      { rewrite last_lookup. apply lookup_lt_is_Some_2. simpl. lia. }
      pose proof Hb as Hb'. rewrite last_lookup in Hb'. simpl in Hb'.
      destruct (Hat _ _ Hb') as (_ & Hsb & _).
      assert (Hext : extend_run labels (tok_label t) (length pre)
                     = (length pre + length g')%nat).
      { apply extend_run_run.
        - intros m Hm.
          destruct (lookup_lt_is_Some_2 (t :: g') m ltac:(simpl; lia)) as [u Hu].
          by destruct (Hat m u Hu).
        - destruct groups as [|g2 groups'].
          + simpl in Htok. rewrite app_nil_r in Htok.
            pose proof (tokens_length labels spans docs Hs Hd) as Hlen.
            rewrite Htok, length_app in Hlen. simpl in Hlen.
            rewrite lookup_ge_None_2; [done|lia].
          + apply Forall_cons in Hruns as [(t2 & g2' & -> & Hall2) _].
            pose proof (Hnb 0%nat _ _ eq_refl eq_refl) as Hne. simpl in Hne.
            destruct (tokens_at labels spans docs (pre ++ t :: g') (t2 :: g2')
                        (concat groups') 0 t2) as (Hl2 & _); [|done|].
            { rewrite Htok. simpl. by rewrite <- app_assoc. }
            rewrite length_app in Hl2. simpl in Hl2.
            replace (length pre + length g' + 1)%nat
              with (length pre + S (length g') + 0)%nat by lia.
            rewrite Hl2. intros [= Heq]. apply Hne. unfold run_label. simpl.
            by rewrite Heq. }
      destruct (Hdocs (tok_doc t)) as [l Hl].
      { apply list_elem_of_lookup. eauto. }
      set (ts := (tok_label t, (tok_span t).1, (tok_span b).2)).
      destruct (IH (pre ++ t :: g') (<[tok_doc t := l ++ [ts]]> bd))
        as (out & Hout & Hdout); try done.
      { by rewrite <- app_assoc. }
      { intros d Hin. rewrite lookup_insert. case_decide; [done|]. by apply Hdocs. }
      exists out. split.
      * rewrite span_loop_eq. pose proof (lookup_lt_Some _ _ _ Hl0) as Hlt.
        case_decide as Hc; [|lia]. unfold span_step.
        rewrite (getitem_Some _ _ _ Hl0). simpl. rewrite decide_False by done.
        rewrite (getitem_Some _ _ _ Hd0). simpl.
        rewrite (getitem_Some _ _ _ Hs0). simpl.
        destruct (tok_span t) as [s0 e0] eqn:Hsp. simpl.
        rewrite Hext. rewrite (getitem_Some _ _ _ Hsb). simpl.
        destruct (tok_span b) as [sb eb] eqn:Hspb. simpl.
        unfold dict_append. rewrite Hl. simpl.
        rewrite length_app in Hout. simpl in Hout.
        replace (length pre + length g' + 1)%nat
          with (length pre + S (length g'))%nat by lia.
        subst ts. simpl in Hout. done.
      * intros d. rewrite Hdout, emitted_cons, (emit_entity t g' b) by done.
        rewrite spans_of_cons. simpl. rewrite lookup_insert.
        case_decide as Hdd.
        -- subst d. rewrite Hl. simpl. by rewrite <- app_assoc.
        -- done.
Qed.

(** Every token stream has a decomposition into maximal runs. *)
Lemma group_runs_is_run toks : Forall is_run (group_runs toks).
Proof.
  induction toks as [|t toks IH]; simpl; [constructor|].
  destruct (group_runs toks) as [|[|u g] groups].
  - repeat constructor. by exists t, [].
  - repeat constructor. by exists t, [].
  - apply Forall_cons in IH as [(u' & g'' & [= <- <-] & Hall) IH].
    case_decide as Hc.
    + constructor; [|done]. exists t, (u :: g). split; [done|].
      constructor; [done|]. eapply Forall_impl; [exact Hall|].
      simpl. intros ? ->. done.
    + constructor; [by exists t, []|]. constructor; [|done]. by exists u, g.
Qed.

Lemma group_runs_concat toks : concat (group_runs toks) = toks.
Proof.
  induction toks as [|t toks IH]; simpl; [done|].
  pose proof (group_runs_is_run toks) as Hruns.
  destruct (group_runs toks) as [|[|u g] groups].
  - by rewrite <- IH.
  - apply Forall_cons in Hruns as [(? & ? & [=] & _) _].
  - case_decide; simpl; by rewrite <- IH.
Qed.

Lemma group_runs_neighbours toks : neighbours_differ (group_runs toks).
Proof.
  induction toks as [|t toks IH]; simpl; [by intros ? ? ? [=]|].
  destruct (group_runs toks) as [|[|u g] groups].
  - intros [|k] ? ? ?; by intros [=].
  - intros [|k] ? ? ?; by intros [=].
  - case_decide as Hc.
    + intros [|k] g1 g2 H1 H2.
      * simpl in H1. injection H1 as <-.
        pose proof (IH 0%nat (u :: g) g2 eq_refl H2) as Hne.
        unfold run_label in *. simpl in *. by rewrite Hc.
      * by apply (IH (S k) g1 g2).
    + intros [|k] g1 g2 H1 H2.
      * simpl in H1, H2. injection H1 as <-. injection H2 as <-.
        unfold run_label. simpl. by intros [=].
      * by apply (IH k g1 g2).
Qed.

Lemma group_runs_maximal toks : maximal_runs toks (group_runs toks).
Proof.
  split; [apply group_runs_concat|].
  split; [apply group_runs_is_run|apply group_runs_neighbours].
Qed.

(** The whole reconstruction, for any decomposition into maximal runs. *)
Lemma reconstruct_spans_runs (labels : list label) (spans : list span)
    (docs : list string) (by_document : gmap string (list tagged_span))
    (groups : list (list token)) :
  length spans = length labels → length docs = length labels →
  Forall (λ d, is_Some (by_document !! d)) docs →
  maximal_runs (tokens labels spans docs) groups →
  ∃ out, reconstruct_spans labels spans docs by_document = Ok out ∧
    ∀ d, out !! d = (λ l, l ++ spans_of d (emitted groups)) <$> by_document !! d.
Proof.
  intros Hs Hd Hdocs (Hcat & Hruns & Hnb).
  apply (span_loop_groups labels spans docs groups [] by_document); try done.
  intros d Hin. rewrite Forall_forall in Hdocs. by apply Hdocs.
Qed.

(** C1. Span reconstruction emits one tuple per maximal run of a label
    other than ["O"] and nothing for ["O"] tokens: for parallel lists of
    equal length whose documents are keys of the dictionary, and any
    decomposition of the token stream into maximal runs, the loop returns
    and has appended to every document exactly the tuples its runs emit
    (label of the run, start of its first token, end of its last token),
    in order; runs of different labels are different runs. The example of
    the specification yields the single tuple [("B-Drug", 2, 13)]. *)
Theorem reconstruct_spans_maximal_runs :
  (∀ (labels : list label) (spans : list span) (docs : list string)
     (by_document : gmap string (list tagged_span)) (groups : list (list token)),
    length spans = length labels → length docs = length labels →
    Forall (λ d, is_Some (by_document !! d)) docs →
    maximal_runs (tokens labels spans docs) groups →
    ∃ out, reconstruct_spans labels spans docs by_document = Ok out ∧
      ∀ d, out !! d = (λ l, l ++ spans_of d (emitted groups)) <$> by_document !! d)
  ∧ reconstruct_spans ["O"; "B-Drug"; "B-Drug"; "O"]
      [(0, 1); (2, 7); (8, 13); (14, 15)]
      ["doc"; "doc"; "doc"; "doc"] {[ "doc" := [] ]}
    = Ok {[ "doc" := [("B-Drug", 2, 13)] ]}.
Proof.
  split; [|by vm_compute].
  intros labels spans docs bd groups. apply reconstruct_spans_runs.
Qed.

Lemma reconstruct_spans_maximal_runs_witness :
  ∃ out, reconstruct_spans ["O"; "B-Drug"; "B-Drug"; "O"]
           [(0, 1); (2, 7); (8, 13); (14, 15)]
           ["doc"; "doc"; "doc"; "doc"] {[ "doc" := [] ]} = Ok out
    ∧ ∀ d, out !! d
           = (λ l, l ++ spans_of d
                (emitted [[Token "O" (0, 1) "doc"];
                          [Token "B-Drug" (2, 7) "doc"; Token "B-Drug" (8, 13) "doc"];
                          [Token "O" (14, 15) "doc"]]))
             <$> ({[ "doc" := [] ]} : gmap string (list tagged_span)) !! d.
Proof.
  apply (proj1 reconstruct_spans_maximal_runs); [reflexivity|reflexivity| |].
  - repeat constructor; by eexists.
  - apply (group_runs_maximal
             (tokens ["O"; "B-Drug"; "B-Drug"; "O"] [(0, 1); (2, 7); (8, 13); (14, 15)]
                ["doc"; "doc"; "doc"; "doc"])).
Defined.

(** C4. A label list that ends in a label other than ["O"] still gets the
    tuple of its trailing run: the loop returns, and the list of the
    document of the run's first token ends with the tuple made of the
    run's label, the start of its first token and the end of the very last
    token. The run reaches back from the last index to [k], the first
    index of the maximal run. *)
Theorem reconstruct_spans_trailing_run (labels : list label) (spans : list span)
    (docs : list string) (by_document : gmap string (list tagged_span))
    (e : label) (s_last e_last : Z) :
  length spans = length labels → length docs = length labels →
  Forall (λ d, is_Some (by_document !! d)) docs →
  last labels = Some e → e ≠ "O" → last spans = Some (s_last, e_last) →
  ∃ out k d start stop prev,
    reconstruct_spans labels spans docs by_document = Ok out
    ∧ (k < length labels)%nat
    ∧ (∀ m, (k ≤ m < length labels)%nat → labels !! m = Some e)
    ∧ (k = 0%nat ∨ labels !! (k - 1)%nat ≠ Some e)
    ∧ docs !! k = Some d ∧ spans !! k = Some (start, stop)
    ∧ out !! d = Some (prev ++ [(e, start, e_last)]).
Proof.
  intros Hs Hd Hdocs Hlast He Hslast.
  pose proof (group_runs_maximal (tokens labels spans docs)) as Hmax.
  destruct (reconstruct_spans_runs labels spans docs by_document _
              Hs Hd Hdocs Hmax) as (out & Hout & Hdout).
  destruct Hmax as (Hcat & Hruns & Hnb).
  pose proof (tokens_length labels spans docs Hs Hd) as Hlen.
  assert (Hpos : (0 < length labels)%nat).
  { destruct labels; [done|simpl; lia]. }
  destruct (list_snoc_inv (group_runs (tokens labels spans docs)))
    as [Hgr|(init & g & Hgr)]; rewrite Hgr in *; clear Hgr.
  { simpl in Hcat. rewrite <- Hcat in Hlen. simpl in Hlen. lia. }
  apply Forall_app in Hruns as [Hinit Hg].
  apply Forall_cons in Hg as [(t & g' & -> & Hall) _].
  rewrite concat_app in Hcat. simpl in Hcat. rewrite app_nil_r in Hcat.
  set (k := length (concat init)).
  assert (Hat : ∀ m u, (t :: g') !! m = Some u →
            labels !! (k + m)%nat = Some (tok_label t)
            ∧ spans !! (k + m)%nat = Some (tok_span u)
            ∧ docs !! (k + m)%nat = Some (tok_doc u)).
  { intros m u Hm. rewrite <- (is_run_label t g' m u Hall Hm).
    apply (tokens_at labels spans docs (concat init) (t :: g') [] m u); [|done].
    by rewrite app_nil_r. }
  assert (Hk : (k + S (length g') = length labels)%nat).
  { rewrite <- Hlen, <- Hcat, length_app. done. }
  assert (is_Some (last (t :: g'))) as [b Hb].
  { rewrite last_lookup. apply lookup_lt_is_Some_2. simpl. lia. }
  pose proof Hb as Hb'. rewrite last_lookup in Hb'. simpl in Hb'.
  destruct (Hat _ _ Hb') as (Hlb & Hsb & _).
  rewrite last_lookup in Hlast. rewrite last_lookup in Hslast.
  replace (pred (length labels)) with (k + length g')%nat in Hlast by lia.
  replace (pred (length spans)) with (k + length g')%nat in Hslast by lia.
  assert (tok_label t = e) as Hte by congruence.
  assert (tok_span b = (s_last, e_last)) as Hspb by congruence.
  destruct (Hat 0%nat t eq_refl) as (_ & Hs0 & Hd0).
  rewrite Nat.add_0_r in Hs0, Hd0.
  rewrite Forall_forall in Hdocs.
  destruct (Hdocs (tok_doc t)) as [l Hl].
  { apply list_elem_of_lookup. eauto. }
  exists out, k, (tok_doc t), (tok_span t).1, (tok_span t).2,
    (l ++ spans_of (tok_doc t) (emitted init)).
  split; [done|]. split; [lia|]. split; [|split; [|split; [done|split]]].
  - intros m Hm. replace m with (k + (m - k))%nat by lia.
    destruct (lookup_lt_is_Some_2 (t :: g') (m - k)%nat ltac:(simpl; lia)) as [u Hu].
    destruct (Hat _ _ Hu) as [-> _]. by rewrite Hte.
  - destruct (decide (k = 0%nat)) as [|Hk0]; [by left|right].
    destruct (list_snoc_inv init) as [->|(init' & gp & ->)]; [done|].
    apply Forall_app in Hinit as [_ Hgp].
    apply Forall_cons in Hgp as [(tp & gp' & -> & Hallp) _].
    assert (H1 : ((init' ++ [tp :: gp']) ++ [t :: g']) !! length init'
                 = Some (tp :: gp')).
    { rewrite <- app_assoc. by apply list_lookup_middle. }
    assert (H2 : ((init' ++ [tp :: gp']) ++ [t :: g']) !! S (length init')
                 = Some (t :: g')).
    { replace (S (length init')) with (length (init' ++ [tp :: gp']))
        by (rewrite length_app; simpl; lia).
      by apply list_lookup_middle. }
    pose proof (Hnb _ _ _ H1 H2) as Hne. unfold run_label in Hne. simpl in Hne.
    assert (is_Some (last (tp :: gp'))) as [bp Hbp].
    { rewrite last_lookup. apply lookup_lt_is_Some_2. simpl. lia. }
    rewrite last_lookup in Hbp. simpl in Hbp.
    pose proof (is_run_label tp gp' _ bp Hallp Hbp) as Hlp.
    destruct (tokens_at labels spans docs (concat init') (tp :: gp') (t :: g')
                (length gp') bp) as (Hl' & _); [|done|].
    { rewrite <- Hcat, concat_app. simpl. by rewrite app_nil_r, <- app_assoc. }
    subst k. rewrite concat_app, length_app in *. simpl in *.
    rewrite app_nil_r in *. simpl in *.
    replace (length (concat init') + S (length gp') - 1)%nat
      with (length (concat init') + length gp')%nat by lia.
    rewrite Hl', Hlp. intros [= Heq]. apply Hne. by rewrite Heq, Hte.
  - by destruct (tok_span t).
  - rewrite Hdout, Hl. simpl. unfold emitted. rewrite omap_app. simpl.
    fold (emitted init). rewrite (emit_entity t g' b) by congruence.
    rewrite spans_of_app, spans_of_cons. simpl. rewrite decide_True by done.
    rewrite Hte, Hspb. simpl. by rewrite <- app_assoc.
Qed.

Lemma reconstruct_spans_trailing_run_witness :
  ∃ out k d start stop prev,
    reconstruct_spans ["O"; "Drug"; "Drug"] [(0, 1); (2, 6); (7, 11)] ["a"; "a"; "a"]
      {[ "a" := [] ]} = Ok out
    ∧ (k < length ["O"; "Drug"; "Drug"])%nat
    ∧ (∀ m, (k ≤ m < length ["O"; "Drug"; "Drug"])%nat
            → ["O"; "Drug"; "Drug"] !! m = Some "Drug")
    ∧ (k = 0%nat ∨ ["O"; "Drug"; "Drug"] !! (k - 1)%nat ≠ Some "Drug")
    ∧ ["a"; "a"; "a"] !! k = Some d
    ∧ [(0, 1); (2, 6); (7, 11)] !! k = Some (start, stop)
    ∧ out !! d = Some (prev ++ [("Drug", start, 11)]).
Proof.
  apply (reconstruct_spans_trailing_run ["O"; "Drug"; "Drug"] [(0, 1); (2, 6); (7, 11)]
           ["a"; "a"; "a"] {[ "a" := [] ]} "Drug" 7 11);
    [reflexivity|reflexivity| |reflexivity|discriminate|reflexivity].
  repeat constructor; by eexists.
Defined.

(** C9. The loops compare labels only, never documents: when the last token
    of one document and the first token of the next are neighbours in the
    flattened test stream and carry the same label, one tuple is emitted; it
    is filed under the first document, starts at that document's token and
    ends at the end offset of the second document's token, and the second
    document gets nothing. A cross-validation run writes exactly this to
    the groundtruth file of the first document. *)
Theorem span_merge_crosses_documents :
  ∃ (X_test : list (@sequence nat)) (y_test : list (list label)),
    X_test = [([1; 2]%nat, [(0, 4); (5, 9)], "a");
              ([3; 4]%nat, [(100, 104); (105, 109)], "b")]
    ∧ y_test = [["O"; "Drug"]; ["Drug"; "O"]]
    ∧ document_indices X_test = ["a"; "a"; "b"; "b"]
    ∧ reconstruct_spans (flat_labels y_test) (span_indices X_test)
        (document_indices X_test) {[ "a" := []; "b" := [] ]}
      = Ok {[ "a" := [("Drug", 5, 104)]; "b" := [] ]}
    ∧ ann_files (Demo.run 2 (Some Demo.corpus) (PStr "out") (PStr "gt") false).2
        !! "data/groundtruth/a.ann"
      = Some (Annotations "text of a" [("Drug", 5, 104)]).
Proof.
  eexists _, _. split; [reflexivity|]. split; [reflexivity|].
  split; [reflexivity|]. split; by vm_compute.
Qed.

(** ** [cross_validate]: the guards *)

Section Guards.
Context {feature learner : Type}.
Variable extract_features :
  data_file → bool → result (list (@sequence feature) * list (list label)).
Variable cv :
  Z → list (@sequence feature) → list (list label) → result (list (list Z * list Z)).
Variable learner_fit : list (list feature) → list (list label) → result learner.
Variable learner_predict : learner → list (list feature) → result (list (list label)).
Variable flat_score :
  metric → list (list label) → list (list label) → list label → result Q.
Variable rnd : Q → Q.

(** C2. With [training_dataset = None] and a prediction or groundtruth
    directory that is not [None], [cross_validate] raises a [ValueError] and
    leaves the world as it found it: the attributes of the model, the disk
    and the record of calls are the same, so neither preprocessing nor any
    fold has begun. *)
Theorem cross_validate_without_training_dataset (num_folds : Z)
    (prediction_directory groundtruth_directory : pyval) (asynchronous : bool)
    (w : @world feature) :
  is_none prediction_directory = false ∨ is_none groundtruth_directory = false →
  ∃ msg,
    cross_validate extract_features cv learner_fit learner_predict flat_score rnd
      num_folds None prediction_directory groundtruth_directory asynchronous w
    = (Raise (ValueError msg), w).
Proof.
  intros Hreq. unfold cross_validate.
  case_bool_decide; [by eexists|].
  destruct (is_none prediction_directory) eqn:Hp; simpl; [|by eexists].
  destruct (is_none groundtruth_directory) eqn:Hg; simpl; [|by eexists].
  by destruct Hreq.
Qed.

End Guards.

Lemma cross_validate_without_training_dataset_witness :
  ∃ msg, Demo.run 5 None (PStr "out") PNone false = (Raise (ValueError msg), Demo.world0).
Proof.
  apply (cross_validate_without_training_dataset Demo.extract_features Demo.cv
           Demo.learner_fit Demo.learner_predict Demo.flat_score Demo.rnd
           5 (PStr "out") PNone false Demo.world0).
  left. reflexivity.
Defined.

(** ** Embedding lookup *)

Section EmbeddingFacts.
Variable norm : list Q → Q.
Variable to_bytes : Q → list Byte.byte.

(** C10. [_lookup_embedding] always returns: a token whose text the
    embedding model does not have gives the empty list (the [KeyError]
    branch); a vector of norm 0 is returned as it is; and the division is
    only made by a norm other than 0, so it never divides by zero. *)
Theorem lookup_embedding_total (model : gmap string (list Q)) (token : Embedding.token) :
  (∃ l, Embedding._lookup_embedding norm to_bytes model token = Ok l)
  ∧ (model !! Embedding.text token = None →
     Embedding._lookup_embedding norm to_bytes model token = Ok [])
  ∧ (∀ v, model !! Embedding.text token = Some v → Qeq_bool (norm v) 0 = true →
     Embedding._lookup_embedding norm to_bytes model token = Ok (map to_bytes v))
  ∧ (∀ v, model !! Embedding.text token = Some v → Qeq_bool (norm v) 0 = false →
     Embedding.divide v (norm v) = Ok (map (λ x, x / norm v)%Q v)
     ∧ Embedding._lookup_embedding norm to_bytes model token
       = Ok (map to_bytes (map (λ x, x / norm v)%Q v))).
Proof.
  unfold Embedding._lookup_embedding, Embedding.lookup_body, Embedding.divide.
  destruct (model !! Embedding.text token) as [v|] eqn:Hv; simpl.
  - destruct (Qeq_bool (norm v) 0) eqn:Hn; simpl.
    + split; [by eexists|]. split; [done|].
      split; intros v' [= <-] Hn'; rewrite ?Hn; simpl; [done|congruence].
    + split; [by eexists|]. split; [done|].
      split; intros v' [= <-] Hn'; rewrite ?Hn; simpl; [congruence|done].
  - split; [by eexists|]. split; [done|]. split; by intros v' [=].
Qed.

End EmbeddingFacts.

Lemma lookup_embedding_total_witness :
  (∃ l, Embedding._lookup_embedding (λ _, 0%Q) (λ _, []) {[ "aspirin" := [1%Q; 2%Q] ]}
          (Embedding.Token "ibuprofen") = Ok l)
  ∧ Embedding._lookup_embedding (λ _, 0%Q) (λ _, []) {[ "aspirin" := [1%Q; 2%Q] ]}
      (Embedding.Token "ibuprofen") = Ok [].
Proof.
  pose proof (lookup_embedding_total (λ _, 0%Q) (λ _, []) {[ "aspirin" := [1%Q; 2%Q] ]}
                (Embedding.Token "ibuprofen")) as (Htotal & Habsent & _).
  split; [exact Htotal|]. apply Habsent. reflexivity.
Defined.

(** ** The tag set *)

Lemma str_le_trans s1 s2 s3 : str_le s1 s2 → str_le s2 s3 → str_le s1 s3.
Proof.
  unfold str_le, String.leb. revert s2 s3.
  induction s1 as [|c1 s1 IH]; intros [|c2 s2] [|c3 s3]; simpl; try done.
  unfold Ascii.compare.
  destruct (N.compare_spec (N_of_ascii c1) (N_of_ascii c2)) as [E12|L12|G12];
    destruct (N.compare_spec (N_of_ascii c2) (N_of_ascii c3)) as [E23|L23|G23];
    destruct (N.compare_spec (N_of_ascii c1) (N_of_ascii c3)) as [E13|L13|G13];
    try done; try lia.
  apply IH.
Qed.

#[local] Instance str_le_transitive : Transitive str_le.
Proof. intros s1 s2 s3. apply str_le_trans. Qed.

#[local] Instance str_le_total : Total str_le.
Proof. intros s1 s2. apply String.leb_total. Qed.

Lemma str_le_lt s1 s2 : str_le s1 s2 → s1 ≠ s2 → str_lt s1 s2.
Proof.
  unfold str_le, str_lt, String.leb, String.ltb. intros Hle Hne.
  destruct (String.compare s1 s2) eqn:Hc; try done.
  by apply String.compare_eq_iff in Hc.
Qed.

Lemma collect_tags_inner (tags : list label) (x : string) : ∀ acc : gset string,
  x ∈ foldl (λ acc tag, if bool_decide (tag ≠ "O" ∧ tag ≠ "") then acc ∪ {[ tag ]} else acc)
        acc tags
  ↔ x ∈ acc ∨ (x ∈ tags ∧ x ≠ "O" ∧ x ≠ "").
Proof.
  induction tags as [|tag tags IH]; intros acc; simpl.
  - set_solver.
  - rewrite IH. case_bool_decide; set_solver.
Qed.

Lemma collect_tags_outer (Y : list (list label)) (x : string) : ∀ acc : gset string,
  x ∈ foldl (λ acc tags,
               foldl (λ acc tag,
                        if bool_decide (tag ≠ "O" ∧ tag ≠ "") then acc ∪ {[ tag ]} else acc)
                     acc tags) acc Y
  ↔ x ∈ acc ∨ ((∃ tags, tags ∈ Y ∧ x ∈ tags) ∧ x ≠ "O" ∧ x ≠ "").
Proof.
  induction Y as [|tags Y IH]; intros acc; simpl.
  - set_solver.
  - rewrite IH, collect_tags_inner. set_solver.
Qed.

Lemma compute_tagset_elem (Y : list (list label)) (x : string) :
  x ∈ compute_tagset Y ↔ (∃ tags, tags ∈ Y ∧ x ∈ tags) ∧ x ≠ "O" ∧ x ≠ "".
Proof.
  unfold compute_tagset. rewrite merge_sort_Permutation, elem_of_elements.
  unfold collect_tags. rewrite collect_tags_outer. set_solver.
Qed.

Lemma compute_tagset_sorted (Y : list (list label)) :
  StronglySorted str_lt (compute_tagset Y).
Proof.
  assert (Hnd : NoDup (compute_tagset Y)).
  { unfold compute_tagset. rewrite merge_sort_Permutation. apply NoDup_elements. }
  assert (Hs : StronglySorted str_le (compute_tagset Y)).
  { apply StronglySorted_merge_sort; apply _. }
  induction Hs as [|a l Hs IH Hall]; [constructor|].
  apply NoDup_cons in Hnd as [Ha Hnd]. constructor; [by apply IH|].
  rewrite Forall_forall in Hall |- *. intros y Hy.
  apply str_le_lt; [by apply Hall|]. by intros ->.
Qed.

(** ** Aggregation over folds *)

Lemma Qltb_true (x y : Q) : Qltb x y = true → (x < y)%Q.
Proof.
  unfold Qltb. intros H. apply negb_true_iff in H. apply Qnot_le_lt.
  intros Hle. apply Qle_bool_iff in Hle. congruence.
Qed.

Lemma Qltb_false (x y : Q) : Qltb x y = false → (y <= x)%Q.
Proof.
  unfold Qltb. intros H. apply negb_false_iff in H. by apply Qle_bool_iff.
Qed.

Lemma foldl_max_spec (xs : list Q) : ∀ best,
  let m := foldl (λ best y, if Qltb best y then y else best) best xs in
  (m = best ∨ m ∈ xs) ∧ (best <= m)%Q ∧ Forall (λ x, x <= m)%Q xs.
Proof.
  induction xs as [|y xs IH]; intros best; simpl.
  - split; [by left|]. split; [apply Qle_refl|constructor].
  - destruct (Qltb best y) eqn:Hlt.
    + apply Qltb_true in Hlt. destruct (IH y) as ([->|Hin] & Hle & Hall).
      * split; [right; left|]. split; [lra|]. constructor; [lra|done].
      * split; [right; by right|]. split; [lra|]. constructor; [lra|done].
    + apply Qltb_false in Hlt. destruct (IH best) as ([->|Hin] & Hle & Hall).
      * split; [by left|]. split; [lra|]. constructor; [lra|done].
      * split; [right; by right|]. split; [lra|]. constructor; [lra|done].
Qed.

Lemma foldl_min_spec (xs : list Q) : ∀ best,
  let m := foldl (λ best y, if Qltb y best then y else best) best xs in
  (m = best ∨ m ∈ xs) ∧ (m <= best)%Q ∧ Forall (λ x, m <= x)%Q xs.
Proof.
  induction xs as [|y xs IH]; intros best; simpl.
  - split; [by left|]. split; [apply Qle_refl|constructor].
  - destruct (Qltb y best) eqn:Hlt.
    + apply Qltb_true in Hlt. destruct (IH y) as ([->|Hin] & Hle & Hall).
      * split; [right; left|]. split; [lra|]. constructor; [lra|done].
      * split; [right; by right|]. split; [lra|]. constructor; [lra|done].
    + apply Qltb_false in Hlt. destruct (IH best) as ([->|Hin] & Hle & Hall).
      * split; [by left|]. split; [lra|]. constructor; [lra|done].
      * split; [right; by right|]. split; [lra|]. constructor; [lra|done].
Qed.

Lemma py_max_spec (xs : list Q) (m : Q) :
  py_max xs = Ok m → m ∈ xs ∧ Forall (λ x, x <= m)%Q xs.
Proof.
  destruct xs as [|x xs]; simpl; [done|]. intros [= <-].
  destruct (foldl_max_spec xs x) as ([->|Hin] & Hle & Hall).
  - split; [left|by constructor].
  - split; [by right|by constructor].
Qed.

Lemma py_min_spec (xs : list Q) (m : Q) :
  py_min xs = Ok m → m ∈ xs ∧ Forall (λ x, m <= x)%Q xs.
Proof.
  destruct xs as [|x xs]; simpl; [done|]. intros [= <-].
  destruct (foldl_min_spec xs x) as ([->|Hin] & Hle & Hall).
  - split; [left|by constructor].
  - split; [by right|by constructor].
Qed.

Lemma inject_length_succ {A} (x : A) (xs : list A) :
  (inject_Z (Z.of_nat (length (x :: xs))) == inject_Z (Z.of_nat (length xs)) + 1)%Q.
Proof.
  simpl length. rewrite Nat2Z.inj_succ. unfold Z.succ. by rewrite inject_Z_plus.
Qed.

Lemma Qsum_lower (lo : Q) (xs : list Q) :
  Forall (λ x, lo <= x)%Q xs → (lo * inject_Z (Z.of_nat (length xs)) <= Qsum xs)%Q.
Proof.
  induction 1 as [|x xs Hx Hall IH].
  - change (inject_Z (Z.of_nat (length (@nil Q)))) with 0%Q.
    change (Qsum []) with 0%Q. lra.
  - rewrite inject_length_succ. change (Qsum (x :: xs)) with (x + Qsum xs)%Q.
    set (n := inject_Z (Z.of_nat (length xs))) in *. set (S := Qsum xs) in *. nra.
Qed.

Lemma Qsum_upper (hi : Q) (xs : list Q) :
  Forall (λ x, x <= hi)%Q xs → (Qsum xs <= hi * inject_Z (Z.of_nat (length xs)))%Q.
Proof.
  induction 1 as [|x xs Hx Hall IH].
  - change (inject_Z (Z.of_nat (length (@nil Q)))) with 0%Q.
    change (Qsum []) with 0%Q. lra.
  - rewrite inject_length_succ. change (Qsum (x :: xs)) with (x + Qsum xs)%Q.
    set (n := inject_Z (Z.of_nat (length xs))) in *. set (S := Qsum xs) in *. nra.
Qed.

Section MeanFacts.
Variable rnd : Q → Q.
Hypothesis rnd_monotone : ∀ x y, (x <= y)%Q → (rnd x <= rnd y)%Q.

Lemma mean_between (lo hi : Q) (xs : list Q) (a : Q) :
  Forall (λ x, lo <= x)%Q xs → Forall (λ x, x <= hi)%Q xs →
  mean rnd xs = Ok a → (rnd lo <= a <= rnd hi)%Q.
Proof.
  intros Hlo Hhi. unfold mean. destruct xs as [|x xs]; [done|]. intros [= <-].
  assert (Hn : (0 < inject_Z (Z.of_nat (length (x :: xs))))%Q).
  { rewrite inject_length_succ.
    assert (0 <= inject_Z (Z.of_nat (length xs)))%Q; [|lra].
    change 0%Q with (inject_Z 0). rewrite <- Zle_Qle. lia. }
  split; apply rnd_monotone.
  - apply Qle_shift_div_l; [exact Hn|]. exact (Qsum_lower lo (x :: xs) Hlo).
  - apply Qle_shift_div_r; [exact Hn|]. exact (Qsum_upper hi (x :: xs) Hhi).
Qed.

Lemma stat_bounds (xs : list Q) (lo a hi : Q) :
  (∀ x, x ∈ xs → rnd x == x)%Q →
  py_min xs = Ok lo → mean rnd xs = Ok a → py_max xs = Ok hi →
  (lo <= a <= hi)%Q.
Proof.
  intros Hrep Hmin Hmean Hmax.
  apply py_min_spec in Hmin as [Hlo_in Hlo]. apply py_max_spec in Hmax as [Hhi_in Hhi].
  pose proof (mean_between lo hi xs a Hlo Hhi Hmean) as [H1 H2].
  rewrite (Hrep lo Hlo_in) in H1. rewrite (Hrep hi Hhi_in) in H2. done.
Qed.

Lemma column_elem (key : scores → Q) (es : list (gmap string scores)) (label : string) :
  ∀ xs, column key es label = Ok xs →
  ∀ x, x ∈ xs → ∃ fs s, fs ∈ es ∧ fs !! label = Some s ∧ x = key s.
Proof.
  unfold column. induction es as [|fs es IH]; simpl; intros xs Hxs x Hx.
  - injection Hxs as <-. by apply elem_of_nil in Hx.
  - destruct (fs !! label) as [s|] eqn:Hs; simpl in Hxs; [|done].
    destruct (mapM _ es) as [ys|] eqn:Hys; simpl in Hxs; [|done].
    injection Hxs as <-. apply elem_of_cons in Hx as [->|Hx].
    + exists fs, s. split; [left|done].
    + destruct (IH ys eq_refl x Hx) as (fs' & s' & Hin & Hl & ->).
      exists fs', s'. split; [by right|done].
Qed.

Lemma aggregate_label_bounds (es : list (gmap string scores)) (label : string)
    (a : aggregate) :
  (∀ fs s, fs ∈ es → fs !! label = Some s →
           rnd (f1 s) == f1 s ∧ rnd (precision s) == precision s)%Q →
  aggregate_label rnd es label = Ok a →
  (f1_min a <= f1_average a <= f1_max a)%Q
  ∧ (precision_min a <= precision_average a <= precision_max a)%Q.
Proof.
  intros Hrep. unfold aggregate_label.
  destruct (column precision es label) as [ps|] eqn:Hps; simpl; [|done].
  destruct (mean rnd ps) as [pa|] eqn:Hpa; simpl; [|done].
  destruct (py_max ps) as [pM|] eqn:HpM; simpl; [|done].
  destruct (py_min ps) as [pm|] eqn:Hpm; simpl; [|done].
  destruct (column recall es label) as [rs|] eqn:Hrs; simpl; [|done].
  destruct (mean rnd rs) as [ra|] eqn:Hra; simpl; [|done].
  destruct (py_max rs) as [rM|] eqn:HrM; simpl; [|done].
  destruct (column f1 es label) as [fs|] eqn:Hfs; simpl; [|done].
  destruct (mean rnd fs) as [fa|] eqn:Hfa; simpl; [|done].
  destruct (py_max fs) as [fM|] eqn:HfM; simpl; [|done].
  destruct (py_min fs) as [fm|] eqn:Hfm; simpl; [|done].
  intros [= <-]. simpl. split.
  - apply (stat_bounds fs); try done. intros x Hx.
    destruct (column_elem f1 es label fs Hfs x Hx) as (fs' & s & Hin & Hl & ->).
    by destruct (Hrep fs' s Hin Hl).
  - apply (stat_bounds ps); try done. intros x Hx.
    destruct (column_elem precision es label ps Hps x Hx) as (fs' & s & Hin & Hl & ->).
    by destruct (Hrep fs' s Hin Hl).
Qed.

Lemma aggregate_labels_spec (es : list (gmap string scores)) (labels : list label) :
  ∀ acc stats, aggregate_labels rnd es labels acc = Ok stats →
  ∀ label, label ∈ labels →
    ∃ a, aggregate_label rnd es label = Ok a ∧ stats !! label = Some a.
Proof.
  assert (Hkeep : ∀ labels acc stats label a,
            aggregate_labels rnd es labels acc = Ok stats →
            aggregate_label rnd es label = Ok a → acc !! label = Some a →
            stats !! label = Some a).
  { clear labels. induction labels as [|l labels IH]; simpl; intros acc stats label a Hs Ha Hacc.
    - by injection Hs as <-.
    - destruct (aggregate_label rnd es l) as [b|] eqn:Hb; simpl in Hs; [|done].
      apply (IH _ _ label a Hs Ha). rewrite lookup_insert. case_decide; [|done].
      subst l. congruence. }
  induction labels as [|l labels IH]; simpl; intros acc stats Hs label Hin.
  - by apply elem_of_nil in Hin.
  - destruct (aggregate_label rnd es l) as [b|] eqn:Hb; simpl in Hs; [|done].
    destruct (decide (label ∈ labels)) as [Hin'|Hnin]; [by eapply IH|].
    apply elem_of_cons in Hin as [->|Hin]; [|done].
    exists b. split; [done|]. apply (Hkeep _ _ _ _ _ Hs Hb). by rewrite lookup_insert_eq.
Qed.

(** C6. For every label of the tag set and for ["system"], the aggregate
    row computed after the folds has [f1_min <= f1_average <= f1_max] and
    [precision_min <= precision_average <= precision_max], the three being
    the minimum, the mean and the maximum of the label's per-fold values.
    The per-fold values are floats (the conversion [rnd] leaves them as they
    are) and the conversion is monotone. *)
Theorem aggregate_statistics_bounds (tagset : list label)
    (es : list (gmap string scores)) (stats : gmap string aggregate) :
  (∀ fs label s, fs ∈ es → fs !! label = Some s →
                 rnd (f1 s) == f1 s ∧ rnd (precision s) == precision s)%Q →
  aggregate_statistics rnd tagset es = Ok stats →
  ∀ label, label ∈ tagset ++ ["system"] →
    ∃ a, stats !! label = Some a
      ∧ aggregate_label rnd es label = Ok a
      ∧ (column f1 es label ≫= py_min = Ok (f1_min a)
         ∧ column f1 es label ≫= mean rnd = Ok (f1_average a)
         ∧ column f1 es label ≫= py_max = Ok (f1_max a))
      ∧ (f1_min a <= f1_average a <= f1_max a)%Q
      ∧ (precision_min a <= precision_average a <= precision_max a)%Q.
Proof.
  intros Hrep Hstats label Hin.
  destruct (aggregate_labels_spec es _ _ _ Hstats label Hin) as (a & Ha & Hl).
  exists a. split; [done|]. split; [done|]. split.
  - revert Ha. unfold aggregate_label.
    destruct (column precision es label) as [ps|]; simpl; [|done].
    destruct (mean rnd ps); simpl; [|done]. destruct (py_max ps); simpl; [|done].
    destruct (py_min ps); simpl; [|done].
    destruct (column recall es label) as [rs|]; simpl; [|done].
    destruct (mean rnd rs); simpl; [|done]. destruct (py_max rs); simpl; [|done].
    destruct (column f1 es label) as [fs|]; simpl; [|done].
    destruct (mean rnd fs); simpl; [|done]. destruct (py_max fs); simpl; [|done].
    destruct (py_min fs); simpl; [|done]. by intros [= <-].
  - apply (aggregate_label_bounds es label a); [|done].
    intros fs s. apply Hrep.
Qed.

End MeanFacts.

Lemma aggregate_statistics_bounds_witness :
  ∃ stats,
    aggregate_statistics Demo.rnd ["Drug"] Demo.two_folds = Ok stats
    ∧ ∀ label, label ∈ ["Drug"] ++ ["system"] →
        ∃ a, stats !! label = Some a
          ∧ aggregate_label Demo.rnd Demo.two_folds label = Ok a
          ∧ (column f1 Demo.two_folds label ≫= py_min = Ok (f1_min a)
             ∧ column f1 Demo.two_folds label ≫= mean Demo.rnd = Ok (f1_average a)
             ∧ column f1 Demo.two_folds label ≫= py_max = Ok (f1_max a))
          ∧ (f1_min a <= f1_average a <= f1_max a)%Q
          ∧ (precision_min a <= precision_average a <= precision_max a)%Q.
Proof.
  eexists. split; [vm_compute; reflexivity|].
  apply (aggregate_statistics_bounds Demo.rnd (λ x y H, H) ["Drug"]).
  - intros fs label s _ _. split; reflexivity.
  - vm_compute. reflexivity.
Defined.

(** ** [cross_validate]: what a run does to the world *)

Section Extends.
Context {feature : Type}.
Implicit Types (w : @world feature) (P : @event feature → Prop).

Lemma extends_refl P k w : extends P k w w.
Proof.
  exists []. rewrite app_nil_r. simpl. repeat split; try done.
  - set_solver.
  - intros p Hp. by apply elem_of_nil in Hp.
Qed.

Lemma written_app (evs1 evs2 : list (@event feature)) :
  written (evs1 ++ evs2) = written evs1 ++ written evs2.
Proof. unfold written. apply omap_app. Qed.

Lemma made_app (evs1 evs2 : list (@event feature)) :
  made (evs1 ++ evs2) = made evs1 ++ made evs2.
Proof. unfold made. apply bind_app. Qed.

Lemma extends_trans P k w1 w2 w3 :
  extends P k w1 w2 → extends P k w2 w3 → extends P k w1 w3.
Proof.
  intros (evs1 & Ht1 & HP1 & Hy1 & Hx1 & Hd1 & Hf1 & Hs1)
         (evs2 & Ht2 & HP2 & Hy2 & Hx2 & Hd2 & Hf2 & Hs2).
  exists (evs1 ++ evs2). split; [by rewrite Ht2, Ht1, app_assoc|].
  split; [by apply Forall_app|].
  split.
  { intros Hk. destruct (Hy1 Hk) as [HX1 HY1]. destruct (Hy2 Hk) as [HX2 HY2].
    split; congruence. }
  split; [congruence|]. split.
  { rewrite Hd2, Hd1, made_app, list_to_set_app_L. set_solver. }
  split.
  - intros p Hp. rewrite written_app, elem_of_app in Hp.
    rewrite Hf2, Hf1; [done| |]; intros ?; apply Hp; auto.
  - intros p Hp. rewrite written_app, elem_of_app in Hp.
    destruct (decide (p ∈ written evs2)) as [Hin|Hnin]; [by apply Hs2|].
    rewrite Hf2 by done. apply Hs1. by destruct Hp.
Qed.

#[global] Instance extends_preorder P k : PreOrder (extends P k).
Proof. split; [intros w; apply extends_refl|intros w1 w2 w3; apply extends_trans]. Qed.

Lemma extends_weaken P P' (k k' : bool) w w' :
  (∀ ev, P ev → P' ev) → (k' = true → k = true) →
  extends P k w w' → extends P' k' w w'.
Proof.
  intros HP Hk (evs & Ht & HPs & Hy & Hrest). exists evs.
  split; [done|]. split; [by eapply Forall_impl|]. split; [auto|done].
Qed.

Lemma steps_weaken {A} P P' (k k' : bool) (m : M A) :
  (∀ ev, P ev → P' ev) → (k' = true → k = true) →
  steps (extends P k) m → steps (extends P' k') m.
Proof. intros HP Hk Hm w r w' Hrun. eapply extends_weaken; eauto. Qed.

(** *** The rules of the monad, for any preorder *)
Section Rules.
Variable R : relation (@world feature).
Context `{!PreOrder R}.

Lemma steps_ret {A} (a : A) : steps R (mret a).
Proof. intros w r w' [= _ <-]. reflexivity. Qed.

Lemma steps_raise {A} (e : exn) : steps R (raise e : M A).
Proof. intros w r w' [= _ <-]. reflexivity. Qed.

Lemma steps_lift {A} (x : result A) : steps R (lift x).
Proof. intros w r w' [= _ <-]. reflexivity. Qed.

Lemma steps_gets {A} (f : world → A) : steps R (gets f).
Proof. intros w r w' [= _ <-]. reflexivity. Qed.

Lemma steps_modify (f : world → world) : (∀ w, R w (f w)) → steps R (modify f).
Proof. intros Hf w r w' [= _ <-]. apply Hf. Qed.

Lemma steps_bind {A B} (m : M A) (k : A → M B) :
  steps R m → (∀ a, steps R (k a)) → steps R (m ≫= k).
Proof.
  intros Hm Hk w r w'. unfold mbind, M_bind.
  destruct (m w) as [[a|e] w1] eqn:Hrun.
  - intros Hrun'. transitivity w1; [by eapply Hm|by eapply Hk].
  - intros [= _ <-]. by eapply Hm.
Qed.

Lemma steps_foldM {A S} (body : S → A → M S) (l : list A) :
  (∀ s a, a ∈ l → steps R (body s a)) → ∀ s, steps R (foldM body s l).
Proof.
  induction l as [|x l IH]; intros Hbody s; simpl.
  - apply steps_ret.
  - apply steps_bind; [apply Hbody; left|].
    intros s'. apply IH. intros s'' a Ha. apply Hbody. by right.
Qed.

Lemma steps_read_text (path : string) : steps R (read_text path).
Proof.
  unfold read_text. apply steps_bind; [apply steps_gets|].
  intros [t|]; [apply steps_ret|apply steps_raise].
Qed.

End Rules.

(** *** The primitive changes, for [extends] *)
Section Primitives.
Variable P : @event feature → Prop.
Variable k : bool.

Lemma steps_log (ev : event) :
  P ev → written [ev] = [] → made [ev] = [] → steps (extends P k) (log ev).
Proof.
  intros HP Hw Hm. apply steps_modify. intros w. exists [ev].
  split; [done|]. split; [by constructor|]. rewrite Hw, Hm. simpl.
  repeat split; try done; [set_solver|]. intros p Hp. by apply elem_of_nil in Hp.
Qed.

Lemma steps_set_entities (tagset : list label) : steps (extends P k) (set_entities tagset).
Proof. apply steps_modify. intros w. apply (extends_refl P k w). Qed.

Lemma steps_makedirs (d : string) : P (EvMakedirs d) → steps (extends P k) (makedirs d).
Proof.
  intros HP w r w'. unfold makedirs.
  destruct (String.eqb d ""); [intros [= _ <-]; apply extends_refl|].
  unfold log, modify, gets, raise, mbind, M_bind. simpl.
  destruct (isdir (dirs w) d); [intros [= _ <-]; apply extends_refl|].
  intros Hrun.
  assert (w' = World (X_data w) (y_data w) (entities w)
                     (dirs w ∪ list_to_set (directories_of d))
                     (texts w) (ann_files w) (trace w ++ [EvMakedirs d])) as ->.
  { by destruct (mkdir_fails (dirs w) d); injection Hrun as _ <-. }
  exists [EvMakedirs d]. unfold made. simpl. rewrite app_nil_r.
  split; [done|]. split; [by constructor|].
  repeat split; try done. intros p Hp. by apply elem_of_nil in Hp.
Qed.

Lemma steps_to_ann (a : annotations) (p : string) :
  P (EvToAnn p) → steps (extends P k) (to_ann a p).
Proof.
  intros HP w r w'. unfold to_ann, log, modify, mbind, M_bind. simpl.
  intros [= _ <-]. exists [EvToAnn p]. simpl.
  split; [done|]. split; [by constructor|].
  repeat split; try done; [set_solver| |].
  - intros q Hq. rewrite lookup_insert_ne; [done|]. intros ->. apply Hq. left.
  - intros q Hq. apply list_elem_of_singleton in Hq as ->. rewrite lookup_insert_eq. eauto.
Qed.

End Primitives.

Lemma steps_set_X_data P (X : list (@sequence feature)) :
  steps (extends P false) (set_X_data X).
Proof.
  apply steps_modify. intros w. exists []. rewrite app_nil_r. simpl.
  repeat split; try done; [set_solver|]. intros p Hp. by apply elem_of_nil in Hp.
Qed.

Lemma steps_set_y_data P (y : list (list label)) :
  steps (extends P false) (set_y_data (feature := feature) y).
Proof.
  apply steps_modify. intros w. exists []. rewrite app_nil_r. simpl.
  repeat split; try done; [set_solver|]. intros p Hp. by apply elem_of_nil in Hp.
Qed.

End Extends.


(** *** Runs that return *)
Section Success.
Context {feature : Type}.
Implicit Types (w : @world feature).

Lemma ensures_raise {A} (Q : @world feature → Prop) (e : exn) : ensures Q (raise e : M A).
Proof. by intros w a w'. Qed.

Lemma ensures_bind_r {A B} (Q : @world feature → Prop) (m : M A) (k : A → M B) :
  (∀ a, ensures Q (k a)) → ensures Q (m ≫= k).
Proof.
  intros Hk w b w'. unfold mbind, M_bind. destruct (m w) as [[a|e] w1]; [|done].
  apply Hk.
Qed.

Lemma ensures_bind_l {A B} (Q : @world feature → Prop) (m : M A) (k : A → M B) :
  stable Q → ensures Q m → (∀ a, steps (extends (λ _, True) false) (k a)) →
  ensures Q (m ≫= k).
Proof.
  intros HQ Hm Hk w b w'. unfold mbind, M_bind.
  destruct (m w) as [[a|e] w1] eqn:Hrun; [|done].
  intros Hrun'. apply (HQ w1); [by eapply Hm|by eapply Hk].
Qed.

Lemma returns_raise {A} (Q : A → Prop) (e : exn) : returns Q (raise e : @M feature A).
Proof. by intros w a w'. Qed.

Lemma returns_ret {A} (Q : A → Prop) (a : A) : Q a → returns Q (mret a : @M feature A).
Proof. intros HQ w b w' [= <- _]. done. Qed.

Lemma returns_bind {A B} (Q : B → Prop) (m : @M feature A) (k : A → M B) :
  (∀ a, returns Q (k a)) → returns Q (m ≫= k).
Proof.
  intros Hk w b w'. unfold mbind, M_bind. destruct (m w) as [[a|e] w1]; [|done].
  apply Hk.
Qed.

Lemma ensures_foldM {A S} (Q : @world feature → Prop) (body : S → A → M S)
    (l : list A) (x : A) :
  stable Q → x ∈ l → (∀ s, ensures Q (body s x)) →
  (∀ s a, steps (extends (λ _, True) false) (body s a)) →
  ∀ s, ensures Q (foldM body s l).
Proof.
  intros HQ Hx Hbody Hsteps. induction l as [|a l IH]; intros s; simpl.
  - by apply elem_of_nil in Hx.
  - apply elem_of_cons in Hx as [<-|Hx].
    + apply ensures_bind_l; [done|apply Hbody|].
      intros s'. apply steps_foldM; [apply _|]. intros s'' a _. apply Hsteps.
    + apply ensures_bind_r. intros s'. by apply IH.
Qed.

Lemma isdir_spec (on_disk : gset string) (path : string) :
  isdir on_disk path = true ↔
  path ≠ "" ∧ ∀ d, d ∈ directories_of path → d ∈ on_disk.
Proof.
  unfold isdir. rewrite andb_true_iff, negb_true_iff, String.eqb_neq.
  rewrite forallb_forall. setoid_rewrite bool_decide_eq_true.
  setoid_rewrite <- list_elem_of_In. done.
Qed.

Lemma isdir_mono (on_disk on_disk' : gset string) (path : string) :
  on_disk ⊆ on_disk' → isdir on_disk path = true → isdir on_disk' path = true.
Proof. rewrite !isdir_spec. intros Hsub [Hne Hall]. split; [done|]. set_solver. Qed.

Lemma isdir_made (on_disk : gset string) (path : string) :
  path ≠ "" → isdir (on_disk ∪ list_to_set (directories_of path)) path = true.
Proof. rewrite isdir_spec. intros Hne. split; [done|]. set_solver. Qed.

Lemma stable_dir (d : string) : stable (λ w, isdir (dirs w) d = true).
Proof.
  intros w w' Hd (evs & _ & _ & _ & _ & -> & _).
  revert Hd. apply isdir_mono. set_solver.
Qed.

(** A call of [os.makedirs] that returns: the path was not empty and no
    directory yet, every directory on the way is there afterwards, and
    nothing else changed. *)
Lemma makedirs_returns (d : string) (w w' : @world feature) :
  makedirs d w = (Ok (), w') →
  d ≠ "" ∧ isdir (dirs w) d = false ∧ mkdir_fails (dirs w) d = false
  ∧ w' = World (X_data w) (y_data w) (entities w)
               (dirs w ∪ list_to_set (directories_of d))
               (texts w) (ann_files w) (trace w ++ [EvMakedirs d]).
Proof.
  unfold makedirs. destruct (String.eqb d "") eqn:Hd; [done|].
  apply String.eqb_neq in Hd.
  unfold log, modify, gets, raise, mbind, M_bind. simpl.
  destruct (isdir (dirs w) d); [done|].
  destruct (mkdir_fails (dirs w) d); [done|]. by intros [= <-].
Qed.

Lemma makedirs_run (d : string) (w : @world feature) :
  d ≠ "" → isdir (dirs w) d = false → mkdir_fails (dirs w) d = false →
  makedirs d w
  = (Ok (), World (X_data w) (y_data w) (entities w)
                  (dirs w ∪ list_to_set (directories_of d))
                  (texts w) (ann_files w) (trace w ++ [EvMakedirs d])).
Proof.
  intros Hd Hdir Hmk. unfold makedirs. apply String.eqb_neq in Hd. rewrite Hd.
  unfold log, modify, gets, raise, mbind, M_bind. simpl. by rewrite Hdir, Hmk.
Qed.

(** The directory [create_annotation_directory] works on. *)
Definition annotation_directory (directory : pyval) (ds : dataset) (option : string)
  : string :=
  match isinstance_str directory with
  | Some d => d
  | None => (data_directory ds ++ "/" ++ option ++ "/")%string
  end.

(** What a call of [create_annotation_directory] that returns has done:
    the directory was there and a warning is logged, or it was made. *)
Lemma create_annotation_directory_returns (directory : pyval) (ds : dataset)
    (option : string) (w w' : @world feature) (r : string) :
  create_annotation_directory directory ds option w = (Ok r, w') →
  let d := annotation_directory directory ds option in
  r = d ∧ d ≠ "" ∧ isdir (dirs w') d = true
  ∧ (isdir (dirs w) d = true
     ∧ w' = World (X_data w) (y_data w) (entities w) (dirs w) (texts w) (ann_files w)
                  (trace w ++ [EvWarning ("Overwriting existing " ++ option)%string])
     ∨ isdir (dirs w) d = false ∧ mkdir_fails (dirs w) d = false
       ∧ w' = World (X_data w) (y_data w) (entities w)
                    (dirs w ∪ list_to_set (directories_of d))
                    (texts w) (ann_files w) (trace w ++ [EvMakedirs d])).
Proof.
  unfold create_annotation_directory, annotation_directory, os_path_isdir.
  set (d := match isinstance_str directory with Some d => d | None => _ end).
  unfold mbind at 1, M_bind at 1, gets at 1.
  destruct (isdir (dirs w) d) eqn:Hdir.
  - unfold log, modify, mbind, M_bind, mret, M_ret. simpl. intros [= <- <-]. simpl.
    split; [done|]. split; [by apply isdir_spec in Hdir as [? _]|]. split; [done|].
    by left.
  - unfold mbind, M_bind. destruct (makedirs d w) as [[[]|e] w1] eqn:Hmk; [|done].
    intros [= <- <-]. apply makedirs_returns in Hmk as (Hd & _ & Hfail & ->).
    simpl. split; [done|]. split; [done|]. split; [by apply isdir_made|]. by right.
Qed.

Lemma stable_file (p : string) : stable (λ w, is_Some (ann_files w !! p)).
Proof.
  intros w w' Hp (evs & _ & _ & _ & _ & _ & Hkeep & Hnew).
  destruct (decide (p ∈ written evs)); [by apply Hnew|]. by rewrite Hkeep.
Qed.

End Success.

Ltac steps_step :=
  lazymatch goal with
  | |- steps _ (mret _) => apply steps_ret, extends_preorder
  | |- steps _ (raise _) => apply steps_raise, extends_preorder
  | |- steps _ (lift _) => apply steps_lift, extends_preorder
  | |- steps _ (gets _) => apply steps_gets, extends_preorder
  | |- steps _ (read_text _) => apply steps_read_text, extends_preorder
  | |- steps _ (set_entities _) => apply steps_set_entities
  | |- steps _ (set_X_data _) => apply steps_set_X_data
  | |- steps _ (set_y_data _) => apply steps_set_y_data
  | |- steps _ (foldM _ _ _) =>
      apply steps_foldM; [apply extends_preorder|intros ? ? ?]
  | |- steps _ (mbind _ _) => apply steps_bind; [apply extends_preorder| |intros ?]
  | |- steps _ (match ?x with _ => _ end) => destruct x
  end.

Section CVFacts.
Context {feature learner : Type}.
Variable extract_features :
  data_file → bool → result (list (@sequence feature) * list (list label)).
Variable cv :
  Z → list (@sequence feature) → list (list label) → result (list (list Z * list Z)).
Variable learner_fit : list (list feature) → list (list label) → result learner.
Variable learner_predict : learner → list (list feature) → result (list (list label)).
Variable flat_score :
  metric → list (list label) → list (list label) → list label → result Q.
Variable rnd : Q → Q.

Lemma steps_preprocess (P : @event feature → Prop) (ds : option dataset) (async : bool) :
  (∀ f b, P (EvExtract f b)) →
  steps (extends P false) (preprocess extract_features ds async).
Proof.
  intros HP. unfold preprocess, append_extracted.
  repeat first [steps_step | apply steps_log; [apply HP|done|done]].
Qed.

Lemma steps_fold_scores (P : @event feature → Prop) (k : bool)
    (y_test y_pred : list (list label)) (labels : list label) :
  (∀ m, P (EvMetric m y_test y_pred labels)) →
  steps (extends P k) (fold_scores flat_score y_test y_pred labels).
Proof.
  intros HP. unfold fold_scores, score.
  repeat first [steps_step | apply steps_log; [apply HP|done|done]].
Qed.

Lemma steps_evaluate_fold (k : bool) (X : list (@sequence feature)) (Y : list (list label))
    (tagset : list label) (pd gd : pyval) (st : cv_state) (fold : list Z * list Z) :
  steps (extends (fold_event tagset) k)
    (evaluate_fold learner_fit learner_predict flat_score X Y tagset pd gd st fold).
Proof.
  unfold evaluate_fold. destruct fold as [train_indices test_indices].
  repeat first [steps_step | apply steps_log; [done|done|done]
               | apply steps_fold_scores; intros m; simpl; eauto].
Qed.

Lemma steps_create_annotation_directory (P : @event feature → Prop) (k : bool)
    (d : string) (ds : dataset) (option : string) :
  (∀ msg, P (EvWarning msg)) → P (EvMakedirs d) →
  steps (extends P k) (create_annotation_directory (PStr d) ds option).
Proof.
  intros Hw Hm. unfold create_annotation_directory, os_path_isdir. simpl.
  repeat first [steps_step | apply steps_log; [apply Hw|done|done]
               | by apply steps_makedirs].
Qed.

Lemma steps_predict_annotation_evaluation (P : @event feature → Prop) (k : bool)
    (directory : string) (ds : dataset)
    (preds gt : gmap string (list tagged_span)) (option : string) :
  (∀ f, f ∈ data_files ds →
        P (EvToAnn (os_path_join directory (file_name f ++ ".ann")%string))) →
  steps (extends P k) (predict_annotation_evaluation directory ds preds gt option).
Proof.
  intros HP. unfold predict_annotation_evaluation.
  repeat first [steps_step | apply steps_to_ann; by apply HP].
Qed.

Lemma steps_write_annotations (k : bool) (ds : dataset) (st : cv_state) :
  steps (extends (write_event (feature := feature) ds) k) (write_annotations ds st).
Proof.
  unfold write_annotations.
  repeat first
    [ steps_step
    | apply steps_create_annotation_directory; simpl; by eauto
    | apply steps_predict_annotation_evaluation; intros f Hf; simpl;
      unfold annotation_paths; rewrite elem_of_app, !list_elem_of_fmap; by eauto ].
Qed.

Lemma fold_event_cv_event (ds : option dataset) (tagset : list label)
    (ev : @event feature) :
  fold_event tagset ev → cv_event ds tagset ev.
Proof. destruct ev; simpl; auto. Qed.

Lemma write_event_cv_event (ds : dataset) (tagset : list label) (ev : @event feature) :
  write_event ds ev → cv_event (Some ds) tagset ev.
Proof. destruct ev; simpl; auto. Qed.

Ltac steps_cross_validate :=
  repeat first
    [ steps_step
    | apply steps_log; [done|done|done]
    | eapply steps_weaken; [apply fold_event_cv_event|done|apply steps_evaluate_fold]
    | eapply steps_weaken; [apply write_event_cv_event|done|apply steps_write_annotations] ].

(** A run of [cross_validate] extends the world by the events of
    [cv_event], for the tag set of the labels that were extracted. *)
Lemma cross_validate_extends (num_folds : Z) (training_dataset : option dataset)
    (pd gd : pyval) (async : bool) (w w' : @world feature) (r : result (option string)) :
  cross_validate extract_features cv learner_fit learner_predict flat_score rnd
    num_folds training_dataset pd gd async w = (r, w') →
  extends (cv_event training_dataset (compute_tagset (extracted_labels w'))) false w w'.
Proof.
  unfold cross_validate.
  case_bool_decide; [intros [= _ <-]; apply extends_refl|].
  destruct (_ && _); [intros [= _ <-]; apply extends_refl|].
  destruct (_ && _); [intros [= _ <-]; apply extends_refl|].
  unfold mbind at 1, M_bind at 1.
  destruct (preprocess _ _ _ w) as [[[]|e] w1] eqn:Hpre.
  2:{ intros [= _ <-]. revert Hpre. by apply steps_preprocess. }
  unfold mbind at 1 2, M_bind at 1 2, gets at 1 2.
  destruct (X_data w1) as [X|] eqn:HX; destruct (y_data w1) as [Y|] eqn:HY;
    try (intros [= _ <-]; revert Hpre; by apply steps_preprocess).
  intros Hrest.
  assert (Hext : extends (cv_event training_dataset (compute_tagset Y)) true w1 w').
  { revert Hrest.
    match goal with
    | |- ?m w1 = _ → _ =>
        cut (steps (extends (cv_event training_dataset (compute_tagset Y)) true) m);
          [intros Hs; apply Hs|]
    end.
    steps_cross_validate. }
  assert (HY' : extracted_labels w' = Y).
  { destruct Hext as (_ & _ & _ & Hy & _). unfold extracted_labels.
    destruct (Hy eq_refl) as [_ ->]. by rewrite HY. }
  rewrite HY'. transitivity w1.
  - revert Hpre. by apply steps_preprocess.
  - revert Hext. by apply extends_weaken.
Qed.

Ltac ensures_nav :=
  repeat first
    [ apply ensures_raise
    | apply ensures_bind_r; intros ?
    | match goal with |- ensures _ (match ?x with _ => _ end) => destruct x end ].

Ltac returns_nav :=
  repeat first
    [ apply returns_raise
    | apply returns_bind; intros ?
    | match goal with |- returns _ (match ?x with _ => _ end) => destruct x end ].

Lemma ensures_create_annotation_directory (d : string) (ds : dataset) (option : string) :
  ensures (λ w : @world feature, isdir (dirs w) d = true)
    (create_annotation_directory (PStr d) ds option).
Proof.
  intros w a w' Hrun.
  by apply create_annotation_directory_returns in Hrun as (_ & _ & Hdir & _).
Qed.

Lemma ensures_predict_annotation_evaluation (directory : string) (ds : dataset)
    (preds gt : gmap string (list tagged_span)) (option : string) (f : data_file) :
  f ∈ data_files ds →
  ensures (λ w : @world feature,
             is_Some (ann_files w !! os_path_join directory (file_name f ++ ".ann")%string))
    (predict_annotation_evaluation directory ds preds gt option).
Proof.
  intros Hf. unfold predict_annotation_evaluation.
  apply ensures_bind_l; [apply stable_file| |].
  - apply (ensures_foldM _ _ _ f); [apply stable_file|done| |].
    + intros s. do 2 (apply ensures_bind_r; intros ?).
      apply ensures_bind_l; [apply stable_file| |].
      * intros w u w'. unfold to_ann, log, mbind, M_bind, modify. simpl.
        intros [= _ <-]. simpl. rewrite lookup_insert_eq. eauto.
      * intros ?. steps_step.
    + intros s a. repeat first [steps_step | by apply steps_to_ann].
  - intros a. repeat steps_step.
Qed.

Lemma steps_anything {A} (P : @event feature → Prop) (k : bool) (m : @M feature A) :
  steps (extends P k) m → steps (extends (λ _, True) false) m.
Proof. by apply steps_weaken. Qed.

(** What the block that writes the annotations leaves behind when it
    returns. *)
Lemma ensures_write_dirs (ds : dataset) (st : cv_state) :
  ensures (λ w : @world feature,
             isdir (dirs w) (os_path_join (data_directory ds) "predictions") = true
             ∧ isdir (dirs w) (os_path_join (data_directory ds) "groundtruth") = true)
    (write_annotations ds st).
Proof.
  intros w a w' Hrun. split; revert w a w' Hrun; unfold write_annotations.
  - apply ensures_bind_l; [apply stable_dir|apply ensures_create_annotation_directory|].
    intros ?. apply (steps_anything (write_event ds) false).
    repeat first
      [ steps_step
      | apply steps_create_annotation_directory; simpl; by eauto
      | apply steps_predict_annotation_evaluation; intros f' Hf'; simpl;
        unfold annotation_paths; rewrite elem_of_app, !list_elem_of_fmap; by eauto ].
  - apply ensures_bind_r. intros ?.
    apply ensures_bind_l; [apply stable_dir|apply ensures_create_annotation_directory|].
    intros ?. apply (steps_anything (write_event ds) false).
    repeat first
      [ steps_step
      | apply steps_predict_annotation_evaluation; intros f' Hf'; simpl;
        unfold annotation_paths; rewrite elem_of_app, !list_elem_of_fmap; by eauto ].
Qed.

Lemma ensures_write_files (ds : dataset) (st : cv_state) (f : data_file) :
  f ∈ data_files ds →
  ensures (λ w : @world feature,
             is_Some (ann_files w !! os_path_join
                        (os_path_join (data_directory ds) "predictions")
                        (file_name f ++ ".ann")%string)
             ∧ is_Some (ann_files w !! os_path_join
                          (os_path_join (data_directory ds) "groundtruth")
                          (file_name f ++ ".ann")%string))
    (write_annotations ds st).
Proof.
  intros Hf w a w' Hrun. split; revert w a w' Hrun; unfold write_annotations.
  - do 3 (apply ensures_bind_r; intros ?).
    apply ensures_bind_l;
      [apply stable_file|by apply ensures_predict_annotation_evaluation|].
    intros ?. steps_step.
  - do 2 (apply ensures_bind_r; intros ?).
    apply ensures_bind_l;
      [apply stable_file|by apply ensures_predict_annotation_evaluation|].
    intros ?. apply (steps_anything (write_event ds) false).
    repeat first
      [ steps_step
      | apply steps_predict_annotation_evaluation; intros f' Hf'; simpl;
        unfold annotation_paths; rewrite elem_of_app, !list_elem_of_fmap; by eauto ].
Qed.

Lemma returns_write_annotations (ds : dataset) (st : cv_state) :
  returns (λ ret, ret = Some (os_path_join (data_directory ds) "predictions"))
    (write_annotations (feature := feature) ds st).
Proof. unfold write_annotations. returns_nav. by apply returns_ret. Qed.

Lemma ensures_cross_validate (Q : @world feature → Prop) (num_folds : Z)
    (ds : dataset) (pd gd : pyval) (async : bool) :
  truthy pd = true → (∀ st, ensures Q (write_annotations ds st)) →
  ensures Q (cross_validate extract_features cv learner_fit learner_predict flat_score rnd
               num_folds (Some ds) pd gd async).
Proof.
  intros Hpd Hwrite. unfold cross_validate. rewrite Hpd.
  repeat first
    [ apply Hwrite
    | apply ensures_raise
    | apply ensures_bind_r; intros ?
    | match goal with |- ensures _ (match ?x with _ => _ end) => destruct x end ].
Qed.

Lemma returns_cross_validate (num_folds : Z) (ds : dataset) (pd gd : pyval) (async : bool) :
  truthy pd = true →
  returns (λ ret, ret = Some (os_path_join (data_directory ds) "predictions"))
    (cross_validate extract_features cv learner_fit learner_predict flat_score rnd
       num_folds (Some ds) pd gd async).
Proof.
  intros Hpd. unfold cross_validate. rewrite Hpd.
  repeat first
    [ apply returns_write_annotations
    | apply returns_raise
    | apply returns_bind; intros ?
    | match goal with |- returns _ (match ?x with _ => _ end) => destruct x end ].
Qed.

Lemma elem_of_made (evs : list (@event feature)) (d : string) :
  d ∈ made evs ↔ ∃ d0, EvMakedirs d0 ∈ evs ∧ d ∈ directories_of d0.
Proof.
  unfold made. rewrite list_elem_of_bind. split.
  - intros (ev & Hd & Hev). destruct ev; try by apply elem_of_nil in Hd. eauto.
  - intros (d0 & Hev & Hd). by exists (EvMakedirs d0).
Qed.

Lemma written_cv_event (ds : dataset) (tagset : list label) (evs : list (@event feature)) :
  Forall (cv_event (Some ds) tagset) evs →
  (∀ p, p ∈ written evs →
        p ∈ annotation_paths ds "predictions" ++ annotation_paths ds "groundtruth")
  ∧ (∀ d, EvMakedirs d ∈ evs →
          d = os_path_join (data_directory ds) "predictions"
          ∨ d = os_path_join (data_directory ds) "groundtruth").
Proof.
  rewrite Forall_forall. intros Hevs. split.
  - intros p. unfold written. rewrite list_elem_of_omap.
    intros (ev & Hev & Hp). destruct ev; try done. injection Hp as ->.
    apply Hevs in Hev. simpl in Hev. by destruct Hev.
  - intros d Hev. apply Hevs in Hev. simpl in Hev. by destruct Hev.
Qed.

(** Whatever a call of [cross_validate] on a data set does to the disk, it
    does under the two fixed directories. *)
Lemma cross_validate_frame (num_folds : Z) (ds : dataset) (pd gd : pyval) (async : bool)
    (w w' : @world feature) (r : result (option string)) :
  cross_validate extract_features cv learner_fit learner_predict flat_score rnd
    num_folds (Some ds) pd gd async w = (r, w') →
  ∃ evs, trace w' = trace w ++ evs
    ∧ (∀ p, p ∈ written evs →
            p ∈ annotation_paths ds "predictions" ++ annotation_paths ds "groundtruth")
    ∧ (∀ d, EvMakedirs d ∈ evs →
            d = os_path_join (data_directory ds) "predictions"
            ∨ d = os_path_join (data_directory ds) "groundtruth")
    ∧ (∀ p, p ∉ annotation_paths ds "predictions" ++ annotation_paths ds "groundtruth" →
            ann_files w' !! p = ann_files w !! p)
    ∧ dirs w' ⊆ dirs w
              ∪ list_to_set (directories_of (os_path_join (data_directory ds) "predictions")
                             ++ directories_of (os_path_join (data_directory ds) "groundtruth"))
    ∧ texts w' = texts w.
Proof.
  intros Hrun. apply cross_validate_extends in Hrun.
  destruct Hrun as (evs & Ht & HP & _ & Hx & Hd & Hkeep & _).
  destruct (written_cv_event _ _ _ HP) as [Hw Hm].
  exists evs. split; [done|]. split; [done|]. split; [done|]. split; [|split; [|done]].
  - intros p Hp. apply Hkeep. intros Hin. by apply Hp, Hw.
  - rewrite Hd. intros d. rewrite !elem_of_union, !elem_of_list_to_set, elem_of_app.
    intros [?|Hin]; [by left|]. right.
    apply elem_of_made in Hin as (d0 & Hev & Hin).
    destruct (Hm d0 Hev) as [->| ->]; auto.
Qed.

(** C8, as the code has it. A call of [cross_validate] on a data set with a
    non-empty string as [prediction_directory] and a string as
    [groundtruth_directory] does not depend on the two strings: with any
    other such strings it does the same and ends the same. The annotation
    files it writes are those of the data files under
    [<data_directory>/predictions] and [<data_directory>/groundtruth], the
    only directories it asks [os.makedirs] for are these two, and every
    other annotation file is as it was. When it returns, it returns the
    data set at [<data_directory>/predictions], both directories exist and
    each holds the file [<file_name>.ann] of every data file. *)
Theorem directory_arguments_ignored (num_folds : Z) (ds : dataset) (c : ascii)
    (p g : string) (async : bool) (w w' : @world feature) (r : result (option string)) :
  cross_validate extract_features cv learner_fit learner_predict flat_score rnd
    num_folds (Some ds) (PStr (String c p)) (PStr g) async w = (r, w') →
  (∀ (c' : ascii) (p' g' : string),
     cross_validate extract_features cv learner_fit learner_predict flat_score rnd
       num_folds (Some ds) (PStr (String c' p')) (PStr g') async w = (r, w'))
  ∧ (∃ evs, trace w' = trace w ++ evs
       ∧ (∀ q, q ∈ written evs →
               q ∈ annotation_paths ds "predictions" ++ annotation_paths ds "groundtruth")
       ∧ (∀ d, EvMakedirs d ∈ evs →
               d = os_path_join (data_directory ds) "predictions"
               ∨ d = os_path_join (data_directory ds) "groundtruth")
       ∧ (∀ q, q ∉ annotation_paths ds "predictions" ++ annotation_paths ds "groundtruth" →
               ann_files w' !! q = ann_files w !! q)
       ∧ dirs w' ⊆ dirs w
                 ∪ list_to_set
                     (directories_of (os_path_join (data_directory ds) "predictions")
                      ++ directories_of (os_path_join (data_directory ds) "groundtruth"))
       ∧ texts w' = texts w)
  ∧ (∀ ret, r = Ok ret →
       ret = Some (os_path_join (data_directory ds) "predictions")
       ∧ isdir (dirs w') (os_path_join (data_directory ds) "predictions") = true
       ∧ isdir (dirs w') (os_path_join (data_directory ds) "groundtruth") = true
       ∧ ∀ f, f ∈ data_files ds →
           is_Some (ann_files w' !! os_path_join
                      (os_path_join (data_directory ds) "predictions")
                      (file_name f ++ ".ann")%string)
           ∧ is_Some (ann_files w' !! os_path_join
                        (os_path_join (data_directory ds) "groundtruth")
                        (file_name f ++ ".ann")%string)).
Proof.
  intros Hrun. split; [intros c' p' g'; exact Hrun|].
  split; [by apply (cross_validate_frame num_folds ds (PStr (String c p)) (PStr g)
                      async w w' r)|].
  intros ret ->.
  assert (Hpd : truthy (PStr (String c p)) = true) by done.
  split; [by apply (returns_cross_validate num_folds ds (PStr (String c p)) (PStr g) async Hpd
                      w ret w')|].
  pose proof (ensures_cross_validate _ num_folds ds (PStr (String c p)) (PStr g) async Hpd
                (ensures_write_dirs ds) w ret w' Hrun) as [Hp Hg].
  split; [done|]. split; [done|]. intros f Hf.
  apply (ensures_cross_validate _ num_folds ds (PStr (String c p)) (PStr g) async Hpd
           (λ st, ensures_write_files ds st f Hf) w ret w' Hrun).
Qed.

(** C5. The tag set is the sorted list, without repetition, of the labels
    that occur in the extracted label data and are neither ["O"] nor the
    empty string; and every metric call of a run of [cross_validate], in
    whatever fold, is given either one label of this tag set or the whole
    tag set. *)
Theorem tagset_restricts_metrics (num_folds : Z) (training_dataset : option dataset)
    (pd gd : pyval) (async : bool) (w : @world feature) :
  let w' := (cross_validate extract_features cv learner_fit learner_predict flat_score rnd
               num_folds training_dataset pd gd async w).2 in
  let tagset := compute_tagset (extracted_labels w') in
  StronglySorted str_lt tagset
  ∧ (∀ x, x ∈ tagset ↔
          (∃ tags, tags ∈ extracted_labels w' ∧ x ∈ tags) ∧ x ≠ "O" ∧ x ≠ "")
  ∧ ∃ evs, trace w' = trace w ++ evs
      ∧ ∀ m y_test y_pred labels,
          EvMetric m y_test y_pred labels ∈ evs →
          labels = tagset ∨ ∃ l, l ∈ tagset ∧ labels = [l].
Proof.
  intros w' tagset. split; [apply compute_tagset_sorted|].
  split; [apply compute_tagset_elem|].
  destruct (cross_validate_extends num_folds training_dataset pd gd async w w'
              (cross_validate extract_features cv learner_fit learner_predict flat_score rnd
                 num_folds training_dataset pd gd async w).1)
    as (evs & Ht & HP & _); [apply surjective_pairing|].
  exists evs. split; [done|]. intros m yt yp labels Hin.
  rewrite Forall_forall in HP. specialize (HP _ Hin). simpl in HP.
  destruct HP as [HP|HP]; [done|]. by destruct training_dataset.
Qed.

Lemma preprocess_nothing_extracted (ds : dataset) (async : bool) (w : @world feature) :
  (∀ f, f ∈ data_files ds → extract_features f (is_metamapped ds) = Ok ([], [])) →
  ∃ w1 evs, preprocess extract_features (Some ds) async w = (Ok (), w1)
    ∧ X_data w1 = Some [] ∧ y_data w1 = Some [] ∧ trace w1 = trace w ++ evs.
Proof.
  intros Hempty. unfold preprocess.
  unfold mbind at 1 2, M_bind at 1 2, set_X_data, set_y_data, modify. simpl.
  set (w0 := World _ _ _ _ _ _ _).
  assert (Hw0 : X_data w0 = Some [] ∧ y_data w0 = Some [] ∧ trace w0 = trace w ++ [])
    by (by rewrite app_nil_r).
  clearbody w0. revert w0 Hw0.
  assert (Hcollect : ∀ files w0 evs0,
            (∀ f, f ∈ files → extract_features f (is_metamapped ds) = Ok ([], [])) →
            X_data w0 = Some [] ∧ y_data w0 = Some [] ∧ trace w0 = trace w ++ evs0 →
            ∃ w1, foldM (λ u f, append_extracted extract_features u f (is_metamapped ds))
                    () files w0 = (Ok (), w1)
              ∧ X_data w1 = Some [] ∧ y_data w1 = Some [] ∧ trace w1 = trace w ++ evs0).
  { induction files as [|f files IH]; intros w0 evs0 Hfiles (HX & Hy & Ht); simpl.
    - by exists w0.
    - unfold mbind at 1, M_bind at 1, append_extracted.
      rewrite (Hfiles f) by left. unfold lift, gets, set_X_data, set_y_data, modify.
      unfold mbind, M_bind. rewrite HX, Hy. simpl.
      apply IH; [intros f' Hf'; apply Hfiles; by right|]. simpl. done. }
  destruct async; intros w0 (HX & Hy & Ht).
  - assert (Hlog : ∀ files w0 evs0,
              X_data w0 = Some [] ∧ y_data w0 = Some [] ∧ trace w0 = trace w ++ evs0 →
              ∃ w1 evs1, foldM (λ (_ : ()) f, log (EvExtract f (is_metamapped ds)))
                      () files w0 = (Ok (), w1)
                ∧ X_data w1 = Some [] ∧ y_data w1 = Some [] ∧ trace w1 = trace w ++ evs1).
    { induction files as [|f files IH]; intros w1 evs0 (HX1 & Hy1 & Ht1); simpl.
      - by exists w1, evs0.
      - unfold mbind at 1, M_bind at 1, log, modify. simpl.
        apply (IH _ (evs0 ++ [EvExtract f (is_metamapped ds)])). simpl.
        by rewrite Ht1, app_assoc. }
    destruct (Hlog (data_files ds) w0 [] (conj HX (conj Hy Ht))) as (w1 & evs1 & Hrun & H1).
    unfold mbind at 1, M_bind at 1. rewrite Hrun.
    destruct (Hcollect (data_files ds) w1 evs1 Hempty H1) as (w2 & Hrun2 & H2).
    exists w2, evs1. by rewrite Hrun2.
  - assert (Hboth : ∀ files w0 evs0,
              (∀ f, f ∈ files → extract_features f (is_metamapped ds) = Ok ([], [])) →
              X_data w0 = Some [] ∧ y_data w0 = Some [] ∧ trace w0 = trace w ++ evs0 →
              ∃ w1 evs1, foldM (λ u f, log (EvExtract f (is_metamapped ds));;
                                       append_extracted extract_features u f (is_metamapped ds))
                      () files w0 = (Ok (), w1)
                ∧ X_data w1 = Some [] ∧ y_data w1 = Some [] ∧ trace w1 = trace w ++ evs1).
    { induction files as [|f files IH]; intros w1 evs0 Hfiles (HX1 & Hy1 & Ht1); simpl.
      - by exists w1, evs0.
      - unfold mbind at 1 2, M_bind at 1 2, log, modify, append_extracted.
        rewrite (Hfiles f) by left. unfold lift, gets, set_X_data, set_y_data, modify.
        unfold mbind, M_bind. simpl. rewrite HX1, Hy1. simpl.
        apply (IH _ (evs0 ++ [EvExtract f (is_metamapped ds)]));
          [intros f' Hf'; apply Hfiles; by right|].
        simpl. by rewrite Ht1, app_assoc. }
    apply (Hboth (data_files ds) w0 [] Hempty). done.
Qed.

(** C3, on the code. When the extraction yields no sequence, the assertion
    of [cross_validate] holds (the two lists are empty, not [None]) and the
    splitter is called on the empty collection. *)
Theorem cross_validate_splits_empty_data (num_folds : Z) (ds : dataset)
    (pd gd : pyval) (async : bool) (w : @world feature) :
  1 < num_folds →
  (∀ f, f ∈ data_files ds → extract_features f (is_metamapped ds) = Ok ([], [])) →
  let w' := (cross_validate extract_features cv learner_fit learner_predict flat_score rnd
               num_folds (Some ds) pd gd async w).2 in
  X_data w' = Some [] ∧ y_data w' = Some []
  ∧ ∃ evs1 evs2, trace w' = trace w ++ evs1 ++ EvSplit num_folds [] [] :: evs2.
Proof.
  intros Hfolds Hempty. cbv zeta.
  destruct (cross_validate _ _ _ _ _ _ _ _ _ _ _ w) as [r w'] eqn:Hcv. simpl.
  revert Hcv. unfold cross_validate.
  rewrite bool_decide_false by lia.
  rewrite (bool_decide_false (Some ds = None)) by done. rewrite !andb_false_r.
  destruct (preprocess_nothing_extracted ds async w Hempty)
    as (w1 & evs1 & Hpre & HX & Hy & Ht).
  unfold mbind at 1, M_bind at 1. rewrite Hpre.
  unfold mbind at 1 2, M_bind at 1 2, gets at 1 2. rewrite HX, Hy.
  unfold mbind at 1 2, M_bind at 1 2, set_entities, log, modify. simpl.
  set (w2 := World _ _ _ _ _ _ _).
  match goal with
  | |- ?m w2 = _ → _ =>
      assert (Hs : steps (extends (cv_event (Some ds) (compute_tagset [])) true) m)
        by steps_cross_validate
  end.
  intros Hrun. destruct (Hs _ _ _ Hrun) as (evs2 & Ht2 & _ & Hkeep & _).
  destruct (Hkeep eq_refl) as [HX2 Hy2].
  split; [by rewrite HX2|]. split; [by rewrite Hy2|].
  exists evs1, evs2. rewrite Ht2. subst w2. simpl.
  by rewrite Ht, <- !app_assoc.
Qed.

End CVFacts.

Lemma cross_validate_splits_empty_data_witness :
  let w' := (Demo.run 2 (Some Demo.empty_corpus) PNone PNone false).2 in
  X_data w' = Some [] ∧ y_data w' = Some []
  ∧ ∃ evs1 evs2, trace w' = trace Demo.world0 ++ evs1 ++ EvSplit 2 [] [] :: evs2.
Proof.
  apply (cross_validate_splits_empty_data Demo.extract_features Demo.cv Demo.learner_fit
           Demo.learner_predict Demo.flat_score Demo.rnd 2 Demo.empty_corpus PNone PNone
           false Demo.world0).
  - lia.
  - intros f Hf. by apply elem_of_nil in Hf.
Defined.

(** The run on the data set without files, evaluated: the splitter is
    called on empty lists, and the fold it returns is then looked up in
    them. *)
Lemma cross_validate_empty_corpus_run :
  (Demo.run 2 (Some Demo.empty_corpus) PNone PNone false).1 = Raise IndexError
  ∧ trace (Demo.run 2 (Some Demo.empty_corpus) PNone PNone false).2
    = [EvSplit 2 [] []; EvGetLearner].
Proof. split; by vm_compute. Qed.

Lemma directory_arguments_ignored_witness :
  let run := Demo.run 2 (Some Demo.corpus) (PStr "out") (PStr "gt") false in
  run.1 = Ok (Some "data/predictions")
  ∧ written (trace run.2)
    = ["data/groundtruth/a.ann"; "data/groundtruth/b.ann";
       "data/predictions/a.ann"; "data/predictions/b.ann"]
  ∧ (∀ (c' : ascii) (p' g' : string),
       Demo.run 2 (Some Demo.corpus) (PStr (String c' p')) (PStr g') false
       = (run.1, run.2))
  ∧ (∃ evs, trace run.2 = trace Demo.world0 ++ evs
       ∧ (∀ q, q ∈ written evs →
               q ∈ annotation_paths Demo.corpus "predictions"
                   ++ annotation_paths Demo.corpus "groundtruth")
       ∧ (∀ d, EvMakedirs d ∈ evs →
               d = os_path_join (data_directory Demo.corpus) "predictions"
               ∨ d = os_path_join (data_directory Demo.corpus) "groundtruth")
       ∧ (∀ q, q ∉ annotation_paths Demo.corpus "predictions"
                   ++ annotation_paths Demo.corpus "groundtruth" →
               ann_files run.2 !! q = ann_files Demo.world0 !! q)
       ∧ dirs run.2 ⊆ dirs Demo.world0
                 ∪ list_to_set
                     (directories_of (os_path_join (data_directory Demo.corpus) "predictions")
                      ++ directories_of
                           (os_path_join (data_directory Demo.corpus) "groundtruth"))
       ∧ texts run.2 = texts Demo.world0)
  ∧ (∀ ret, run.1 = Ok ret →
       ret = Some (os_path_join (data_directory Demo.corpus) "predictions")
       ∧ isdir (dirs run.2) (os_path_join (data_directory Demo.corpus) "predictions") = true
       ∧ isdir (dirs run.2) (os_path_join (data_directory Demo.corpus) "groundtruth") = true
       ∧ ∀ f, f ∈ data_files Demo.corpus →
           is_Some (ann_files run.2 !! os_path_join
                      (os_path_join (data_directory Demo.corpus) "predictions")
                      (file_name f ++ ".ann")%string)
           ∧ is_Some (ann_files run.2 !! os_path_join
                        (os_path_join (data_directory Demo.corpus) "groundtruth")
                        (file_name f ++ ".ann")%string)).
Proof.
  intros run. split; [by vm_compute|]. split; [by vm_compute|].
  apply (directory_arguments_ignored Demo.extract_features Demo.cv Demo.learner_fit
           Demo.learner_predict Demo.flat_score Demo.rnd 2 Demo.corpus "o" "ut" "gt"
           false Demo.world0 run.2 run.1).
  vm_compute. reflexivity.
Defined.

(** C8 as stated fails for the empty string: with [prediction_directory=""]
    and a [groundtruth_directory] the call returns [None]; neither
    [<data_directory>/predictions] nor [<data_directory>/groundtruth] is
    made and no annotation file is written. *)
Lemma empty_prediction_directory_writes_nothing :
  (Demo.run 2 (Some Demo.corpus) (PStr "") (PStr "gt") false).1 = Ok None
  ∧ dirs (Demo.run 2 (Some Demo.corpus) (PStr "") (PStr "gt") false).2 = dirs Demo.world0
  ∧ isdir (dirs (Demo.run 2 (Some Demo.corpus) (PStr "") (PStr "gt") false).2)
      "data/predictions" = false
  ∧ isdir (dirs (Demo.run 2 (Some Demo.corpus) (PStr "") (PStr "gt") false).2)
      "data/groundtruth" = false
  ∧ ann_files (Demo.run 2 (Some Demo.corpus) (PStr "") (PStr "gt") false).2 = ∅
  ∧ written (trace (Demo.run 2 (Some Demo.corpus) (PStr "") (PStr "gt") false).2) = [].
Proof. repeat split; by vm_compute. Qed.

(** The run of the small data set with both directories given: the tag
    set, and the labels of the metric calls of the second fold. *)
Lemma tagset_restricts_metrics_run :
  entities (Demo.run 2 (Some Demo.corpus) (PStr "out") (PStr "gt") false).2
  = Some ["Dose"; "Drug"]
  ∧ omap (λ ev, match ev with EvMetric F1 _ _ labels => Some labels | _ => None end)
      (trace (Demo.run 2 (Some Demo.corpus) (PStr "out") (PStr "gt") false).2)
    = [["Dose"]; ["Drug"]; ["Dose"; "Drug"]; ["Dose"]; ["Drug"]; ["Dose"; "Drug"]].
Proof. split; by vm_compute. Qed.

(** * Further properties *)

(** ** Span reconstruction: edge cases and invariants *)

Lemma span_loop_end labels spans docs (by_document : gmap string (list tagged_span)) i :
  (length labels ≤ i)%nat → span_loop labels spans docs i by_document = Ok by_document.
Proof. intros Hi. rewrite span_loop_eq. case_decide; [lia|done]. Qed.

(** X1. Labels that are all ["O"] leave the dictionary as it is, whatever
    the lists of spans and documents are (they are never looked at). *)
Theorem reconstruct_spans_all_outside (labels : list label) (spans : list span)
    (docs : list string) (by_document : gmap string (list tagged_span)) :
  Forall (λ l, l = "O") labels →
  reconstruct_spans labels spans docs by_document = Ok by_document.
Proof.
  intros Hall. unfold reconstruct_spans.
  rewrite (span_loop_skip_O labels spans docs by_document (length labels) 0).
  - by apply span_loop_end.
  - intros m Hm. rewrite Forall_lookup in Hall.
    destruct (lookup_lt_is_Some_2 labels m Hm) as [l Hl]. simpl.
    by rewrite Hl, (Hall m l Hl).
Qed.

Lemma reconstruct_spans_all_outside_witness :
  reconstruct_spans ["O"; "O"; "O"] [] ["a"] {[ "a" := [("Drug", 1, 2)] ]}
  = Ok {[ "a" := [("Drug", 1, 2)] ]}.
Proof.
  apply (reconstruct_spans_all_outside ["O"; "O"; "O"] [] ["a"]).
  repeat constructor.
Defined.

(** What a run of the loop may do to the list of one document: nothing to
    a document that is no key, and only append tuples whose label is a label
    of the input other than ["O"]. *)
Definition grows (labels : list label) (before after : gmap string (list tagged_span))
  : Prop :=
  ∀ d, match before !! d with
       | Some l => ∃ l', after !! d = Some (l ++ l')
                         ∧ Forall (λ t : tagged_span, t.1.1 ≠ "O" ∧ t.1.1 ∈ labels) l'
       | None => after !! d = None
       end.

Lemma grows_refl labels m : grows labels m m.
Proof.
  intros d. destruct (m !! d) as [l|]; [|done]. exists []. by rewrite app_nil_r.
Qed.

Lemma grows_trans labels m1 m2 m3 :
  grows labels m1 m2 → grows labels m2 m3 → grows labels m1 m3.
Proof.
  intros H12 H23 d. specialize (H12 d). specialize (H23 d).
  destruct (m1 !! d) as [l|].
  - destruct H12 as (l' & H2 & Hl'). rewrite H2 in H23.
    destruct H23 as (l'' & H3 & Hl''). exists (l' ++ l'').
    split; [by rewrite app_assoc|by apply Forall_app].
  - by rewrite H12 in H23.
Qed.

Lemma span_step_grows labels spans docs i m j m' :
  span_step labels spans docs i m = Ok (j, m') → grows labels m m'.
Proof.
  unfold span_step. destruct (getitem labels i) as [e|?] eqn:He; simpl; [|done].
  case_decide as HO; [intros ?; simplify_eq; apply grows_refl|].
  destruct (getitem docs i) as [doc|?]; simpl; [|done].
  destruct (getitem spans i) as [[s0 e0]|?]; simpl; [|done].
  destruct (getitem spans _) as [[s1 e1]|?]; simpl; [|done].
  unfold dict_append. destruct (m !! doc) as [l|] eqn:Hdoc; simpl; [|done].
  intros ?; simplify_eq. intros d. destruct (decide (d = doc)) as [->|Hne].
  - rewrite Hdoc, lookup_insert_eq. exists [(e, s0, e1)]. split; [done|].
    constructor; [|done]. simpl. split; [done|].
    apply getitem_Ok in He. by eapply list_elem_of_lookup_2.
  - rewrite lookup_insert_ne by done. destruct (m !! d) as [l'|]; [|done].
    exists []. by rewrite app_nil_r.
Qed.

Lemma span_loop_grows labels spans docs : ∀ n i m out,
  (length labels - i = n)%nat →
  span_loop labels spans docs i m = Ok out → grows labels m out.
Proof.
  induction n as [n IH] using lt_wf_ind. intros i m out Hn.
  rewrite span_loop_eq. case_decide as Hi; [|intros [= <-]; apply grows_refl].
  destruct (span_step labels spans docs i m) as [[j m']|?] eqn:Hstep; [|done].
  intros Hloop. pose proof (span_step_progress _ _ _ _ _ _ _ Hstep) as Hlt.
  apply (grows_trans labels m m' out); [by eapply span_step_grows|].
  apply (IH (length labels - j)%nat ltac:(lia) j m' out eq_refl Hloop).
Qed.

(** X2. Whenever the reconstruction returns, with lists of any lengths, it
    has only appended: the keys of the dictionary are the same, the list of
    every document starts with what it held, and every tuple added carries a
    label of the input other than ["O"]. *)
Theorem reconstruct_spans_only_appends (labels : list label) (spans : list span)
    (docs : list string) (by_document out : gmap string (list tagged_span)) :
  reconstruct_spans labels spans docs by_document = Ok out →
  ∀ d, match by_document !! d with
       | Some l => ∃ l', out !! d = Some (l ++ l')
                         ∧ Forall (λ t : tagged_span, t.1.1 ≠ "O" ∧ t.1.1 ∈ labels) l'
       | None => out !! d = None
       end.
Proof.
  intros Hrun. by apply (span_loop_grows labels spans docs _ 0%nat by_document out eq_refl).
Qed.

Lemma reconstruct_spans_only_appends_witness :
  reconstruct_spans ["O"; "Drug"] [(0, 1); (2, 6)] ["a"; "a"]
    {[ "a" := [("Dose", 0, 1)] ]}
  = Ok {[ "a" := [("Dose", 0, 1); ("Drug", 2, 6)] ]}
  ∧ ∃ l', ({[ "a" := [("Dose", 0, 1); ("Drug", 2, 6)] ]}
             : gmap string (list tagged_span)) !! "a" = Some ([("Dose", 0, 1)] ++ l')
          ∧ Forall (λ t : tagged_span, t.1.1 ≠ "O" ∧ t.1.1 ∈ ["O"; "Drug"]) l'.
Proof.
  assert (Hrun : reconstruct_spans ["O"; "Drug"] [(0, 1); (2, 6)] ["a"; "a"]
                   {[ "a" := [("Dose", 0, 1)] ]}
                 = Ok {[ "a" := [("Dose", 0, 1); ("Drug", 2, 6)] ]})
    by (vm_compute; reflexivity).
  split; [exact Hrun|].
  exact (reconstruct_spans_only_appends ["O"; "Drug"] [(0, 1); (2, 6)] ["a"; "a"]
           {[ "a" := [("Dose", 0, 1)] ]} {[ "a" := [("Dose", 0, 1); ("Drug", 2, 6)] ]}
           Hrun "a").
Defined.

Lemma extend_run_lt labels entity : ∀ n i,
  (length labels - i = n)%nat → (i < length labels)%nat →
  (extend_run labels entity i < length labels)%nat.
Proof.
  induction n as [n IH] using lt_wf_ind. intros i Hn Hi.
  rewrite extend_run_eq. case_decide as Hc; [|done].
  destruct Hc as [Hlt _]. apply (IH (length labels - (i + 1))%nat); lia.
Qed.

(** X3. A token that starts a run in a document that is no key of the
    dictionary stops the reconstruction with a [KeyError]: here for the
    first token that is not ["O"]. *)
Theorem reconstruct_spans_missing_document (labels : list label) (spans : list span)
    (docs : list string) (by_document : gmap string (list tagged_span))
    (k : nat) (e : label) (d : string) :
  length spans = length labels →
  (∀ m, (m < k)%nat → labels !! m = Some "O") →
  labels !! k = Some e → e ≠ "O" → docs !! k = Some d → by_document !! d = None →
  reconstruct_spans labels spans docs by_document = Raise KeyError.
Proof.
  intros Hs HO Hk He Hd Hdoc. unfold reconstruct_spans.
  rewrite (span_loop_skip_O labels spans docs by_document k 0) by done. simpl.
  pose proof (lookup_lt_Some _ _ _ Hk) as Hlt.
  rewrite span_loop_eq. case_decide; [|lia]. unfold span_step.
  rewrite (getitem_Some _ _ _ Hk). simpl. rewrite decide_False by done.
  rewrite (getitem_Some _ _ _ Hd). simpl.
  destruct (lookup_lt_is_Some_2 spans k ltac:(lia)) as [[s0 e0] Hs0].
  rewrite (getitem_Some _ _ _ Hs0). simpl.
  pose proof (extend_run_lt labels e _ k eq_refl Hlt) as Hj.
  destruct (lookup_lt_is_Some_2 spans (extend_run labels e k) ltac:(lia)) as [[s1 e1] Hs1].
  rewrite (getitem_Some _ _ _ Hs1). simpl.
  unfold dict_append. by rewrite Hdoc.
Qed.

Lemma reconstruct_spans_missing_document_witness :
  reconstruct_spans ["O"; "Drug"] [(0, 1); (2, 6)] ["a"; "b"] {[ "a" := [] ]}
  = Raise KeyError.
Proof.
  apply (reconstruct_spans_missing_document ["O"; "Drug"] [(0, 1); (2, 6)] ["a"; "b"]
           {[ "a" := [] ]} 1 "Drug" "b").
  - reflexivity.
  - intros [|m] Hm; [reflexivity|lia].
  - reflexivity.
  - discriminate.
  - reflexivity.
  - reflexivity.
Defined.

(** ** Span reconstruction inside a fold *)

Section InFold.
Context {feature : Type}.

(** A sequence and its labels fit: as many features and as many spans as
    labels. *)
Definition fits (sequence : @sequence feature) (tags : list label) : Prop :=
  length sequence.1.1 = length tags ∧ length sequence.1.2 = length tags.

Lemma getitem_Z_lookup {A} (l : list A) (i : Z) (a : A) :
  getitem_Z l i = Ok a →
  l !! (if bool_decide (0 ≤ i) then Z.to_nat i
        else Z.to_nat (Z.of_nat (length l) + i)) = Some a.
Proof.
  unfold getitem_Z. case_bool_decide; [apply getitem_Ok|].
  case_bool_decide; [apply getitem_Ok|done].
Qed.

Lemma mapM_cons_Ok {A B} (f : A → result B) (x : A) (l : list A) (ys : list B) :
  mapM f (x :: l) = Ok ys → ∃ y ys', ys = y :: ys' ∧ f x = Ok y ∧ mapM f l = Ok ys'.
Proof.
  simpl. destruct (f x) as [y|?]; simpl; [|done].
  destruct (mapM f l) as [ys'|?]; simpl; [|done]. intros [= <-]. eauto.
Qed.

Lemma selected_fit (X : list (@sequence feature)) (Y : list (list label)) (idx : list Z) :
  Forall2 fits X Y → ∀ X_test y_test,
  mapM (getitem_Z X) idx = Ok X_test → mapM (getitem_Z Y) idx = Ok y_test →
  Forall2 fits X_test y_test ∧ Forall (λ x, x ∈ X) X_test.
Proof.
  intros Hfit. induction idx as [|i idx IH]; intros X_test y_test HX HY.
  - simpl in HX, HY. simplify_eq. split; constructor.
  - apply mapM_cons_Ok in HX as (x & X' & -> & Hx & HX).
    apply mapM_cons_Ok in HY as (y & Y' & -> & Hy & HY).
    destruct (IH _ _ HX HY) as [IH1 IH2].
    apply getitem_Z_lookup in Hx. apply getitem_Z_lookup in Hy.
    rewrite <- (Forall2_length _ _ _ Hfit) in Hy.
    split; constructor; try done.
    + eapply Forall2_lookup_lr; [exact Hfit|exact Hx|exact Hy].
    + eapply list_elem_of_lookup_2. exact Hx.
Qed.

Lemma flattened_lengths (X_test : list (@sequence feature)) (y_test : list (list label)) :
  Forall2 fits X_test y_test →
  length (span_indices X_test) = length (flat_labels y_test)
  ∧ length (document_indices X_test) = length (flat_labels y_test).
Proof.
  unfold span_indices, document_indices, flat_labels.
  induction 1 as [|x y X' Y' [Hf Hs] _ [IH1 IH2]]; [done|].
  simpl. rewrite !length_app, length_replicate. lia.
Qed.

Lemma document_indices_elem (X_test : list (@sequence feature)) (d : string) :
  d ∈ document_indices X_test → ∃ x, x ∈ X_test ∧ x.2 = d.
Proof.
  unfold document_indices. induction X_test as [|x X' IH]; simpl.
  - intros Hd. by apply elem_of_nil in Hd.
  - rewrite elem_of_app. intros [Hd|Hd].
    + apply elem_of_replicate in Hd as [-> _]. exists x. split; [left|done].
    + destruct (IH Hd) as (x' & Hx' & <-). exists x'. split; [by right|done].
Qed.

(** X4. The fold's reconstruction cannot raise on data that fits: when every
    sequence has as many features and spans as labels and the file name of
    every sequence is a key of the dictionary (as [cross_validate] builds
    it), the reconstruction over the test sequences selected by any index
    list returns, and the file names are still keys afterwards, so the next
    fold can go on with the result. *)
Theorem reconstruct_spans_in_fold (X : list (@sequence feature)) (Y : list (list label))
    (idx : list Z) (X_test : list (@sequence feature)) (y_test : list (list label))
    (by_document : gmap string (list tagged_span)) :
  Forall2 fits X Y →
  Forall (λ x : @sequence feature, is_Some (by_document !! x.2)) X →
  mapM (getitem_Z X) idx = Ok X_test → mapM (getitem_Z Y) idx = Ok y_test →
  ∃ out,
    reconstruct_spans (flat_labels y_test) (span_indices X_test)
      (document_indices X_test) by_document = Ok out
    ∧ Forall (λ x : @sequence feature, is_Some (out !! x.2)) X.
Proof.
  intros Hfit Hkeys HX HY.
  destruct (selected_fit X Y idx Hfit _ _ HX HY) as [Hfit' Hsub].
  destruct (flattened_lengths _ _ Hfit') as [Hs Hd].
  destruct (reconstruct_spans_runs (flat_labels y_test) (span_indices X_test)
              (document_indices X_test) by_document
              (group_runs (tokens (flat_labels y_test) (span_indices X_test)
                             (document_indices X_test))) Hs Hd)
    as (out & Hout & _).
  - rewrite Forall_forall in Hkeys. rewrite Forall_forall in Hsub.
    rewrite Forall_forall. intros d Hd'.
    destruct (document_indices_elem _ _ Hd') as (x & Hx & <-). auto.
  - apply group_runs_maximal.
  - exists out. split; [done|].
    pose proof (span_loop_grows _ _ _ _ 0%nat _ _ eq_refl Hout) as Hgrow.
    eapply Forall_impl; [exact Hkeys|]. intros x [l Hl]. simpl in *.
    specialize (Hgrow x.2). rewrite Hl in Hgrow. destruct Hgrow as (l' & -> & _). eauto.
Qed.

End InFold.

Lemma reconstruct_spans_in_fold_witness :
  ∃ out,
    reconstruct_spans (flat_labels [["Drug"; "O"]])
      (span_indices [([3; 4]%nat, [(100, 104); (105, 109)], "b")])
      (document_indices [([3; 4]%nat, [(100, 104); (105, 109)], "b")])
      {[ "a" := []; "b" := [] ]} = Ok out
    ∧ Forall (λ x : @sequence nat, is_Some (out !! x.2))
        [([1; 2]%nat, [(0, 4); (5, 9)], "a"); ([3; 4]%nat, [(100, 104); (105, 109)], "b")].
Proof.
  apply (reconstruct_spans_in_fold
           [([1; 2]%nat, [(0, 4); (5, 9)], "a"); ([3; 4]%nat, [(100, 104); (105, 109)], "b")]
           [["O"; "Drug"]; ["Drug"; "O"]] [-1]).
  - repeat constructor.
  - repeat constructor; by eexists.
  - reflexivity.
  - reflexivity.
Defined.

(** ** The tag set depends on the labels only *)

#[local] Instance str_le_antisymm : AntiSymm (=) str_le.
Proof. intros s1 s2 H1 H2. by apply String.leb_antisym. Qed.

(** X5. Two collections of label sequences in which the same labels occur
    have the same tag set: neither the order of the sequences, nor
    repetitions, nor the order in which the set yields its elements
    matter. *)
Theorem compute_tagset_labels_only (Y Y' : list (list label)) :
  (∀ x, (∃ tags, tags ∈ Y ∧ x ∈ tags) ↔ (∃ tags, tags ∈ Y' ∧ x ∈ tags)) →
  compute_tagset Y = compute_tagset Y'.
Proof.
  intros Hsame.
  assert (Hsorted : ∀ Z, StronglySorted str_le (compute_tagset Z)).
  { intros Z. apply StronglySorted_merge_sort; apply _. }
  assert (Hnodup : ∀ Z, NoDup (compute_tagset Z)).
  { intros Z. unfold compute_tagset. rewrite merge_sort_Permutation. apply NoDup_elements. }
  apply (StronglySorted_unique str_le); [done|done|].
  apply NoDup_Permutation; [done|done|].
  intros x. rewrite !compute_tagset_elem. by rewrite Hsame.
Qed.

Lemma compute_tagset_labels_only_witness :
  compute_tagset [["O"; "Drug"]; ["Dose"; "Drug"; ""]]
  = compute_tagset [["Dose"]; ["Drug"; "O"; "O"]; []; [""]].
Proof.
  apply compute_tagset_labels_only. intros x. split.
  - intros (tags & Htags & Hx).
    repeat (apply elem_of_cons in Htags as [->|Htags]);
      [| |by apply elem_of_nil in Htags];
      repeat (apply elem_of_cons in Hx as [->|Hx]); try (by apply elem_of_nil in Hx).
    + exists ["Drug"; "O"; "O"]. split; [right; left|right; left].
    + exists ["Drug"; "O"; "O"]. split; [right; left|left].
    + exists ["Dose"]. split; [left|left].
    + exists ["Drug"; "O"; "O"]. split; [right; left|left].
    + exists [""]. split; [do 3 right; left|left].
  - intros (tags & Htags & Hx).
    repeat (apply elem_of_cons in Htags as [->|Htags]);
      try (by apply elem_of_nil in Htags);
      repeat (apply elem_of_cons in Hx as [->|Hx]); try (by apply elem_of_nil in Hx).
    + exists ["Dose"; "Drug"; ""]. split; [right; left|left].
    + exists ["O"; "Drug"]. split; [left|right; left].
    + exists ["O"; "Drug"]. split; [left|left].
    + exists ["O"; "Drug"]. split; [left|left].
    + exists ["Dose"; "Drug"; ""]. split; [right; left|do 2 right; left].
Defined.

(** ** [preprocess]: what it leaves in the model *)

Section PreprocessFacts.
Context {feature : Type}.
Variable extract_features :
  data_file → bool → result (list (@sequence feature) * list (list label)).

Lemma foldM_app {A S} (body : S → A → @M feature S) (l1 l2 : list A) : ∀ s w,
  foldM body s (l1 ++ l2) w
  = match foldM body s l1 w with
    | (Ok s', w') => foldM body s' l2 w'
    | (Raise e, w') => (Raise e, w')
    end.
Proof.
  induction l1 as [|x l1 IH]; intros s w; simpl; [done|].
  unfold mbind, M_bind. destruct (body s x w) as [[s'|e] w']; [apply IH|done].
Qed.

Lemma log_extract_run (b : bool) (files : list data_file) : ∀ X y en d t a tr,
  foldM (λ (_ : ()) f, log (EvExtract (feature := feature) f b)) () files
    (World X y en d t a tr)
  = (Ok (), World X y en d t a (tr ++ map (λ f, EvExtract f b) files)).
Proof.
  induction files as [|f files IH]; intros X y en d t a tr; simpl.
  - by rewrite app_nil_r.
  - unfold mbind, M_bind, log, modify. simpl. rewrite IH. by rewrite <- app_assoc.
Qed.

Lemma collect_run (b : bool) (files : list data_file) : ∀ pairs X y en d t a tr,
  mapM (λ f, extract_features f b) files = Ok pairs →
  foldM (λ u f, append_extracted extract_features u f b) () files
    (World (Some X) (Some y) en d t a tr)
  = (Ok (), World (Some (X ++ concat pairs.*1)) (Some (y ++ concat pairs.*2)) en d t a tr).
Proof.
  induction files as [|f files IH]; intros pairs X y en d t a tr Hpairs.
  - simpl in Hpairs. injection Hpairs as <-. simpl. by rewrite !app_nil_r.
  - apply mapM_cons_Ok in Hpairs as ([features labels] & pairs' & -> & Hf & Hpairs).
    simpl. unfold mbind at 1, M_bind at 1, append_extracted. rewrite Hf.
    unfold lift, gets, set_X_data, set_y_data, modify, mbind, M_bind. simpl.
    rewrite (IH pairs') by done. by rewrite <- !app_assoc.
Qed.

Lemma collect_fail (b : bool) (f : data_file) (post : list data_file) (e : exn) :
  ∀ X y en d t a tr,
  extract_features f b = Raise e →
  foldM (λ u f, append_extracted extract_features u f b) () (f :: post)
    (World (Some X) (Some y) en d t a tr)
  = (Raise e, World (Some X) (Some y) en d t a tr).
Proof.
  intros X y en d t a tr Hf. simpl.
  unfold mbind at 1, M_bind at 1, append_extracted. rewrite Hf. done.
Qed.

Lemma extract_in_turn_run (b : bool) (files : list data_file) : ∀ pairs X y en d t a tr,
  mapM (λ f, extract_features f b) files = Ok pairs →
  foldM (λ u f, log (EvExtract f b);; append_extracted extract_features u f b) () files
    (World (Some X) (Some y) en d t a tr)
  = (Ok (), World (Some (X ++ concat pairs.*1)) (Some (y ++ concat pairs.*2)) en d t a
              (tr ++ map (λ f, EvExtract f b) files)).
Proof.
  induction files as [|f files IH]; intros pairs X y en d t a tr Hpairs.
  - simpl in Hpairs. injection Hpairs as <-. simpl. by rewrite !app_nil_r.
  - apply mapM_cons_Ok in Hpairs as ([features labels] & pairs' & -> & Hf & Hpairs).
    simpl. unfold mbind at 1 2, M_bind at 1 2, log, modify, append_extracted.
    simpl. rewrite Hf.
    unfold lift, gets, set_X_data, set_y_data, modify, mbind, M_bind. simpl.
    rewrite (IH pairs') by done. by rewrite <- !app_assoc.
Qed.

(** The run of [preprocess] when every file can be extracted. *)
Lemma preprocess_run (ds : dataset) (async : bool) (w : @world feature)
    (pairs : list (list (@sequence feature) * list (list label))) :
  mapM (λ f, extract_features f (is_metamapped ds)) (data_files ds) = Ok pairs →
  preprocess extract_features (Some ds) async w
  = (Ok (), World (Some (concat pairs.*1)) (Some (concat pairs.*2)) (entities w) (dirs w)
              (texts w) (ann_files w)
              (trace w ++ map (λ f, EvExtract f (is_metamapped ds)) (data_files ds))).
Proof.
  intros Hpairs. destruct w as [X y en d t a tr]. unfold preprocess.
  unfold mbind at 1 2, M_bind at 1 2, set_X_data, set_y_data, modify. simpl.
  destruct async.
  - unfold mbind, M_bind. rewrite log_extract_run.
    by rewrite (collect_run _ _ pairs).
  - by rewrite (extract_in_turn_run _ _ pairs).
Qed.

(** X6. When every file can be extracted, [preprocess] does the same
    whether asynchronous or not: it forgets what the model held and leaves
    the sequences and the labels of the files, concatenated in the order of
    the files. *)
Theorem preprocess_collects (ds : dataset) (w : @world feature)
    (pairs : list (list (@sequence feature) * list (list label))) :
  mapM (λ f, extract_features f (is_metamapped ds)) (data_files ds) = Ok pairs →
  preprocess extract_features (Some ds) true w
  = preprocess extract_features (Some ds) false w
  ∧ ∀ async,
      (preprocess extract_features (Some ds) async w).1 = Ok ()
      ∧ X_data (preprocess extract_features (Some ds) async w).2 = Some (concat pairs.*1)
      ∧ y_data (preprocess extract_features (Some ds) async w).2 = Some (concat pairs.*2).
Proof.
  intros Hpairs. split.
  - by rewrite !(preprocess_run ds _ w pairs).
  - intros async. by rewrite (preprocess_run ds async w pairs).
Qed.

(** X7. When the extraction of a file raises, [preprocess] raises the same
    and the model holds the data of the files before it; without the pool
    no later file has been handed to the extractor, with the pool all
    have. *)
Theorem preprocess_stops_at_failure (ds : dataset) (async : bool) (w : @world feature)
    (pre post : list data_file) (f : data_file) (e : exn)
    (pairs : list (list (@sequence feature) * list (list label))) :
  data_files ds = pre ++ f :: post →
  mapM (λ f, extract_features f (is_metamapped ds)) pre = Ok pairs →
  extract_features f (is_metamapped ds) = Raise e →
  preprocess extract_features (Some ds) async w
  = (Raise e,
     World (Some (concat pairs.*1)) (Some (concat pairs.*2)) (entities w) (dirs w)
       (texts w) (ann_files w)
       (trace w ++ map (λ f, EvExtract f (is_metamapped ds))
                     (if async then data_files ds else pre ++ [f]))).
Proof.
  intros Hfiles Hpairs Hf. destruct w as [X y en d t a tr]. unfold preprocess.
  unfold mbind at 1 2, M_bind at 1 2, set_X_data, set_y_data, modify. simpl.
  destruct async.
  - unfold mbind, M_bind. rewrite log_extract_run. rewrite Hfiles at 1.
    rewrite foldM_app, (collect_run _ _ pairs) by done.
    by rewrite (collect_fail _ f post e).
  - rewrite Hfiles, foldM_app, (extract_in_turn_run _ _ pairs) by done. simpl.
    unfold mbind at 1 2, M_bind at 1 2, log, modify, append_extracted. simpl.
    rewrite Hf. simpl. by rewrite map_app, <- app_assoc.
Qed.

End PreprocessFacts.

(** ** [cross_validate]: further runs *)

(** Events that leave the disk alone. *)
Definition off_disk {feature : Type} (ev : @event feature) : Prop :=
  written [ev] = [] ∧ made [ev] = [].

Lemma off_disk_all {feature : Type} (evs : list (@event feature)) :
  Forall off_disk evs → written evs = [] ∧ made evs = [].
Proof.
  induction 1 as [|ev evs [Hw Hm] _ [IHw IHm]]; [done|].
  change (ev :: evs) with ([ev] ++ evs). by rewrite written_app, made_app, Hw, Hm.
Qed.

Lemma fold_event_off_disk {feature : Type} (tagset : list label) (ev : @event feature) :
  fold_event tagset ev → off_disk ev.
Proof. by destruct ev. Qed.

Lemma returns_bind_use {feature A B : Type} (Q1 : A → Prop) (Q : B → Prop)
    (m : @M feature A) (k : A → M B) :
  returns Q1 m → (∀ a, Q1 a → returns Q (k a)) → returns Q (m ≫= k).
Proof.
  intros Hm Hk w b w'. unfold mbind, M_bind.
  destruct (m w) as [[a|e] w1] eqn:Hrun; [|done].
  apply Hk. by eapply Hm.
Qed.

Lemma returns_foldM_prefix {feature A S : Type} (I : list A → S → Prop)
    (body : S → A → @M feature S) (l : list A) (s0 : S) :
  I [] s0 →
  (∀ done a s, I done s → returns (I (done ++ [a])) (body s a)) →
  returns (I l) (foldM body s0 l).
Proof.
  intros H0 Hbody.
  cut (∀ done s, I done s → returns (I (done ++ l)) (foldM body s l)).
  { intros H. by apply (H [] s0). }
  induction l as [|x l IH]; intros done s Hs.
  - rewrite app_nil_r. simpl. by apply returns_ret.
  - simpl. apply (returns_bind_use (I (done ++ [x]))); [by apply Hbody|].
    intros s' Hs'. replace (done ++ x :: l) with ((done ++ [x]) ++ l)
      by (by rewrite <- app_assoc).
    by apply IH.
Qed.

(** A row for every label of the tag set and for ["system"], and no
    other. *)
Definition has_rows {V : Type} (tagset : list label) (rows : gmap string V) : Prop :=
  ∀ l, is_Some (rows !! l) ↔ l ∈ tagset ∨ l = "system".

Section RunFacts.
Context {feature learner : Type}.
Variable extract_features :
  data_file → bool → result (list (@sequence feature) * list (list label)).
Variable cv :
  Z → list (@sequence feature) → list (list label) → result (list (list Z * list Z)).
Variable learner_fit : list (list feature) → list (list label) → result learner.
Variable learner_predict : learner → list (list feature) → result (list (list label)).
Variable flat_score :
  metric → list (list label) → list (list label) → list label → result Q.
Variable rnd : Q → Q.

(** X8. Called with more than one fold and neither a data set nor a
    directory, [cross_validate] raises a [TypeError] (from iterating over
    [None]) after [preprocess] has emptied the data the model held. *)
Theorem cross_validate_without_dataset_resets (num_folds : Z) (async : bool)
    (w : @world feature) :
  1 < num_folds →
  cross_validate extract_features cv learner_fit learner_predict flat_score rnd
    num_folds None PNone PNone async w
  = (Raise TypeError,
     World (Some []) (Some []) (entities w) (dirs w) (texts w) (ann_files w) (trace w)).
Proof.
  intros Hfolds. unfold cross_validate. rewrite bool_decide_false by lia.
  by destruct w.
Qed.

Lemma steps_cross_validate_off_disk (num_folds : Z) (training_dataset : option dataset)
    (pd gd : pyval) (async : bool) :
  truthy pd = false →
  steps (extends off_disk false)
    (cross_validate extract_features cv learner_fit learner_predict flat_score rnd
       num_folds training_dataset pd gd async).
Proof.
  intros Hpd. unfold cross_validate. rewrite Hpd.
  repeat first
    [ progress cbv iota
    | apply steps_preprocess; by intros
    | apply steps_log; [done|done|done]
    | eapply steps_weaken; [apply fold_event_off_disk|done|apply steps_evaluate_fold]
    | steps_step ].
Qed.

Lemma returns_cross_validate_none (num_folds : Z) (training_dataset : option dataset)
    (pd gd : pyval) (async : bool) :
  truthy pd = false →
  returns (λ ret, ret = None)
    (cross_validate extract_features cv learner_fit learner_predict flat_score rnd
       num_folds training_dataset pd gd async).
Proof.
  intros Hpd. unfold cross_validate. rewrite Hpd.
  repeat first
    [ progress cbv iota
    | apply returns_raise
    | by apply returns_ret
    | apply returns_bind; intros ?
    | match goal with |- returns _ (match ?x with _ => _ end) => destruct x end ].
Qed.

(** X9. Without a [prediction_directory] that is true in an [if] ([None],
    the empty string or [False]), [cross_validate] leaves the disk as it
    is, whatever else it is given and however it ends: no directory is made
    and no file written; and when it returns, it returns [None]. *)
Theorem cross_validate_without_prediction_directory (num_folds : Z)
    (training_dataset : option dataset) (pd gd : pyval) (async : bool)
    (w : @world feature) :
  truthy pd = false →
  let run := cross_validate extract_features cv learner_fit learner_predict flat_score rnd
               num_folds training_dataset pd gd async w in
  dirs run.2 = dirs w ∧ ann_files run.2 = ann_files w ∧ texts run.2 = texts w
  ∧ match run.1 with Ok ret => ret = None | Raise _ => True end.
Proof.
  intros Hpd run.
  destruct (steps_cross_validate_off_disk num_folds training_dataset pd gd async Hpd
              w run.1 run.2 (surjective_pairing _))
    as (evs & _ & Hoff & _ & Ht & Hd & Hkeep & _).
  destruct (off_disk_all evs Hoff) as [Hw Hm]. rewrite Hm in Hd. rewrite Hw in Hkeep.
  split; [set_solver|]. split; [|split; [done|]].
  - apply map_eq. intros p. apply Hkeep. apply not_elem_of_nil.
  - destruct run.1 as [ret|] eqn:Hret; [|done].
    apply (returns_cross_validate_none num_folds training_dataset pd gd async Hpd
             w ret run.2).
    rewrite <- Hret. apply surjective_pairing.
Qed.

(** C7, on the code. A [groundtruth_directory] given without a
    [prediction_directory] is taken as a request: without a data set the
    call is refused (lines 175-177), and every fold that returns has
    reconstructed the groundtruth spans of its test sequences into the
    dictionary (lines 222-247), the one of the predictions being left as it
    is. The request is then dropped: the block that writes the annotations
    is under [if prediction_directory:] (line 328), so with a data set the
    call makes no directory and writes no annotation file, and when it
    returns, it returns [None]. *)
Theorem groundtruth_directory_alone_is_dropped (num_folds : Z) (gd : pyval)
    (async : bool) (w : @world feature) :
  1 < num_folds → is_none gd = false →
  cross_validate extract_features cv learner_fit learner_predict flat_score rnd
    num_folds None PNone gd async w
  = (Raise (ValueError "Cannot generate groundtruth during cross validation if training dataset is not given. Please pass the training dataset in the 'training_dataset' parameter."),
     w)
  ∧ (∀ (X : list (@sequence feature)) (Y : list (list label)) (tagset : list label)
       (st st' : cv_state) (train_indices test_indices : list Z) (w1 w2 : @world feature),
       evaluate_fold learner_fit learner_predict flat_score X Y tagset PNone gd st
         (train_indices, test_indices) w1 = (Ok st', w2) →
       ∃ X_test y_test,
         mapM (getitem_Z X) test_indices = Ok X_test
         ∧ mapM (getitem_Z Y) test_indices = Ok y_test
         ∧ Spans.reconstruct_spans (flat_labels y_test) (span_indices X_test)
             (document_indices X_test) (groundtruth_by_document st)
           = Ok (groundtruth_by_document st')
         ∧ preds_by_document st' = preds_by_document st)
  ∧ (∀ ds : dataset,
       let run := cross_validate extract_features cv learner_fit learner_predict
                    flat_score rnd num_folds (Some ds) PNone gd async w in
       dirs run.2 = dirs w ∧ ann_files run.2 = ann_files w
       ∧ match run.1 with Ok ret => ret = None | Raise _ => True end).
Proof.
  intros Hfolds Hgd. split; [|split].
  - unfold cross_validate. rewrite bool_decide_false by lia.
    rewrite Hgd. by simpl.
  - intros X Y tagset st st' train_indices test_indices w1 w2.
    unfold evaluate_fold. rewrite Hgd. simpl.
    unfold log, lift, modify, mbind, M_bind, mret, M_ret. simpl.
    destruct (mapM (getitem_Z X) train_indices) as [X_train|]; [|done].
    destruct (mapM (getitem_Z Y) train_indices) as [y_train|]; [|done].
    destruct (mapM (getitem_Z X) test_indices) as [X_test|]; [|done].
    destruct (mapM (getitem_Z Y) test_indices) as [y_test|]; [|done].
    destruct (learner_fit _ y_train) as [fitted|]; [|done].
    destruct (learner_predict fitted _) as [y_pred|]; [|done].
    destruct (Spans.reconstruct_spans _ _ _ _) as [groundtruth|] eqn:Hspans; [|done].
    destruct (foldM _ _ _ _) as [[fold_statistics|] w3]; [|done].
    destruct (fold_scores _ _ _ _ _) as [[system|] w4]; [|done].
    intros [= <- <-]. exists X_test, y_test. by simpl.
  - intros ds run.
    destruct (steps_cross_validate_off_disk num_folds (Some ds) PNone gd async eq_refl
                w run.1 run.2 (surjective_pairing _))
      as (evs & _ & Hoff & _ & _ & Hd & Hkeep & _).
    destruct (off_disk_all evs Hoff) as [Hw Hm]. rewrite Hm in Hd. rewrite Hw in Hkeep.
    split; [set_solver|]. split.
    + apply map_eq. intros p. apply Hkeep. apply not_elem_of_nil.
    + destruct run.1 as [ret|] eqn:Hret; [|done].
      apply (returns_cross_validate_none num_folds (Some ds) PNone gd async eq_refl
               w ret run.2).
      rewrite <- Hret. apply surjective_pairing.
Qed.

Lemma aggregate_statistics_no_folds (tagset : list label) :
  aggregate_statistics rnd tagset [] = Raise StatisticsError.
Proof. unfold aggregate_statistics. by destruct tagset. Qed.

(** X10. When the splitter returns no fold, [cross_validate] raises a
    [StatisticsError] (the mean of no value) after having set the entities
    of the pipeline; nothing has been fitted and the disk is as it was. *)
Theorem cross_validate_without_folds (num_folds : Z) (ds : dataset) (pd gd : pyval)
    (async : bool) (w : @world feature)
    (pairs : list (list (@sequence feature) * list (list label))) :
  1 < num_folds →
  mapM (λ f, extract_features f (is_metamapped ds)) (data_files ds) = Ok pairs →
  cv num_folds (concat pairs.*1) (concat pairs.*2) = Ok [] →
  cross_validate extract_features cv learner_fit learner_predict flat_score rnd
    num_folds (Some ds) pd gd async w
  = (Raise StatisticsError,
     World (Some (concat pairs.*1)) (Some (concat pairs.*2))
       (Some (compute_tagset (concat pairs.*2))) (dirs w) (texts w) (ann_files w)
       (trace w ++ map (λ f, EvExtract f (is_metamapped ds)) (data_files ds)
                ++ [EvSplit num_folds (concat pairs.*1) (concat pairs.*2)])).
Proof.
  intros Hfolds Hpairs Hcv. unfold cross_validate.
  rewrite bool_decide_false by lia.
  rewrite (bool_decide_false (Some ds = None)) by done. rewrite !andb_false_r.
  unfold mbind at 1, M_bind at 1. rewrite (preprocess_run _ ds async w pairs Hpairs).
  unfold mbind at 1 2, M_bind at 1 2, gets at 1 2. simpl.
  unfold mbind at 1 2 3, M_bind at 1 2 3, set_entities, log, modify, lift. simpl.
  rewrite Hcv. simpl. unfold mbind, M_bind. simpl.
  rewrite aggregate_statistics_no_folds. by rewrite <- app_assoc.
Qed.

(** *** The statistics of the folds can always be aggregated *)

Lemma returns_evaluate_fold (X : list (@sequence feature)) (Y : list (list label))
    (tagset : list label) (pd gd : pyval) (st : cv_state) (fold : list Z * list Z) :
  returns (λ st', ∃ rows, evaluation_statistics st' = evaluation_statistics st ++ [rows]
                          ∧ has_rows tagset rows)
    (evaluate_fold learner_fit learner_predict flat_score X Y tagset pd gd st fold).
Proof.
  unfold evaluate_fold. destruct fold as [train_indices test_indices].
  do 11 (apply returns_bind; intros ?).
  apply (returns_bind_use (λ rows : gmap string scores, ∀ l, is_Some (rows !! l) ↔ l ∈ tagset)).
  - apply (returns_foldM_prefix
             (λ done (rows : gmap string scores), ∀ l, is_Some (rows !! l) ↔ l ∈ done)).
    + intros l. rewrite lookup_empty, elem_of_nil. split; [by intros [??]|done].
    + intros done lbl rows Hrows. apply returns_bind. intros s. apply returns_ret.
      intros l. rewrite lookup_insert_is_Some', elem_of_app, list_elem_of_singleton, Hrows.
      naive_solver.
  - intros rows Hrows. apply returns_bind. intros sys. apply returns_ret.
    eexists. split; [reflexivity|].
    intros l. rewrite lookup_insert_is_Some', Hrows. naive_solver.
Qed.

Lemma column_Ok (key : scores → Q) (es : list (gmap string scores)) (label : string) :
  (∀ rows, rows ∈ es → is_Some (rows !! label)) →
  ∃ xs, column key es label = Ok xs ∧ length xs = length es.
Proof.
  unfold column. induction es as [|rows es IH]; intros Hrows; simpl.
  - by exists [].
  - destruct (Hrows rows) as [s Hs]; [left|]. rewrite Hs. simpl.
    destruct IH as (xs & -> & Hlen); [intros ? ?; apply Hrows; by right|].
    simpl. exists (key s :: xs). split; [done|simpl; lia].
Qed.

Lemma aggregate_label_Ok (es : list (gmap string scores)) (label : string) :
  es ≠ [] → (∀ rows, rows ∈ es → is_Some (rows !! label)) →
  ∃ a, aggregate_label rnd es label = Ok a.
Proof.
  intros Hne Hrows. unfold aggregate_label.
  assert (Hcol : ∀ key, ∃ x xs, column key es label = Ok (x :: xs)).
  { intros key. destruct (column_Ok key es label Hrows) as ([|x xs] & Hxs & Hlen).
    - destruct es; [done|simpl in Hlen; lia].
    - eauto. }
  destruct (Hcol precision) as (p & ps & ->). destruct (Hcol recall) as (r & rs & ->).
  destruct (Hcol f1) as (f & fs & ->). simpl. eauto.
Qed.

Lemma aggregate_labels_Ok (es : list (gmap string scores)) (labels : list label) :
  (∀ l, l ∈ labels → ∃ a, aggregate_label rnd es l = Ok a) →
  ∀ acc, ∃ stats, aggregate_labels rnd es labels acc = Ok stats
    ∧ ∀ l, is_Some (stats !! l) ↔ l ∈ labels ∨ is_Some (acc !! l).
Proof.
  induction labels as [|label labels IH]; intros Hall acc; simpl.
  - exists acc. split; [done|]. intros l. rewrite elem_of_nil. naive_solver.
  - destruct (Hall label) as [a Ha]; [left|]. rewrite Ha. simpl.
    destruct (IH (λ l Hl, Hall l (list_elem_of_further _ _ _ Hl)) (<[label := a]> acc))
      as (stats & -> & Hstats).
    exists stats. split; [done|]. intros l.
    rewrite Hstats, lookup_insert_is_Some', elem_of_cons. naive_solver.
Qed.

(** X11. Once the loop over the folds has returned, the aggregation cannot
    fail: there is one row of statistics per fold, each with a row for every
    label of the tag set and for ["system"], so that with at least one fold
    [aggregate_statistics] returns, with exactly these rows. With X10, the
    aggregation fails only when there is no fold. *)
Theorem folds_can_be_aggregated (X : list (@sequence feature)) (Y : list (list label))
    (tagset : list label) (pd gd : pyval) (folds : list (list Z * list Z))
    (groundtruth0 preds0 : gmap string (list tagged_span))
    (w w' : @world feature) (st : cv_state) :
  foldM (evaluate_fold learner_fit learner_predict flat_score X Y tagset pd gd)
    (CvState [] groundtruth0 preds0) folds w = (Ok st, w') →
  folds ≠ [] →
  length (evaluation_statistics st) = length folds
  ∧ ∃ stats, aggregate_statistics rnd tagset (evaluation_statistics st) = Ok stats
      ∧ has_rows tagset stats.
Proof.
  intros Hrun Hne.
  assert (Hinv : length (evaluation_statistics st) = length folds
                 ∧ Forall (has_rows tagset) (evaluation_statistics st)).
  { revert w st w' Hrun.
    apply (returns_foldM_prefix
             (λ (done : list (list Z * list Z)) (st : cv_state),
                length (evaluation_statistics st) = length done
                ∧ Forall (has_rows tagset) (evaluation_statistics st))).
    - split; [done|constructor].
    - intros done fold st [Hlen Hall].
      intros w st' w' Hfold.
      destruct (returns_evaluate_fold X Y tagset pd gd st fold w st' w' Hfold)
        as (rows & -> & Hrows).
      split; [rewrite !length_app; simpl; lia|].
      apply Forall_app. split; [done|by constructor]. }
  destruct Hinv as [Hlen Hall]. split; [done|].
  assert (Hes : evaluation_statistics st ≠ []).
  { intros Hnil. rewrite Hnil in Hlen. destruct folds; [done|simpl in Hlen; lia]. }
  destruct (aggregate_labels_Ok (evaluation_statistics st) (tagset ++ ["system"])) with (acc := (∅ : gmap string aggregate))
    as (stats & Hstats & Hkeys).
  - intros l Hl. apply aggregate_label_Ok; [done|].
    intros rows Hrows. rewrite Forall_forall in Hall. apply (Hall rows Hrows).
    rewrite elem_of_app, list_elem_of_singleton in Hl. done.
  - exists stats. split; [done|]. intros l.
    rewrite Hkeys, lookup_empty, elem_of_app, list_elem_of_singleton.
    split; [intros [?|[? ?]]; done|auto].
Qed.

End RunFacts.

(** ** Paths and directories *)

Lemma split_path_cons (path : string) : ∃ comp comps, split_path path = comp :: comps.
Proof.
  destruct path as [|c path]; simpl; [eauto|].
  destruct (Ascii.eqb c "/"); [eauto|]. destruct (split_path path); eauto.
Qed.

Lemma split_path_app (a b : string) :
  split_path (a ++ "/" ++ b) = split_path a ++ split_path b.
Proof.
  induction a as [|c a IH]; [done|].
  change (String c a ++ "/" ++ b)%string with (String c (a ++ "/" ++ b)).
  cbn [split_path]. rewrite IH.
  destruct (Ascii.eqb c "/"); [done|].
  by destruct (split_path_cons a) as (comp & comps & ->).
Qed.

Lemma ends_with_sep_app (a : string) :
  ends_with_sep a = true → ∃ a0, a = (a0 ++ "/")%string.
Proof.
  induction a as [|c a IH]; [done|]. destruct a as [|c' a].
  - simpl. intros ->%Ascii.eqb_eq. by exists "".
  - intros Hsep. destruct IH as [a0 Ha0]; [done|]. exists (String c a0).
    change (String c (String c' a) = String c (a0 ++ "/")%string). by rewrite <- Ha0.
Qed.

Lemma string_app_assoc (a b c : string) : ((a ++ b) ++ c = a ++ b ++ c)%string.
Proof.
  induction a as [|x a IH]; [done|].
  change (String x ((a ++ b) ++ c) = String x (a ++ b ++ c))%string. by rewrite IH.
Qed.

Lemma starts_with_sep_app (a b : string) :
  a ≠ "" → starts_with_sep (a ++ b) = starts_with_sep a.
Proof. by destruct a. Qed.

Lemma walk_app (absolute : bool) (comps1 comps2 : list string) : ∀ stack,
  walk absolute stack (comps1 ++ comps2)
  = walk absolute stack comps1
    ++ walk absolute (foldl (walk_step absolute) stack comps1) comps2.
Proof. induction comps1 as [|c comps1 IH]; intros stack; simpl; [done|]. by rewrite IH. Qed.

Lemma drop_trailing_empty_snoc (comps : list string) (comp : string) :
  String.eqb comp "" = false → drop_trailing_empty (comps ++ [comp]) = comps ++ [comp].
Proof.
  intros Hcomp. induction comps as [|c comps IH]; simpl; [by rewrite Hcomp|].
  rewrite IH. by destruct comps.
Qed.

Lemma removelast_snoc {A} (l : list A) (x : A) : removelast (l ++ [x]) = l.
Proof. rewrite removelast_app by done. simpl. apply app_nil_r. Qed.

Lemma named_app (absolute : bool) (stacks1 stacks2 : list (list string)) :
  named absolute (stacks1 ++ stacks2) = named absolute stacks1 ++ named absolute stacks2.
Proof. unfold named. by rewrite filter_app, map_app. Qed.

(** A plain name: one component that is neither empty nor a dot name. *)
Definition plain_name (name : string) : Prop :=
  split_path name = [name] ∧ starts_with_sep name = false
  ∧ String.eqb name "" = false ∧ String.eqb name "." = false
  ∧ String.eqb name ".." = false.

(** The components of [os.path.join(parent, name)]: those of [parent], an
    empty one at the end apart, then [name]. *)
Lemma os_path_join_components (parent name : string) :
  parent ≠ "" → plain_name name →
  starts_with_sep (os_path_join parent name) = starts_with_sep parent
  ∧ ∃ before rest, split_path (os_path_join parent name) = before ++ [name]
                   ∧ split_path parent = before ++ rest.
Proof.
  intros Hparent (Hsplit & Hstart & _). unfold os_path_join. rewrite Hstart.
  apply String.eqb_neq in Hparent as Hne. rewrite Hne. simpl.
  destruct (ends_with_sep parent) eqn:Hsep.
  - split; [by apply starts_with_sep_app|].
    apply ends_with_sep_app in Hsep as [a0 ->].
    exists (split_path a0), [""].
    rewrite string_app_assoc, split_path_app, Hsplit.
    split; [done|apply (split_path_app a0 "")].
  - split; [by apply starts_with_sep_app|].
    exists (split_path parent), []. by rewrite split_path_app, Hsplit, app_nil_r.
Qed.

Lemma os_path_join_not_empty (parent name : string) :
  plain_name name → os_path_join parent name ≠ "".
Proof.
  intros (_ & Hstart & Hne & _). unfold os_path_join. rewrite Hstart.
  apply String.eqb_neq in Hne.
  destruct (_ || _); destruct parent; by simpl.
Qed.

Lemma drop_trailing_empty_nil (comps : list string) :
  Forall (λ comp, comp = "") comps → drop_trailing_empty comps = [].
Proof. induction 1 as [|comp comps -> _ IH]; simpl; [done|]. by rewrite IH. Qed.

Lemma drop_trailing_empty_app (comps : list string) (comp : string)
    (trailing : list string) :
  String.eqb comp "" = false → Forall (λ comp, comp = "") trailing →
  drop_trailing_empty (comps ++ comp :: trailing) = comps ++ [comp].
Proof.
  intros Hcomp Htrailing.
  induction comps as [|c comps IH]; simpl.
  - by rewrite drop_trailing_empty_nil, Hcomp.
  - rewrite IH. by destruct comps.
Qed.

Lemma walk_trailing (absolute : bool) (stack : list string) (trailing : list string) :
  Forall (λ comp, comp = "") trailing →
  walk absolute stack trailing = map (λ _, stack) trailing.
Proof.
  induction 1 as [|comp comps -> _ IH]; [done|].
  cbn [walk map]. change (walk_step absolute stack "") with stack. by rewrite IH.
Qed.

(** In a directory that is there, a plain name that is no directory yet
    can be made: the last [mkdir] does not find it in place. The path may
    end in separators. *)
Lemma mkdir_child (on_disk : gset string) (parent name path : string)
    (before rest trailing : list string) :
  isdir on_disk parent = true → plain_name name → path ≠ "" →
  starts_with_sep path = starts_with_sep parent →
  split_path parent = before ++ rest →
  split_path path = before ++ name :: trailing →
  Forall (λ comp, comp = "") trailing →
  isdir on_disk path = false → mkdir_fails on_disk path = false.
Proof.
  intros [Hparent Hthere]%isdir_spec (_ & _ & Hne & Hdot & Hdotdot) Hpath Habs Hsplit
         Hcomps Htrailing Hnew.
  assert (Hstep : ∀ stack, walk_step (starts_with_sep parent) stack name = name :: stack).
  { intros stack. unfold walk_step. by rewrite Hne, Hdot, Hdotdot. }
  assert (Hbefore : ∀ d, d ∈ named (starts_with_sep parent)
                              (walk (starts_with_sep parent) [] before) → d ∈ on_disk).
  { intros d Hd. apply Hthere. unfold directories_of.
    rewrite Hsplit, walk_app, named_app, elem_of_app. by left. }
  set (final := name :: foldl (walk_step (starts_with_sep parent)) [] before).
  assert (Halways : always_there final = false).
  { unfold final, always_there. cbn [forallb]. by rewrite String.eqb_sym, Hdotdot. }
  assert (Hfinal : location_name (starts_with_sep parent) final ∉ on_disk).
  { intros Hin. apply not_true_iff_false in Hnew. apply Hnew, isdir_spec.
    split; [done|].
    intros d. unfold directories_of. rewrite Habs, Hcomps, walk_app, named_app.
    cbn [foldl walk]. rewrite Hstep. fold final.
    rewrite (walk_trailing _ _ trailing) by done. unfold named at 2.
    rewrite elem_of_app, list_elem_of_fmap.
    intros [Hd|(stack & -> & Hstack)]; [auto|].
    apply list_elem_of_filter in Hstack as [_ Hstack].
    apply elem_of_cons in Hstack as [->|Hstack]; [done|].
    by apply list_elem_of_fmap in Hstack as (_ & -> & _). }
  unfold mkdir_fails. rewrite Habs, Hcomps.
  rewrite drop_trailing_empty_app by done. rewrite last_snoc, Hdot, removelast_snoc.
  rewrite walk_app. simpl. rewrite Hstep, last_snoc. fold final. rewrite Halways. simpl.
  apply bool_decide_eq_false. rewrite elem_of_union, elem_of_list_to_set. intros [?|?]; auto.
Qed.

Lemma mkdir_in_directory (on_disk : gset string) (parent name : string) :
  isdir on_disk parent = true → plain_name name →
  isdir on_disk (os_path_join parent name) = false →
  mkdir_fails on_disk (os_path_join parent name) = false.
Proof.
  intros Hparent Hname.
  pose proof Hparent as [Hne _]%isdir_spec.
  destruct (os_path_join_components parent name Hne Hname)
    as (Habs & before & rest & Hjoin & Hsplit).
  apply (mkdir_child on_disk parent name _ before rest []); try done.
  by apply os_path_join_not_empty.
Qed.

(** The same for the directory [<parent>/<name>/] that
    [create_annotation_directory] builds when it is given no string. *)
Lemma mkdir_default_directory (on_disk : gset string) (parent name : string) :
  isdir on_disk parent = true → plain_name name →
  isdir on_disk (parent ++ "/" ++ name ++ "/") = false →
  mkdir_fails on_disk (parent ++ "/" ++ name ++ "/") = false.
Proof.
  intros Hparent Hname.
  pose proof Hparent as [Hne _]%isdir_spec.
  pose proof Hname as (Hsplit & _).
  apply (mkdir_child on_disk parent name _ (split_path parent) [] [""]); try done.
  - by destruct parent.
  - by apply starts_with_sep_app.
  - by rewrite app_nil_r.
  - rewrite split_path_app. f_equal.
    change (name ++ "/")%string with (name ++ "/" ++ "")%string.
    by rewrite split_path_app, Hsplit.
  - by repeat constructor.
Qed.

Lemma plain_name_predictions : plain_name "predictions".
Proof. by repeat split. Qed.

Lemma plain_name_groundtruth : plain_name "groundtruth".
Proof. by repeat split. Qed.

(** ** Writing the annotations *)

Section WriteFacts.
Context {feature : Type}.

(** The world after [to_ann] has written, for each of [files] in turn, the
    raw text of the file and the tuples that [by_document] holds for it. *)
Definition after_writes (directory : string) (by_document : gmap string (list tagged_span))
    (files : list data_file) (w : @world feature) : @world feature :=
  foldl (λ w f,
           let path := os_path_join directory (file_name f ++ ".ann")%string in
           World (X_data w) (y_data w) (entities w) (dirs w) (texts w)
             (<[path := Annotations (default "" (texts w !! raw_path f))
                          (default [] (by_document !! file_name f))]> (ann_files w))
             (trace w ++ [EvToAnn path]))
        w files.

(** The dictionary that [predict_annotation_evaluation] reads: the
    groundtruth for the option ["groundtruth"], the predictions for any
    other. *)
Definition chosen (option : string) (preds gt : gmap string (list tagged_span))
  : gmap string (list tagged_span) :=
  if String.eqb option "groundtruth" then gt else preds.

(** The body of the loop of [predict_annotation_evaluation]. *)
Definition write_one (directory : string) (preds gt : gmap string (list tagged_span))
    (option : string) (_ : Datatypes.option annotations) (data_file : data_file)
  : @M feature (Datatypes.option annotations) :=
  doc ← read_text (raw_path data_file);
  preds ← lift (match (if String.eqb option "groundtruth" then gt else preds)
                        !! file_name data_file with
                | Some preds => Ok preds
                | None => Raise KeyError
                end);
  let annotations := Annotations doc preds in
  to_ann annotations (os_path_join directory (file_name data_file ++ ".ann")%string);;
  mret (Some annotations).

Lemma predict_annotation_evaluation_loop (directory : string) (ds : dataset)
    (preds gt : gmap string (list tagged_span)) (option : string) :
  predict_annotation_evaluation (feature := feature) directory ds preds gt option
  = (last_written ← foldM (write_one directory preds gt option) None (data_files ds);
     match last_written with
     | Some annotations => mret annotations
     | None => raise UnboundLocalError
     end).
Proof. reflexivity. Qed.

Lemma after_writes_texts directory by_document files : ∀ w,
  texts (after_writes directory by_document files w) = texts w.
Proof.
  unfold after_writes. induction files as [|f files IH]; intros w; simpl; [done|].
  by rewrite IH.
Qed.

Lemma after_writes_dirs directory by_document files : ∀ w,
  dirs (after_writes directory by_document files w) = dirs w.
Proof.
  unfold after_writes. induction files as [|f files IH]; intros w; simpl; [done|].
  by rewrite IH.
Qed.

Lemma after_writes_app directory by_document files1 files2 w :
  after_writes directory by_document (files1 ++ files2) w
  = after_writes directory by_document files2 (after_writes directory by_document files1 w).
Proof. unfold after_writes. apply foldl_app. Qed.

(** What the loop has returned after [files]: the annotations of the last
    of them. *)
Definition last_annotations (by_document : gmap string (list tagged_span))
    (w : @world feature) (acc : Datatypes.option annotations) (files : list data_file)
  : Datatypes.option annotations :=
  match last files with
  | Some f => Some (Annotations (default "" (texts w !! raw_path f))
                      (default [] (by_document !! file_name f)))
  | None => acc
  end.

Lemma write_loop_run directory preds gt option files : ∀ acc w,
  Forall (λ f, is_Some (texts w !! raw_path f)
               ∧ is_Some (chosen option preds gt !! file_name f)) files →
  foldM (write_one directory preds gt option) acc files w
  = (Ok (last_annotations (chosen option preds gt) w acc files),
     after_writes directory (chosen option preds gt) files w).
Proof.
  induction files as [|f files IH]; intros acc w Hall; [done|].
  apply Forall_cons in Hall as [[[t Ht] [l Hl]] Hall].
  simpl. unfold mbind at 1, M_bind at 1.
  assert (Hone : write_one directory preds gt option acc f w
                 = (Ok (Some (Annotations t l)),
                    after_writes directory (chosen option preds gt) [f] w)).
  { unfold write_one, read_text, gets, lift, to_ann, log, modify, mbind, M_bind.
    unfold chosen in Hl. rewrite Ht. simpl. rewrite Hl. simpl.
    unfold after_writes, chosen. simpl. by rewrite Ht, Hl. }
  rewrite Hone. rewrite IH.
  - assert (Hlast : last_annotations (chosen option preds gt)
                      (after_writes directory (chosen option preds gt) [f] w)
                      (Some (Annotations t l)) files
                    = last_annotations (chosen option preds gt) w acc (f :: files)).
    { unfold last_annotations. rewrite after_writes_texts.
      destruct files as [|f' files'].
      - simpl. rewrite Ht, Hl. reflexivity.
      - rewrite (last_cons_cons f f' files').
        destruct (last (f' :: files')) eqn:E; [done|]. by apply last_None in E. }
    rewrite Hlast. done.
  - eapply Forall_impl; [exact Hall|]. intros f' [H1 H2].
    by rewrite after_writes_texts.
Qed.

(** X12. [predict_annotation_evaluation] stops at the first data file whose
    raw text cannot be read ([IOError]) or, the text being read, whose file
    name is no key of the chosen dictionary ([KeyError]); the annotation
    files of the data files before it have been written and stay. *)
Theorem predict_annotation_evaluation_stops (directory : string) (ds : dataset)
    (preds gt : gmap string (list tagged_span)) (option : string)
    (pre post : list data_file) (f : data_file) (w : @world feature) :
  data_files ds = pre ++ f :: post →
  Forall (λ f, is_Some (texts w !! raw_path f)
               ∧ is_Some (chosen option preds gt !! file_name f)) pre →
  texts w !! raw_path f = None ∨ chosen option preds gt !! file_name f = None →
  predict_annotation_evaluation directory ds preds gt option w
  = (Raise (if texts w !! raw_path f is None then IOError else KeyError),
     after_writes directory (chosen option preds gt) pre w).
Proof.
  intros Hfiles Hpre Hf. rewrite predict_annotation_evaluation_loop.
  unfold mbind at 1, M_bind at 1. rewrite Hfiles, foldM_app, write_loop_run by done.
  simpl. unfold mbind at 1, M_bind at 1.
  unfold write_one, read_text, gets, lift, mbind, M_bind.
  rewrite after_writes_texts.
  destruct (texts w !! raw_path f) as [t|] eqn:Ht; simpl; [|done].
  destruct Hf as [?|Hf]; [done|]. unfold chosen in Hf. by rewrite Hf.
Qed.

(** X13. When every raw text can be read and every file name is a key,
    [predict_annotation_evaluation] returns the annotations of the last data
    file, made of its raw text and of the tuples the chosen dictionary holds
    for it, and they are on disk at [<directory>/<file_name>.ann]. *)
Theorem predict_annotation_evaluation_returns_last (directory : string) (ds : dataset)
    (preds gt : gmap string (list tagged_span)) (option : string)
    (init : list data_file) (f : data_file) (w : @world feature) :
  data_files ds = init ++ [f] →
  Forall (λ f, is_Some (texts w !! raw_path f)
               ∧ is_Some (chosen option preds gt !! file_name f)) (data_files ds) →
  ∃ text tuples,
    texts w !! raw_path f = Some text
    ∧ chosen option preds gt !! file_name f = Some tuples
    ∧ predict_annotation_evaluation directory ds preds gt option w
      = (Ok (Annotations text tuples),
         after_writes directory (chosen option preds gt) (data_files ds) w)
    ∧ ann_files (after_writes directory (chosen option preds gt) (data_files ds) w)
        !! os_path_join directory (file_name f ++ ".ann")%string
      = Some (Annotations text tuples).
Proof.
  intros Hfiles Hall. rewrite predict_annotation_evaluation_loop.
  unfold mbind at 1, M_bind at 1. rewrite write_loop_run by done.
  rewrite Hfiles in *. apply Forall_app in Hall as [_ Hf].
  apply Forall_cons in Hf as [[[t Ht] [l Hl]] _].
  exists t, l. split; [done|]. split; [done|].
  unfold last_annotations. rewrite last_snoc, Ht, Hl. simpl. split; [done|].
  rewrite after_writes_app. unfold after_writes at 1. simpl.
  rewrite after_writes_texts, Ht, Hl. simpl. apply lookup_insert_eq.
Qed.

Lemma predict_annotation_evaluation_run (directory : string) (ds : dataset)
    (preds gt : gmap string (list tagged_span)) (option : string)
    (init : list data_file) (f : data_file) (w : @world feature) :
  data_files ds = init ++ [f] →
  Forall (λ f, is_Some (texts w !! raw_path f)
               ∧ is_Some (chosen option preds gt !! file_name f)) (data_files ds) →
  ∃ a, predict_annotation_evaluation directory ds preds gt option w
       = (Ok a, after_writes directory (chosen option preds gt) (data_files ds) w).
Proof.
  intros Hfiles Hall. rewrite predict_annotation_evaluation_loop.
  unfold mbind at 1, M_bind at 1. rewrite write_loop_run by done.
  unfold last_annotations. rewrite Hfiles, last_snoc. eauto.
Qed.

Lemma create_annotation_directory_run (d : string) (ds : dataset) (option : string)
    (w : @world feature) :
  d ≠ "" → (isdir (dirs w) d = false → mkdir_fails (dirs w) d = false) →
  ∃ w1, create_annotation_directory (PStr d) ds option w = (Ok d, w1)
    ∧ texts w1 = texts w ∧ isdir (dirs w1) d = true ∧ dirs w ⊆ dirs w1
    ∧ ann_files w1 = ann_files w.
Proof.
  intros Hd Hmk. unfold create_annotation_directory, os_path_isdir. simpl.
  unfold mbind at 1, M_bind at 1, gets at 1.
  destruct (isdir (dirs w) d) eqn:Hdir.
  - unfold log, modify, mbind, M_bind. simpl. eexists. split; [reflexivity|]. by simpl.
  - unfold mbind, M_bind. rewrite makedirs_run by auto.
    eexists. split; [reflexivity|]. simpl.
    split; [done|]. split; [by apply isdir_made|]. split; [set_solver|done].
Qed.

(** Under a data directory that is there, the directory of the
    predictions or of the groundtruth is found or made. *)
Lemma create_annotation_directory_in (ds : dataset) (name option : string)
    (w : @world feature) :
  isdir (dirs w) (data_directory ds) = true → plain_name name →
  ∃ w1, create_annotation_directory (PStr (os_path_join (data_directory ds) name))
          ds option w
        = (Ok (os_path_join (data_directory ds) name), w1)
    ∧ texts w1 = texts w
    ∧ isdir (dirs w1) (os_path_join (data_directory ds) name) = true
    ∧ dirs w ⊆ dirs w1 ∧ ann_files w1 = ann_files w.
Proof.
  intros Hdata Hname. apply create_annotation_directory_run.
  - by apply os_path_join_not_empty.
  - by apply mkdir_in_directory.
Qed.

(** X14. The block that writes the annotations returns as soon as the data
    directory is there, the data set has a data file, every raw text can be
    read, and every file name is a key of both dictionaries; it then
    returns [<data_directory>/predictions]. *)
Theorem write_annotations_returns (ds : dataset) (st : cv_state) (w : @world feature) :
  isdir (dirs w) (data_directory ds) = true →
  data_files ds ≠ [] →
  Forall (λ f, is_Some (texts w !! raw_path f)
               ∧ is_Some (groundtruth_by_document st !! file_name f)
               ∧ is_Some (preds_by_document st !! file_name f)) (data_files ds) →
  ∃ w', write_annotations ds st w
        = (Ok (Some (os_path_join (data_directory ds) "predictions")), w').
Proof.
  intros Hdata Hne Hall. unfold write_annotations.
  destruct (create_annotation_directory_in ds "predictions" "predictions" w
              Hdata plain_name_predictions)
    as (w1 & Hrun1 & Ht1 & _ & Hsub1 & _).
  destruct (create_annotation_directory_in ds "groundtruth" "groundtruth" w1
              (isdir_mono _ _ _ Hsub1 Hdata) plain_name_groundtruth)
    as (w2 & Hrun2 & Ht2 & _).
  unfold mbind at 1, M_bind at 1. rewrite Hrun1.
  unfold mbind at 1, M_bind at 1. rewrite Hrun2.
  destruct (list_snoc_inv (data_files ds)) as [?|(init & f & Hfiles)]; [done|].
  destruct (predict_annotation_evaluation_run
              (os_path_join (data_directory ds) "groundtruth") ds
              (preds_by_document st) (groundtruth_by_document st) "groundtruth" init f w2
              Hfiles) as (a1 & Hrun3).
  { eapply Forall_impl; [exact Hall|]. intros f' (H1 & H2 & H3).
    rewrite Ht2, Ht1. by split. }
  unfold mbind at 1, M_bind at 1. rewrite Hrun3.
  destruct (predict_annotation_evaluation_run
              (os_path_join (data_directory ds) "predictions") ds
              (preds_by_document st) (groundtruth_by_document st) "predictions" init f
              (after_writes (os_path_join (data_directory ds) "groundtruth")
                 (chosen "groundtruth" (preds_by_document st) (groundtruth_by_document st))
                 (data_files ds) w2)
              Hfiles) as (a2 & Hrun4).
  { eapply Forall_impl; [exact Hall|]. intros f' (H1 & H2 & H3).
    rewrite after_writes_texts, Ht2, Ht1. by split. }
  unfold mbind at 1, M_bind at 1. rewrite Hrun4. eauto.
Qed.

End WriteFacts.

Lemma preprocess_collects_witness :
  preprocess Demo.extract_features (Some Demo.corpus) true Demo.world0
  = preprocess Demo.extract_features (Some Demo.corpus) false Demo.world0
  ∧ ∀ async,
      (preprocess Demo.extract_features (Some Demo.corpus) async Demo.world0).1 = Ok ()
      ∧ X_data (preprocess Demo.extract_features (Some Demo.corpus) async Demo.world0).2
        = Some [([1; 2]%nat, [(0, 4); (5, 9)], "a");
                ([3; 4]%nat, [(100, 104); (105, 109)], "b"); ([5]%nat, [(110, 112)], "b")]
      ∧ y_data (preprocess Demo.extract_features (Some Demo.corpus) async Demo.world0).2
        = Some [["O"; "Drug"]; ["Drug"; "O"]; ["Dose"]].
Proof.
  apply (preprocess_collects Demo.extract_features Demo.corpus Demo.world0
           [([([1; 2]%nat, [(0, 4); (5, 9)], "a")], [["O"; "Drug"]]);
            ([([3; 4]%nat, [(100, 104); (105, 109)], "b"); ([5]%nat, [(110, 112)], "b")],
             [["Drug"; "O"]; ["Dose"]])]).
  reflexivity.
Defined.

Lemma preprocess_stops_at_failure_witness :
  preprocess Sample.failing_extract (Some Demo.corpus) false Demo.world0
  = (Raise IOError,
     World (Some [([1; 2]%nat, [(0, 4); (5, 9)], "a")]) (Some [["O"; "Drug"]])
       (entities Demo.world0) (dirs Demo.world0) (texts Demo.world0)
       (ann_files Demo.world0)
       (trace Demo.world0 ++ [EvExtract Demo.doc_a false; EvExtract Demo.doc_b false])).
Proof.
  apply (preprocess_stops_at_failure Sample.failing_extract Demo.corpus false Demo.world0
           [Demo.doc_a] [] Demo.doc_b IOError
           [([([1; 2]%nat, [(0, 4); (5, 9)], "a")], [["O"; "Drug"]])]);
    reflexivity.
Defined.

Lemma cross_validate_without_dataset_resets_witness :
  Demo.run 5 None PNone PNone false
  = (Raise TypeError,
     World (Some []) (Some []) (entities Demo.world0) (dirs Demo.world0)
       (texts Demo.world0) (ann_files Demo.world0) (trace Demo.world0)).
Proof.
  apply (cross_validate_without_dataset_resets Demo.extract_features Demo.cv
           Demo.learner_fit Demo.learner_predict Demo.flat_score Demo.rnd 5 false
           Demo.world0).
  lia.
Defined.

Lemma groundtruth_directory_alone_is_dropped_witness :
  let run := Demo.run 2 (Some Demo.corpus) PNone (PStr "gt") false in
  (run.1 = Ok None ∧ dirs run.2 = dirs Demo.world0 ∧ ann_files run.2 = ∅
   ∧ written (trace run.2) = []
   ∧ isdir (dirs run.2) "gt" = false ∧ isdir (dirs run.2) "data/groundtruth" = false
   ∧ match (foldM (evaluate_fold Demo.learner_fit Demo.learner_predict Demo.flat_score
                     Sample.sequences Sample.labels ["Dose"; "Drug"] PNone (PStr "gt"))
              (CvState [] {[ "a" := []; "b" := [] ]} {[ "a" := []; "b" := [] ]})
              [([2], [0; 1]); ([0; 1], [2])] Demo.world0).1 with
     | Ok st => groundtruth_by_document st
                = {[ "a" := [("Drug", 5, 104)]; "b" := [("Dose", 110, 112)] ]}
     | Raise _ => False
     end)
  ∧ Demo.run 2 None PNone (PStr "gt") false
    = (Raise (ValueError "Cannot generate groundtruth during cross validation if training dataset is not given. Please pass the training dataset in the 'training_dataset' parameter."),
       Demo.world0)
  ∧ (∀ (X : list (@sequence nat)) (Y : list (list label)) (tagset : list label)
       (st st' : cv_state) (train_indices test_indices : list Z) (w1 w2 : @world nat),
       evaluate_fold Demo.learner_fit Demo.learner_predict Demo.flat_score X Y tagset
         PNone (PStr "gt") st (train_indices, test_indices) w1 = (Ok st', w2) →
       ∃ X_test y_test,
         mapM (getitem_Z X) test_indices = Ok X_test
         ∧ mapM (getitem_Z Y) test_indices = Ok y_test
         ∧ Spans.reconstruct_spans (flat_labels y_test) (span_indices X_test)
             (document_indices X_test) (groundtruth_by_document st)
           = Ok (groundtruth_by_document st')
         ∧ preds_by_document st' = preds_by_document st)
  ∧ (∀ ds : dataset,
       let run := Demo.run 2 (Some ds) PNone (PStr "gt") false in
       dirs run.2 = dirs Demo.world0 ∧ ann_files run.2 = ann_files Demo.world0
       ∧ match run.1 with Ok ret => ret = None | Raise _ => True end).
Proof.
  intros run. split; [repeat split; by vm_compute|].
  apply (groundtruth_directory_alone_is_dropped Demo.extract_features Demo.cv
           Demo.learner_fit Demo.learner_predict Demo.flat_score Demo.rnd 2 (PStr "gt")
           false Demo.world0).
  - lia.
  - reflexivity.
Defined.

Lemma cross_validate_without_prediction_directory_witness :
  let run := Demo.run 2 (Some Demo.corpus) (PStr "") (PStr "gt") false in
  dirs run.2 = dirs Demo.world0 ∧ ann_files run.2 = ann_files Demo.world0
  ∧ texts run.2 = texts Demo.world0
  ∧ match run.1 with Ok ret => ret = None | Raise _ => True end.
Proof.
  apply (cross_validate_without_prediction_directory Demo.extract_features Demo.cv
           Demo.learner_fit Demo.learner_predict Demo.flat_score Demo.rnd
           2 (Some Demo.corpus) (PStr "") (PStr "gt") false Demo.world0).
  reflexivity.
Defined.

Lemma cross_validate_without_folds_witness :
  cross_validate Demo.extract_features Sample.no_folds Demo.learner_fit
    Demo.learner_predict Demo.flat_score Demo.rnd 2 (Some Demo.corpus) PNone PNone false
    Demo.world0
  = (Raise StatisticsError,
     World (Some [([1; 2]%nat, [(0, 4); (5, 9)], "a");
                  ([3; 4]%nat, [(100, 104); (105, 109)], "b"); ([5]%nat, [(110, 112)], "b")])
       (Some [["O"; "Drug"]; ["Drug"; "O"]; ["Dose"]])
       (Some (compute_tagset [["O"; "Drug"]; ["Drug"; "O"]; ["Dose"]]))
       (dirs Demo.world0) (texts Demo.world0) (ann_files Demo.world0)
       (trace Demo.world0
        ++ map (λ f, EvExtract f false) [Demo.doc_a; Demo.doc_b]
        ++ [EvSplit 2 [([1; 2]%nat, [(0, 4); (5, 9)], "a");
                       ([3; 4]%nat, [(100, 104); (105, 109)], "b");
                       ([5]%nat, [(110, 112)], "b")]
              [["O"; "Drug"]; ["Drug"; "O"]; ["Dose"]]])).
Proof.
  apply (cross_validate_without_folds Demo.extract_features Sample.no_folds
           Demo.learner_fit Demo.learner_predict Demo.flat_score Demo.rnd
           2 Demo.corpus PNone PNone false Demo.world0
           [([([1; 2]%nat, [(0, 4); (5, 9)], "a")], [["O"; "Drug"]]);
            ([([3; 4]%nat, [(100, 104); (105, 109)], "b"); ([5]%nat, [(110, 112)], "b")],
             [["Drug"; "O"]; ["Dose"]])]).
  - lia.
  - reflexivity.
  - reflexivity.
Defined.

Lemma folds_can_be_aggregated_witness :
  ∃ st w',
    foldM (evaluate_fold Demo.learner_fit Demo.learner_predict Demo.flat_score
             Sample.sequences Sample.labels ["Dose"; "Drug"] PNone PNone)
      (CvState [] ∅ ∅) [([2], [0; 1]); ([0; 1], [2])] Demo.world0 = (Ok st, w')
    ∧ length (evaluation_statistics st) = length [([2], [0; 1]); ([0; 1], [2])]
    ∧ ∃ stats, aggregate_statistics Demo.rnd ["Dose"; "Drug"] (evaluation_statistics st)
               = Ok stats
        ∧ has_rows ["Dose"; "Drug"] stats.
Proof.
  eexists _, _. split; [vm_compute; reflexivity|].
  eapply (folds_can_be_aggregated Demo.learner_fit Demo.learner_predict Demo.flat_score
            Demo.rnd Sample.sequences Sample.labels ["Dose"; "Drug"] PNone PNone
            [([2], [0; 1]); ([0; 1], [2])] ∅ ∅ Demo.world0).
  - vm_compute. reflexivity.
  - discriminate.
Defined.

Lemma predict_annotation_evaluation_stops_witness :
  predict_annotation_evaluation "out" Demo.corpus {[ "a" := [("Drug", 0, 9)] ]} ∅
    "predictions" Demo.world0
  = (Raise (if texts Demo.world0 !! raw_path Demo.doc_b is None then IOError else KeyError),
     after_writes "out" (chosen "predictions" {[ "a" := [("Drug", 0, 9)] ]} ∅)
       [Demo.doc_a] Demo.world0).
Proof.
  apply (predict_annotation_evaluation_stops "out" Demo.corpus {[ "a" := [("Drug", 0, 9)] ]}
           ∅ "predictions" [Demo.doc_a] [] Demo.doc_b Demo.world0).
  - reflexivity.
  - repeat constructor; by eexists.
  - right. reflexivity.
Defined.

Lemma predict_annotation_evaluation_returns_last_witness :
  ∃ text tuples,
    texts Demo.world0 !! raw_path Demo.doc_b = Some text
    ∧ chosen "groundtruth" (preds_by_document Sample.after_folds)
        (groundtruth_by_document Sample.after_folds) !! file_name Demo.doc_b = Some tuples
    ∧ predict_annotation_evaluation "data/groundtruth" Demo.corpus
        (preds_by_document Sample.after_folds) (groundtruth_by_document Sample.after_folds)
        "groundtruth" Demo.world0
      = (Ok (Annotations text tuples),
         after_writes "data/groundtruth"
           (chosen "groundtruth" (preds_by_document Sample.after_folds)
              (groundtruth_by_document Sample.after_folds))
           (data_files Demo.corpus) Demo.world0)
    ∧ ann_files (after_writes "data/groundtruth"
                   (chosen "groundtruth" (preds_by_document Sample.after_folds)
                      (groundtruth_by_document Sample.after_folds))
                   (data_files Demo.corpus) Demo.world0)
        !! os_path_join "data/groundtruth" (file_name Demo.doc_b ++ ".ann")%string
      = Some (Annotations text tuples).
Proof.
  apply (predict_annotation_evaluation_returns_last "data/groundtruth" Demo.corpus
           (preds_by_document Sample.after_folds)
           (groundtruth_by_document Sample.after_folds) "groundtruth"
           [Demo.doc_a] Demo.doc_b Demo.world0).
  - reflexivity.
  - repeat constructor; by eexists.
Defined.

Lemma write_annotations_returns_witness :
  ∃ w', write_annotations Demo.corpus Sample.after_folds Demo.world0
        = (Ok (Some (os_path_join (data_directory Demo.corpus) "predictions")), w').
Proof.
  apply (write_annotations_returns Demo.corpus Sample.after_folds Demo.world0).
  - reflexivity.
  - discriminate.
  - repeat constructor; by eexists.
Defined.

(** ** Directories, and a data set without files *)

Section DirectoryFacts.
Context {feature : Type}.

(** X15. For a data set without files, in a data directory that is there,
    the block that writes the annotations makes (or finds) both directories
    and then raises an [UnboundLocalError] ([annotations] was never
    assigned); no annotation file is written. *)
Theorem write_annotations_without_files (ds : dataset) (st : cv_state)
    (w : @world feature) :
  isdir (dirs w) (data_directory ds) = true →
  data_files ds = [] →
  let run := write_annotations ds st w in
  run.1 = Raise UnboundLocalError
  ∧ isdir (dirs run.2) (os_path_join (data_directory ds) "predictions") = true
  ∧ isdir (dirs run.2) (os_path_join (data_directory ds) "groundtruth") = true
  ∧ ann_files run.2 = ann_files w.
Proof.
  intros Hdata Hfiles run. subst run.
  destruct (write_annotations ds st w) as [r w'] eqn:Hrun. simpl.
  revert Hrun. unfold write_annotations.
  destruct (create_annotation_directory_in ds "predictions" "predictions" w
              Hdata plain_name_predictions)
    as (w1 & Hrun1 & _ & Hd1 & Hsub1 & Ha1).
  destruct (create_annotation_directory_in ds "groundtruth" "groundtruth" w1
              (isdir_mono _ _ _ Hsub1 Hdata) plain_name_groundtruth)
    as (w2 & Hrun2 & _ & Hd2 & Hsub2 & Ha2).
  unfold mbind at 1, M_bind at 1. rewrite Hrun1.
  unfold mbind at 1, M_bind at 1. rewrite Hrun2.
  unfold mbind at 1, M_bind at 1, predict_annotation_evaluation. rewrite Hfiles. simpl.
  intros [= <- <-].
  split; [done|]. split; [by apply (isdir_mono _ _ _ Hsub2)|]. split; [done|congruence].
Qed.

Lemma create_annotation_directory_found (directory : pyval) (ds : dataset)
    (option : string) (w : @world feature) :
  isdir (dirs w) (annotation_directory directory ds option) = true →
  create_annotation_directory directory ds option w
  = (Ok (annotation_directory directory ds option),
     World (X_data w) (y_data w) (entities w) (dirs w) (texts w) (ann_files w)
       (trace w ++ [EvWarning ("Overwriting existing " ++ option)%string])).
Proof.
  intros Hdir. unfold create_annotation_directory, os_path_isdir.
  fold (annotation_directory directory ds option).
  unfold mbind, M_bind, gets, log, modify. by rewrite Hdir.
Qed.

(** Given no string, and a data directory that is there,
    [create_annotation_directory] returns [<data_directory>/<option>/],
    which is there afterwards. *)
Lemma create_annotation_directory_default (directory : pyval) (ds : dataset)
    (option : string) (w : @world feature) :
  isinstance_str directory = None → plain_name option →
  isdir (dirs w) (data_directory ds) = true →
  ∃ w1, create_annotation_directory directory ds option w
        = (Ok (annotation_directory directory ds option), w1)
    ∧ isdir (dirs w1) (annotation_directory directory ds option) = true
    ∧ dirs w ⊆ dirs w1.
Proof.
  intros Hstr Hname Hdata.
  set (d := annotation_directory directory ds option).
  assert (Hd : d = (data_directory ds ++ "/" ++ option ++ "/")%string).
  { subst d. unfold annotation_directory. by rewrite Hstr. }
  destruct (isdir (dirs w) d) eqn:Hdir.
  { eexists. split; [by apply create_annotation_directory_found|]. by simpl. }
  unfold create_annotation_directory, os_path_isdir.
  fold (annotation_directory directory ds option). fold d.
  unfold mbind at 1, M_bind at 1, gets at 1. rewrite Hdir.
  unfold mbind, M_bind. rewrite makedirs_run.
  - eexists. split; [reflexivity|]. simpl.
    split; [apply isdir_made; rewrite Hd; by destruct (data_directory ds)|set_solver].
  - rewrite Hd. by destruct (data_directory ds).
  - done.
  - rewrite Hd in *. by apply mkdir_default_directory.
Qed.

Lemma create_annotation_directory_grows (directory : pyval) (ds : dataset)
    (option : string) (w w' : @world feature) (r : string) :
  create_annotation_directory directory ds option w = (Ok r, w') →
  r = annotation_directory directory ds option
  ∧ isdir (dirs w') r = true ∧ dirs w ⊆ dirs w'.
Proof.
  intros Hrun. apply create_annotation_directory_returns in Hrun.
  destruct Hrun as (-> & _ & Hdir & Hcases). split; [done|]. split; [done|].
  destruct Hcases as [[_ ->]|(_ & _ & ->)]; simpl; set_solver.
Qed.

(** X16. [create_annotation_directory] works on the directory it was
    given, or on [<data_directory>/<option>/] when it was given no string.
    For the empty string it raises the [FileNotFoundError] of
    [os.makedirs] and changes nothing. When the directory is there it
    returns it and only logs the warning; and when it was given no string
    and the data directory is there, it returns the directory, found or
    made. Whenever it returns, it returns the directory, which is there
    afterwards, no annotation file or raw text has changed, and a second
    call returns the same, leaves the disk as it is and only logs the
    warning about overwriting. *)
Theorem create_annotation_directory_twice (directory : pyval) (ds : dataset)
    (option : string) (w : @world feature) :
  let d := annotation_directory directory ds option in
  let first := create_annotation_directory directory ds option w in
  let second := create_annotation_directory directory ds option first.2 in
  (d = "" → first = (Raise FileNotFoundError, w))
  ∧ (isdir (dirs w) d = true →
     first = (Ok d, World (X_data w) (y_data w) (entities w) (dirs w) (texts w)
                      (ann_files w)
                      (trace w ++ [EvWarning ("Overwriting existing " ++ option)%string])))
  ∧ (isinstance_str directory = None → plain_name option →
     isdir (dirs w) (data_directory ds) = true → first.1 = Ok d)
  ∧ (∀ r, first.1 = Ok r →
       r = d ∧ isdir (dirs first.2) d = true
       ∧ ann_files first.2 = ann_files w ∧ texts first.2 = texts w
       ∧ dirs w ⊆ dirs first.2
       ∧ second
         = (Ok d, World (X_data first.2) (y_data first.2) (entities first.2)
                    (dirs first.2) (texts first.2) (ann_files first.2)
                    (trace first.2
                     ++ [EvWarning ("Overwriting existing " ++ option)%string]))).
Proof.
  intros d first second.
  pose proof (create_annotation_directory_found directory ds option) as Hfound.
  fold d in Hfound.
  split; [|split; [|split]].
  - intros Hd. subst first. unfold create_annotation_directory, os_path_isdir.
    fold (annotation_directory directory ds option). fold d. rewrite Hd.
    by unfold mbind, M_bind, gets, makedirs.
  - apply Hfound.
  - intros Hstr Hname Hdata. subst first.
    destruct (create_annotation_directory_default directory ds option w Hstr Hname Hdata)
      as (w1 & -> & _). done.
  - intros r Hret. subst second.
    destruct first as [r1 w1] eqn:Hfirst. simpl in *. subst r1.
    apply create_annotation_directory_returns in Hfirst as Hfacts.
    fold d in Hfacts. destruct Hfacts as (-> & Hne & Hdir & Hcases).
    split; [done|]. split; [done|].
    rewrite (Hfound w1 Hdir).
    destruct Hcases as [[_ ->]|(_ & _ & ->)]; simpl; repeat split; try done.
    set_solver.
Qed.

End DirectoryFacts.

Lemma create_annotation_directory_twice_witness :
  let first := create_annotation_directory (PStr "data/out/") Demo.corpus "predictions"
                 Demo.world0 in
  let second := create_annotation_directory (PStr "data/out/") Demo.corpus "predictions"
                  first.2 in
  (create_annotation_directory (PStr "") Demo.corpus "predictions" Demo.world0).1
   = Raise FileNotFoundError
  ∧ trace (create_annotation_directory (PStr "data/out") Demo.corpus "predictions" first.2).2
    = [EvMakedirs "data/out/"; EvWarning "Overwriting existing predictions"]
  ∧ first.1 = Ok "data/out/" ∧ isdir (dirs first.2) "data/out/" = true
  ∧ ann_files first.2 = ann_files Demo.world0 ∧ texts first.2 = texts Demo.world0
  ∧ dirs Demo.world0 ⊆ dirs first.2
  ∧ second
    = (Ok "data/out/",
       World (X_data first.2) (y_data first.2) (entities first.2) (dirs first.2)
         (texts first.2) (ann_files first.2)
         (trace first.2 ++ [EvWarning "Overwriting existing predictions"])).
Proof.
  intros first second. split; [by vm_compute|]. split; [by vm_compute|].
  split; [by vm_compute|].
  destruct (create_annotation_directory_twice (PStr "data/out/") Demo.corpus "predictions"
              Demo.world0) as (_ & _ & _ & Hreturns).
  destruct (Hreturns "data/out/") as (_ & Hrest); [by vm_compute|]. exact Hrest.
Defined.

Lemma write_annotations_without_files_witness :
  let run := write_annotations Demo.empty_corpus Sample.after_folds Demo.world0 in
  run.1 = Raise UnboundLocalError
  ∧ isdir (dirs run.2) (os_path_join (data_directory Demo.empty_corpus) "predictions") = true
  ∧ isdir (dirs run.2) (os_path_join (data_directory Demo.empty_corpus) "groundtruth") = true
  ∧ ann_files run.2 = ann_files Demo.world0.
Proof.
  apply (write_annotations_without_files Demo.empty_corpus Sample.after_folds Demo.world0).
  - reflexivity.
  - reflexivity.
Defined.

(** ** [fit] and [predict] *)

Section LifecycleFacts.
Context {feature learner : Type}.
Variable extract_features :
  data_file → bool → result (list (@sequence feature) * list (list label)).
Variable learner_fit : list (list feature) → list (list label) → result learner.
Variable predict_document : learner → option data_file → string → result annotations.

(** X17. [fit] on data without any sequence raises the [AssertionError]
    "Training data is empty.": the learner has been asked for, but it is
    never fitted, and [self.model] is what it was. *)
Theorem fit_rejects_empty_data (ds : dataset) (async : bool)
    (self : @Lifecycle.instance feature learner)
    (pairs : list (list (@sequence feature) * list (list label))) :
  mapM (λ f, extract_features f (is_metamapped ds)) (data_files ds) = Ok pairs →
  concat pairs.*1 = [] →
  Lifecycle.fit extract_features learner_fit (Lifecycle.ADataset ds) async self
  = (Raise (AssertionError "Training data is empty."),
     Lifecycle.Instance (Lifecycle.model self)
       (World (Some []) (Some (concat pairs.*2)) (entities (Lifecycle.state self))
          (dirs (Lifecycle.state self)) (texts (Lifecycle.state self))
          (ann_files (Lifecycle.state self))
          (trace (Lifecycle.state self)
           ++ map (λ f, EvExtract f (is_metamapped ds)) (data_files ds)
           ++ [EvGetLearner]))).
Proof.
  intros Hpairs Hempty. unfold Lifecycle.fit, Lifecycle.fit_body.
  unfold mbind at 1, M_bind at 1.
  rewrite (preprocess_run _ ds async _ pairs Hpairs). rewrite Hempty.
  unfold mbind, M_bind, log, modify, gets, raise. simpl. by rewrite <- app_assoc.
Qed.

(** X18. [fit] on data with at least one sequence fits the learner on the
    features alone (the first component of every sequence) and on the
    labels. When fitting returns, the fitted learner is returned and is
    [self.model]; when it raises, [self.model] is what it was. *)
Theorem fit_trains_on_features (ds : dataset) (async : bool)
    (self : @Lifecycle.instance feature learner)
    (pairs : list (list (@sequence feature) * list (list label))) :
  mapM (λ f, extract_features f (is_metamapped ds)) (data_files ds) = Ok pairs →
  concat pairs.*1 ≠ [] →
  let train_data := map (λ x : @sequence feature, x.1.1) (concat pairs.*1) in
  let w' := World (Some (concat pairs.*1)) (Some (concat pairs.*2))
              (entities (Lifecycle.state self)) (dirs (Lifecycle.state self))
              (texts (Lifecycle.state self)) (ann_files (Lifecycle.state self))
              (trace (Lifecycle.state self)
               ++ map (λ f, EvExtract f (is_metamapped ds)) (data_files ds)
               ++ [EvGetLearner; EvFit train_data (concat pairs.*2)]) in
  Lifecycle.fit extract_features learner_fit (Lifecycle.ADataset ds) async self
  = match learner_fit train_data (concat pairs.*2) with
    | Ok fitted => (Ok fitted, Lifecycle.Instance (Some fitted) w')
    | Raise e => (Raise e, Lifecycle.Instance (Lifecycle.model self) w')
    end.
Proof.
  intros Hpairs Hne train_data w'. subst train_data w'.
  unfold Lifecycle.fit, Lifecycle.fit_body.
  unfold mbind at 1, M_bind at 1.
  rewrite (preprocess_run _ ds async _ pairs Hpairs).
  destruct (concat pairs.*1) as [|x X'] eqn:HX; [done|].
  unfold mbind, M_bind, log, modify, gets, lift. simpl.
  rewrite <- !app_assoc. simpl.
  by destruct (learner_fit _ _).
Qed.

(** The events of [predict] on a data set. *)
Definition predict_event (ds : dataset) (pdir gdir : string) (ev : @event feature) : Prop :=
  match ev with
  | EvWarning _ => True
  | EvMakedirs d => d = pdir ∨ d = gdir
  | EvToAnn p => ∃ f, f ∈ data_files ds ∧ p = os_path_join pdir (file_name f ++ ".ann")%string
  | _ => False
  end.

Lemma steps_create_annotation_directory_any (P : @event feature → Prop) (k : bool)
    (directory : pyval) (ds : dataset) (option : string) :
  (∀ msg, P (EvWarning msg)) → P (EvMakedirs (annotation_directory directory ds option)) →
  steps (extends P k) (create_annotation_directory directory ds option).
Proof.
  intros Hw Hm. unfold create_annotation_directory, os_path_isdir.
  fold (annotation_directory directory ds option).
  repeat first [steps_step | apply steps_log; [apply Hw|done|done]
               | by apply steps_makedirs].
Qed.

(** The loop of [predict] over the data files. *)
Definition predict_files (fitted : learner) (ds : dataset) (prediction_directory : string)
  : @M feature annotations :=
  last_written ←
    foldM (λ _ data_file,
             text ← read_text (raw_path data_file);
             annotations ← lift (predict_document fitted (Some data_file) text);
             to_ann annotations
               (os_path_join prediction_directory (file_name data_file ++ ".ann")%string);;
             mret (Some annotations))
          None (data_files ds);
  match last_written with
  | Some annotations => mret annotations
  | None => raise UnboundLocalError
  end.

Lemma steps_predict_files (P : @event feature → Prop) (k : bool) (fitted : learner)
    (ds : dataset) (pdir : string) :
  (∀ f, f ∈ data_files ds →
        P (EvToAnn (os_path_join pdir (file_name f ++ ".ann")%string))) →
  steps (extends P k) (predict_files fitted ds pdir).
Proof.
  intros HP. unfold predict_files.
  repeat first [steps_step | apply steps_to_ann; by apply HP].
Qed.

Lemma ensures_predict_files (fitted : learner) (ds : dataset) (pdir : string)
    (f : data_file) :
  f ∈ data_files ds →
  ensures (λ w : @world feature,
             is_Some (ann_files w !! os_path_join pdir (file_name f ++ ".ann")%string))
    (predict_files fitted ds pdir).
Proof.
  intros Hf. unfold predict_files.
  apply ensures_bind_l; [apply stable_file| |].
  - apply (ensures_foldM _ _ _ f); [apply stable_file|done| |].
    + intros s. do 2 (apply ensures_bind_r; intros ?).
      apply ensures_bind_l; [apply stable_file| |].
      * intros w u w'. unfold to_ann, log, mbind, M_bind, modify. simpl.
        intros [= _ <-]. simpl. rewrite lookup_insert_eq. eauto.
      * intros ?. steps_step.
    + intros s a. repeat first [steps_step | by apply steps_to_ann].
  - intros a. repeat steps_step.
Qed.

(** A run of [predict] on a data set, in its three steps. *)
Lemma predict_dataset_run (ds : dataset) (pd gd : pyval) (fitted : learner)
    (w w' : @world feature) (r : result annotations) :
  Lifecycle.predict_dataset predict_document fitted ds pd gd w = (r, w') →
  let pdir := annotation_directory pd ds "predictions" in
  let gdir := annotation_directory gd ds "groundtruth" in
  (∃ e, create_annotation_directory pd ds "predictions" w = (Raise e, w') ∧ r = Raise e)
  ∨ ∃ w1, create_annotation_directory pd ds "predictions" w = (Ok pdir, w1)
      ∧ ((∃ e, create_annotation_directory gd ds "groundtruth" w1 = (Raise e, w')
               ∧ r = Raise e)
         ∨ ∃ w2, create_annotation_directory gd ds "groundtruth" w1 = (Ok gdir, w2)
             ∧ predict_files fitted ds pdir w2 = (r, w')).
Proof.
  intros Hrun pdir gdir. revert Hrun. unfold Lifecycle.predict_dataset.
  unfold mbind at 1, M_bind at 1.
  destruct (create_annotation_directory pd ds "predictions" w) as [[r1|e] w1] eqn:Hrun1.
  2:{ intros [= <- <-]. left. eauto. }
  apply create_annotation_directory_grows in Hrun1 as Hr1. destruct Hr1 as (-> & _).
  right. exists w1. split; [done|]. revert Hrun.
  unfold mbind at 1, M_bind at 1.
  destruct (create_annotation_directory gd ds "groundtruth" w1) as [[r2|e] w2] eqn:Hrun2.
  2:{ intros [= <- <-]. left. eauto. }
  apply create_annotation_directory_grows in Hrun2 as Hr2. destruct Hr2 as (-> & _).
  intros Hrun. right. exists w2. by split.
Qed.

Lemma predict_dataset_extends (ds : dataset) (pd gd : pyval) (fitted : learner)
    (w w' : @world feature) (r : result annotations) :
  Lifecycle.predict_dataset predict_document fitted ds pd gd w = (r, w') →
  extends (predict_event ds (annotation_directory pd ds "predictions")
             (annotation_directory gd ds "groundtruth")) true w w'.
Proof.
  intros Hrun. apply predict_dataset_run in Hrun.
  set (pdir := annotation_directory pd ds "predictions") in *.
  set (gdir := annotation_directory gd ds "groundtruth") in *.
  assert (H1 : steps (extends (predict_event ds pdir gdir) true)
                 (create_annotation_directory pd ds "predictions")).
  { apply steps_create_annotation_directory_any; simpl; by eauto. }
  assert (H2 : steps (extends (predict_event ds pdir gdir) true)
                 (create_annotation_directory gd ds "groundtruth")).
  { apply steps_create_annotation_directory_any; simpl; by eauto. }
  assert (H3 : steps (extends (predict_event ds pdir gdir) true)
                 (predict_files fitted ds pdir)).
  { apply steps_predict_files. intros f Hf. simpl. eauto. }
  destruct Hrun as [(e & Hrun1 & _)|(w1 & Hrun1 & Hrun)]; [by eapply H1|].
  transitivity w1; [by eapply H1|].
  destruct Hrun as [(e & Hrun2 & _)|(w2 & Hrun2 & Hrun3)]; [by eapply H2|].
  transitivity w2; [by eapply H2|by eapply H3].
Qed.

(** X19. [predict] on a data set with a fitted model works on the
    prediction directory and the groundtruth directory it is given, or on
    [<data_directory>/predictions/] and [<data_directory>/groundtruth/].
    However the call ends, [self.model] and the raw texts are the same,
    every file it writes is [<prediction directory>/<file_name>.ann] of a
    data file, nothing is written for the groundtruth directory, the only
    directories it asks [os.makedirs] for are these two, and every other
    annotation file is as it was. An empty string as prediction directory
    stops the call with the [FileNotFoundError] of [os.makedirs] before
    anything has changed. When the call returns, both directories are
    there and the prediction directory holds [<file_name>.ann] of every
    data file. Given no directories and a data directory that is there,
    both directories are there afterwards however the call ends. *)
Theorem predict_dataset_writes_predictions (ds : dataset) (pd gd : pyval)
    (self : @Lifecycle.instance feature learner) (fitted : learner) :
  Lifecycle.model self = Some fitted →
  let pdir := annotation_directory pd ds "predictions" in
  let gdir := annotation_directory gd ds "groundtruth" in
  let run := Lifecycle.predict predict_document (Lifecycle.ADataset ds) pd gd self in
  Lifecycle.model run.2 = Some fitted
  ∧ texts (Lifecycle.state run.2) = texts (Lifecycle.state self)
  ∧ (∃ evs, trace (Lifecycle.state run.2) = trace (Lifecycle.state self) ++ evs
      ∧ (∀ p, p ∈ written evs →
              ∃ f, f ∈ data_files ds ∧ p = os_path_join pdir (file_name f ++ ".ann")%string)
      ∧ (∀ d, EvMakedirs d ∈ evs → d = pdir ∨ d = gdir)
      ∧ (∀ p, p ∉ written evs →
              ann_files (Lifecycle.state run.2) !! p = ann_files (Lifecycle.state self) !! p))
  ∧ (pdir = "" → run = (Raise FileNotFoundError, self))
  ∧ (∀ a, run.1 = Ok a →
       isdir (dirs (Lifecycle.state run.2)) pdir = true
       ∧ isdir (dirs (Lifecycle.state run.2)) gdir = true
       ∧ ∀ f, f ∈ data_files ds →
           is_Some (ann_files (Lifecycle.state run.2)
                      !! os_path_join pdir (file_name f ++ ".ann")%string))
  ∧ (isinstance_str pd = None → isinstance_str gd = None →
     isdir (dirs (Lifecycle.state self)) (data_directory ds) = true →
     isdir (dirs (Lifecycle.state run.2)) pdir = true
     ∧ isdir (dirs (Lifecycle.state run.2)) gdir = true).
Proof.
  intros Hmodel pdir gdir run. subst run. unfold Lifecycle.predict. rewrite Hmodel.
  destruct (Lifecycle.predict_dataset predict_document fitted ds pd gd (Lifecycle.state self))
    as [r w'] eqn:Hrun. simpl. split; [done|].
  pose proof (predict_dataset_extends _ _ _ _ _ _ _ Hrun) as Hext.
  pose proof (predict_dataset_run _ _ _ _ _ _ _ Hrun) as Hsteps.
  cbv zeta in Hsteps. fold pdir gdir in Hext, Hsteps.
  assert (H3 : steps (extends (predict_event ds pdir gdir) true)
                 (predict_files fitted ds pdir)).
  { apply steps_predict_files. intros f Hf. simpl. eauto. }
  split; [by destruct Hext as (evs & _ & _ & _ & Hx & _)|].
  split.
  { destruct Hext as (evs & Ht & HP & _ & _ & _ & Hkeep & _).
    exists evs. split; [done|]. rewrite Forall_forall in HP.
    split; [|split; [|done]].
    - intros p. unfold written. rewrite list_elem_of_omap.
      intros (ev & Hev & Hp). destruct ev; try done. injection Hp as ->.
      by apply HP in Hev.
    - intros d Hev. by apply HP in Hev. }
  split.
  { intros Hempty.
    destruct Hsteps as [(e & Hrun1 & ->)|(w1 & Hrun1 & _)].
    - revert Hrun1. unfold create_annotation_directory, os_path_isdir.
      fold (annotation_directory pd ds "predictions"). fold pdir. rewrite Hempty.
      unfold mbind, M_bind, gets, makedirs, raise. simpl. intros [= <- <-].
      rewrite <- Hmodel. by destruct self.
    - apply create_annotation_directory_returns in Hrun1 as (_ & Hne & _). done. }
  split.
  { intros a ->.
    destruct Hsteps as [(e & _ & ?)|(w1 & Hrun1 & Hsteps)]; [done|].
    destruct Hsteps as [(e & _ & ?)|(w2 & Hrun2 & Hrun3)]; [done|].
    apply create_annotation_directory_grows in Hrun1 as (_ & Hd1 & _).
    apply create_annotation_directory_grows in Hrun2 as (_ & Hd2 & Hsub2).
    pose proof (steps_anything _ _ _ H3 _ _ _ Hrun3) as Hext3.
    split; [apply (stable_dir pdir w2 w'); [by apply (isdir_mono _ _ _ Hsub2)|done]|].
    split; [by apply (stable_dir gdir w2 w')|].
    intros f Hf. by apply (ensures_predict_files fitted ds pdir f Hf w2 a w'). }
  intros Hpd Hgd Hdata.
  destruct (create_annotation_directory_default pd ds "predictions" (Lifecycle.state self)
              Hpd plain_name_predictions Hdata) as (w1 & Hrun1 & Hd1 & Hsub1).
  destruct (create_annotation_directory_default gd ds "groundtruth" w1
              Hgd plain_name_groundtruth (isdir_mono _ _ _ Hsub1 Hdata))
    as (w2 & Hrun2 & Hd2 & Hsub2).
  fold pdir in Hrun1, Hd1. fold gdir in Hrun2, Hd2.
  destruct Hsteps as [(e & Hrun1' & _)|(w1' & Hrun1' & Hsteps)]; [congruence|].
  assert (w1' = w1) as -> by congruence.
  destruct Hsteps as [(e & Hrun2' & _)|(w2' & Hrun2' & Hrun3)]; [congruence|].
  assert (w2' = w2) as -> by congruence.
  pose proof (steps_anything _ _ _ H3 _ _ _ Hrun3) as Hext3.
  split; [apply (stable_dir pdir w2 w'); [by apply (isdir_mono _ _ _ Hsub2)|done]|].
  by apply (stable_dir gdir w2 w').
Qed.

End LifecycleFacts.

Lemma fit_rejects_empty_data_witness :
  Lifecycle.fit Sample.empty_extract Demo.learner_fit (Lifecycle.ADataset Demo.corpus) false
    Sample.new_model
  = (Raise (AssertionError "Training data is empty."),
     Lifecycle.Instance None
       (World (Some []) (Some []) None (dirs Demo.world0) (texts Demo.world0) ∅
          ([] ++ map (λ f, EvExtract f false) [Demo.doc_a; Demo.doc_b] ++ [EvGetLearner]))).
Proof.
  apply (fit_rejects_empty_data Sample.empty_extract Demo.learner_fit Demo.corpus false
           Sample.new_model [([], []); ([], [])]); reflexivity.
Defined.

Lemma fit_trains_on_features_witness :
  Lifecycle.fit Demo.extract_features Demo.learner_fit (Lifecycle.ADataset Demo.corpus) true
    Sample.new_model
  = (Ok (),
     Lifecycle.Instance (Some ())
       (World (Some Sample.sequences) (Some Sample.labels) None (dirs Demo.world0)
          (texts Demo.world0) ∅
          ([] ++ map (λ f, EvExtract f false) [Demo.doc_a; Demo.doc_b]
           ++ [EvGetLearner; EvFit [[1; 2]; [3; 4]; [5]]%nat Sample.labels]))).
Proof.
  apply (fit_trains_on_features Demo.extract_features Demo.learner_fit Demo.corpus true
           Sample.new_model
           [([([1; 2]%nat, [(0, 4); (5, 9)], "a")], [["O"; "Drug"]]);
            ([([3; 4]%nat, [(100, 104); (105, 109)], "b"); ([5]%nat, [(110, 112)], "b")],
             [["Drug"; "O"]; ["Dose"]])]).
  - reflexivity.
  - discriminate.
Defined.

Lemma predict_dataset_writes_predictions_witness :
  let run := Lifecycle.predict Sample.predict_document (Lifecycle.ADataset Demo.corpus)
               PNone PNone Sample.fitted_model in
  let pdir := "data/predictions/" in
  let gdir := "data/groundtruth/" in
  (run.1 = Ok (Annotations "text of b" [("Drug", 0, 4)])
   ∧ dirs (Lifecycle.state run.2) = {[ "data"; "data/predictions"; "data/groundtruth" ]}
   ∧ written (trace (Lifecycle.state run.2))
     = ["data/predictions/a.ann"; "data/predictions/b.ann"])
  ∧ Lifecycle.model run.2 = Some ()
  ∧ texts (Lifecycle.state run.2) = texts (Lifecycle.state Sample.fitted_model)
  ∧ (∃ evs, trace (Lifecycle.state run.2) = trace (Lifecycle.state Sample.fitted_model) ++ evs
      ∧ (∀ p, p ∈ written evs →
              ∃ f, f ∈ data_files Demo.corpus
                   ∧ p = os_path_join pdir (file_name f ++ ".ann")%string)
      ∧ (∀ d, EvMakedirs d ∈ evs → d = pdir ∨ d = gdir)
      ∧ (∀ p, p ∉ written evs →
              ann_files (Lifecycle.state run.2) !! p
              = ann_files (Lifecycle.state Sample.fitted_model) !! p))
  ∧ (pdir = "" → run = (Raise FileNotFoundError, Sample.fitted_model))
  ∧ (∀ a, run.1 = Ok a →
       isdir (dirs (Lifecycle.state run.2)) pdir = true
       ∧ isdir (dirs (Lifecycle.state run.2)) gdir = true
       ∧ ∀ f, f ∈ data_files Demo.corpus →
           is_Some (ann_files (Lifecycle.state run.2)
                      !! os_path_join pdir (file_name f ++ ".ann")%string))
  ∧ (isinstance_str PNone = None → isinstance_str PNone = None →
     isdir (dirs (Lifecycle.state Sample.fitted_model)) (data_directory Demo.corpus) = true →
     isdir (dirs (Lifecycle.state run.2)) pdir = true
     ∧ isdir (dirs (Lifecycle.state run.2)) gdir = true).
Proof.
  intros run pdir gdir. split; [repeat split; by vm_compute|].
  apply (predict_dataset_writes_predictions Sample.predict_document Demo.corpus PNone PNone
           Sample.fitted_model ()).
  reflexivity.
Defined.

(** ** Fold indices out of range *)

Section IndexFacts.
Context {feature learner : Type}.
Variable learner_fit : list (list feature) → list (list label) → result learner.
Variable learner_predict : learner → list (list feature) → result (list (list label)).
Variable flat_score :
  metric → list (list label) → list (list label) → list label → result Q.

(** An index that Python accepts for a list of this length. *)
Definition in_range (len : nat) (i : Z) : Prop := - Z.of_nat len ≤ i < Z.of_nat len.

Lemma getitem_Z_raises {A} (l : list A) (i : Z) (e : exn) :
  getitem_Z l i = Raise e → e = IndexError.
Proof.
  unfold getitem_Z, getitem. repeat case_bool_decide; repeat case_match; congruence.
Qed.

Lemma getitem_Z_out_of_range {A} (l : list A) (i : Z) :
  ¬ in_range (length l) i → getitem_Z l i = Raise IndexError.
Proof.
  unfold in_range, getitem_Z, getitem. intros Hout.
  case_bool_decide.
  - rewrite lookup_ge_None_2; [done|lia].
  - case_bool_decide; [lia|done].
Qed.

Lemma mapM_getitem_Z_out_of_range {A} (l : list A) (idx : list Z) :
  Exists (λ i, ¬ in_range (length l) i) idx →
  mapM (getitem_Z l) idx = Raise IndexError.
Proof.
  induction idx as [|i idx IH]; intros Hex; [by apply Exists_nil in Hex|].
  simpl. destruct (getitem_Z l i) as [a|e] eqn:Hi; simpl.
  - apply Exists_cons in Hex as [Hout|Hex].
    + by rewrite getitem_Z_out_of_range in Hi.
    + by rewrite IH.
  - by rewrite (getitem_Z_raises l i e Hi).
Qed.

(** X20. A fold whose training indices are not all indices of [X_data]
    stops with an [IndexError] right after the learner has been asked for:
    nothing is fitted, predicted or scored. *)
Theorem evaluate_fold_index_out_of_range (X : list (@sequence feature))
    (Y : list (list label)) (tagset : list label) (pd gd : pyval) (st : cv_state)
    (train_indices test_indices : list Z) (w : @world feature) :
  Exists (λ i, ¬ in_range (length X) i) train_indices →
  evaluate_fold learner_fit learner_predict flat_score X Y tagset pd gd st
    (train_indices, test_indices) w
  = (Raise IndexError,
     World (X_data w) (y_data w) (entities w) (dirs w) (texts w) (ann_files w)
       (trace w ++ [EvGetLearner])).
Proof.
  intros Hout. unfold evaluate_fold.
  unfold mbind at 1 2, M_bind at 1 2, log, modify, lift. simpl.
  by rewrite mapM_getitem_Z_out_of_range.
Qed.

End IndexFacts.

Lemma evaluate_fold_index_out_of_range_witness :
  evaluate_fold Demo.learner_fit Demo.learner_predict Demo.flat_score
    Sample.sequences Sample.labels ["Dose"; "Drug"] PNone PNone (CvState [] ∅ ∅)
    ([0; 3], [1]) Demo.world0
  = (Raise IndexError,
     World (X_data Demo.world0) (y_data Demo.world0) (entities Demo.world0)
       (dirs Demo.world0) (texts Demo.world0) (ann_files Demo.world0)
       (trace Demo.world0 ++ [EvGetLearner])).
Proof.
  apply (evaluate_fold_index_out_of_range Demo.learner_fit Demo.learner_predict
           Demo.flat_score Sample.sequences Sample.labels ["Dose"; "Drug"] PNone PNone
           (CvState [] ∅ ∅) [0; 3] [1] Demo.world0).
  apply Exists_cons. right. apply Exists_cons. left.
  unfold in_range. simpl. lia.
Defined.
